(** * HyGCS: hysteresis metrics and geochemical phase classification

    A shallow embedding of the decision procedures and metric formulas of
    the [hygcs] package ([gcs_classification.py], [gcs_core.py], [harp.py],
    [zuecco.py], [lloyd.py]) together with the properties stated for them.

    Number models.  The two classifiers of [gcs_classification.py] only
    compare, negate and add floats, so they are embedded over the kernel's
    binary64 floats ([PrimFloat]): NaN, the infinities and rounding behave
    as in Python.  The metric engines are embedded over exact rationals,
    with NaN written [None]. *)

From Stdlib Require Import List String Bool ZArith QArith Qminmax Qround Qabs.
From Stdlib Require Import Qfield Sorted.
From Stdlib Require Import Lia Lqa Floats.
From stdpp Require Import base option gmap strings.
Import ListNotations.

Set Warnings "-inexact-float".

(* ===================================================================== *)
(** ** Python values shared by the modules *)
(* ===================================================================== *)

Module Py.

(** [min(a, b)] of Python: the first argument wins unless the second is
    strictly smaller (a NaN second argument is never smaller). *)
Definition min (a b : float) : float :=
  if PrimFloat.ltb b a then b else a.

(** [x in [s1, ..., sn]] for strings. *)
Definition str_in (x : string) (l : list string) : bool :=
  existsb (String.eqb x) l.

(** [d.get(key, default)] on a column that may be absent. *)
Definition get {A : Type} (field : option A) (default : A) : A :=
  match field with
  | Some v => v
  | None => default
  end.

End Py.

(* ===================================================================== *)
(** ** gcs_classification.py *)
(* ===================================================================== *)

Module Classification.

#[local] Open Scope string_scope.
#[local] Open Scope list_scope.
#[local] Open Scope bool_scope.
#[local] Open Scope float_scope.

(** The columns of a segment row that [classify_segment_phase] reads.  A
    column that the row lacks is [None]; numeric columns hold floats (a
    missing measurement is a NaN float, not an absent column) and the
    categorical columns hold strings. *)
Record Row : Type := {
  window_HI_zuecco : option float;
  window_HI_lloyd : option float;
  window_HI_harp : option float;
  Q_position : option string;
  C_position : option string;
  flow_diff : option float;
  conc_diff : option float;
  CVc_CVq : option float;
  cq_slope_loglog : option float;
  highres_flow_phase : option string;
  highres_days_since_peak : option float;
  highres_q_level : option string;
  HI_transition : option string;
  prev_C_position : option string;
  prev_conc_diff : option float;
  prev2_conc_diff : option float;
  C_trajectory : option string;
  WAI : option float
}.

(** The outcome of one block of the rule cascade: the block raised
    [KeyError] on a threshold the mapping lacks, it returned the triple, or
    control fell through to the next block with the rule trail so far. *)
Inductive step : Type :=
| KeyError (key : string)
| Return (phase : string) (confidence : float) (rules : list string)
| Continue (rules : list string).

(** [percentiles[key]], evaluated where the source evaluates it. *)
Definition item (percentiles : gmap string float) (key : string)
    (k : float -> step) : step :=
  match percentiles !! key with
  | Some v => k v
  | None => KeyError key
  end.

(** Sequencing of blocks: the next block runs only after a fall-through. *)
Definition and_then (s : step) (next : list string -> step) : step :=
  match s with
  | Continue rules => next rules
  | KeyError key => KeyError key
  | Return phase confidence rules => Return phase confidence rules
  end.

(** NaN as the default of [row.get(..., np.nan)]. *)
Definition nan : float := PrimFloat.nan.

Section classify_segment_phase.

Variable row : Row.
Variable percentiles : gmap string float.

(** Lines 67-79: the hysteresis index, Zuecco's first. *)
Definition hi_zuecco : float := Py.get row.(window_HI_zuecco) 0.
Definition hi_lloyd : float := Py.get row.(window_HI_lloyd) 0.
Definition hi_harp : float := Py.get row.(window_HI_harp) 0.

Definition hi : float :=
  if negb (is_nan hi_zuecco) then hi_zuecco
  else if negb (is_nan hi_lloyd) then hi_lloyd
  else if negb (is_nan hi_harp) then hi_harp
  else 0.

(** Lines 81-101. *)
Definition q_pos : string := Py.get row.(Q_position) "medium".
Definition c_pos : string := Py.get row.(C_position) "medium".
Definition flow_diff_ : float := Py.get row.(flow_diff) 0.
Definition conc_diff_ : float := Py.get row.(conc_diff) 0.
Definition cvc_cvq : float := Py.get row.(CVc_CVq) nan.
Definition cq_slope : float := Py.get row.(cq_slope_loglog) nan.
Definition flow_phase : string := Py.get row.(highres_flow_phase) "unknown".
Definition days_since_peak : float := Py.get row.(highres_days_since_peak) nan.
Definition q_level : string := Py.get row.(highres_q_level) q_pos.
Definition hi_transition : string := Py.get row.(HI_transition) "stable".
Definition prev_c_pos : string := Py.get row.(prev_C_position) "none".
Definition prev_conc_diff_ : float := Py.get row.(prev_conc_diff) 0.
Definition prev2_conc_diff_ : float := Py.get row.(prev2_conc_diff) 0.
Definition c_trajectory : string := Py.get row.(C_trajectory) "stable".
Definition wai : float := Py.get row.(WAI) nan.

(** Lines 114-120. *)
Definition q_at_peak : bool :=
  Py.str_in flow_phase ["at_peak"; "rising"; "early_decline"].
Definition q_high : bool :=
  Py.str_in q_level ["high"; "medium"] || (q_pos =? "high")%string.
Definition c_was_high : bool :=
  (prev_c_pos =? "high")%string || (c_pos =? "high")%string
  || Py.str_in c_trajectory ["steep_decline_from_high"; "steep_decline"].
Definition cq_slope_positive : bool :=
  negb (is_nan cq_slope) && (0.15 <? cq_slope).

(** Priority 1, lines 110-170: flushing. *)
Definition flushing (rules : list string) : step :=
  item percentiles "dC_p08" (fun dC_p08 =>
  let current_steep := conc_diff_ <? dC_p08 in
  let prev_steep := prev_conc_diff_ <? dC_p08 in
  let prev2_steep := prev2_conc_diff_ <? dC_p08 in
  if current_steep && (q_at_peak || q_high) then
    let rules := rules ++ ["current_steep_decline"; "q_high_or_peak"] in
    let rules :=
      if cq_slope_positive then rules ++ ["positive_cq_slope_dilution"]
      else rules in
    let confidence :=
      if cq_slope_positive then (if c_was_high then 0.95 else 0.90)
      else (if c_was_high then 0.92 else 0.85) in
    let rules := if c_was_high then rules ++ ["c_was_high"] else rules in
    if negb (is_nan wai) && (1.0 <? wai) then
      Return "F" (Py.min 0.98 (confidence + 0.03)) (rules ++ ["high_wai_wet"])
    else
      Return "F" confidence rules
  else
  and_then
    (* aftermath: previous steep decline, Q still elevated *)
    (if prev_steep && q_high && negb (is_nan days_since_peak)
        && (days_since_peak <? 15) then
       let rules := rules ++ ["prev_steep_decline"; "q_high"; "recent_peak"] in
       item percentiles "abs_dC_p75" (fun abs_dC_p75 =>
       if abs conc_diff_ <? abs_dC_p75 then
         let rules := rules ++ ["aftermath_stable"] in
         if cq_slope_positive then
           Return "F" 0.85 (rules ++ ["positive_cq_slope_confirms"])
         else
           Return "F" 0.80 rules
       else Continue rules)
     else Continue rules)
  (fun rules =>
  (* extended aftermath: steep decline two segments ago *)
  if prev2_steep && q_at_peak then
    let rules := rules ++ ["prev2_steep_decline"; "q_at_peak"] in
    if cq_slope_positive then
      Return "F" 0.75 (rules ++ ["positive_cq_slope"])
    else
      Return "F" 0.70 rules
  else
  (* extreme decline with any Q elevation *)
  item percentiles "dC_p01" (fun dC_p01 =>
  if conc_diff_ <? dC_p01 then
    let rules := rules ++ ["extreme_decline"] in
    if cq_slope_positive then
      Return "F" 0.92 (rules ++ ["positive_cq_slope_strong"])
    else if (0 <? flow_diff_) || Py.str_in q_pos ["high"; "medium"] then
      Return "F" 0.88 (rules ++ ["q_elevated"])
    else Continue rules
  else Continue rules))).

(** Lines 177-181. *)
Definition c_high_rising : bool :=
  (c_pos =? "high")%string && (0 <? conc_diff_).
Definition q_not_peaked : bool :=
  negb (Py.str_in flow_phase ["at_peak"; "early_decline"]).
Definition cq_slope_negative : bool :=
  negb (is_nan cq_slope) && (cq_slope <? -0.15).

(** Priority 2, lines 183-217: loading. *)
Definition loading (rules : list string) : step :=
  if c_high_rising then
    let rules := rules ++ ["c_high"; "c_rising"] in
    let rules :=
      if cq_slope_negative then rules ++ ["negative_cq_slope_enrichment"]
      else rules in
    let rules := if q_not_peaked then rules ++ ["q_not_peaked"] else rules in
    let confidence :=
      if cq_slope_negative then (if q_not_peaked then 0.95 else 0.92)
      else (if q_not_peaked then 0.90 else 0.80) in
    if negb (is_nan wai) && (wai <? -1.0) then
      Return "L" (Py.min 0.98 (confidence + 0.03))
             (rules ++ ["low_wai_accumulation"])
    else
      Return "L" confidence rules
  else
  (* large concentration increase *)
  item percentiles "dC_p90" (fun dC_p90 =>
  if dC_p90 <? conc_diff_ then
    let rules := rules ++ ["large_c_increase"] in
    item percentiles "dQ_p75" (fun dQ_p75 =>
    if flow_diff_ <=? dQ_p75 then
      let rules := rules ++ ["q_stable"] in
      if cq_slope_negative then
        Return "L" 0.90 (rules ++ ["negative_cq_slope_confirms"])
      else
        Return "L" 0.85 rules
    else Continue rules)
  else Continue rules).

(** Lines 226-230. *)
Definition post_peak : bool :=
  Py.str_in flow_phase ["post_peak"; "late_decline"]
  || (negb (is_nan days_since_peak) && (5 <? days_since_peak)
      && (days_since_peak <? 30)).
Definition cq_slope_flat : bool :=
  is_nan cq_slope || (abs cq_slope <? 0.1).

(** Priority 3, lines 224-245: chemostatic. *)
Definition chemostatic (rules : list string) : step :=
  item percentiles "dC_p25" (fun dC_p25 =>
  item percentiles "dC_p08" (fun dC_p08 =>
  let in_post_flush :=
    (prev_conc_diff_ <? dC_p25) || (prev2_conc_diff_ <? dC_p08) in
  if (abs hi <? 0.12) && (hi_transition =? "stable")%string then
    let rules := rules ++ ["low_hi"; "stable_hi"] in
    let rules :=
      if cq_slope_flat then rules ++ ["flat_cq_slope_chemostatic"]
      else rules in
    let not_dynamic (dynamic : bool) : step :=
      if negb dynamic then
        (* post-flush recovery is dilution, not chemostatic *)
        if negb (in_post_flush && post_peak) then
          Return "C" (if cq_slope_flat then 0.90 else 0.85)
                 (rules ++ ["not_dynamic"])
        else Continue rules
      else Continue rules in
    if c_high_rising then not_dynamic true
    else if q_high then
      item percentiles "abs_dC_p75" (fun abs_dC_p75 =>
      not_dynamic (abs_dC_p75 <? abs conc_diff_))
    else not_dynamic false
  else Continue rules)).

(** Lines 252-258. *)
Definition post_peak_phase : bool :=
  Py.str_in flow_phase ["post_peak"; "late_decline"; "stable"]
  || (negb (is_nan days_since_peak) && (5 <? days_since_peak)).
Definition q_declining_moderate : bool := flow_diff_ <? 0.
Definition c_depleted : bool := Py.str_in c_pos ["low"; "medium"].

(** Priority 4, lines 255-274: dilution. *)
Definition dilution (rules : list string) : step :=
  item percentiles "abs_dC_p75" (fun abs_dC_p75 =>
  item percentiles "dC_p25" (fun dC_p25 =>
  item percentiles "dC_p08" (fun dC_p08 =>
  let c_stable_or_recovering := abs conc_diff_ <? abs_dC_p75 in
  let prev_c_declining := prev_conc_diff_ <? dC_p25 in
  let prev2_c_declining := prev2_conc_diff_ <? dC_p08 in
  (* post-flush recovery *)
  if post_peak_phase && q_declining_moderate && c_stable_or_recovering
     && (prev_c_declining || prev2_c_declining) then
    let rules :=
      rules ++ ["post_peak"; "q_declining"; "c_stable"; "recent_flush"] in
    if c_depleted then Return "D" 0.85 (rules ++ ["c_depleted"])
    else Return "D" 0.75 rules
  else
  (* large Q drop with small C change post-peak *)
  let large_drop (dQ_p10 : float) : step :=
    if (flow_diff_ <? dQ_p10) && (abs conc_diff_ <? abs_dC_p75) then
      let rules := rules ++ ["post_peak"; "large_q_drop"; "c_not_changing"] in
      if prev_c_declining || prev2_c_declining then
        Return "D" 0.80 (rules ++ ["recent_flush"])
      else Continue rules
    else Continue rules in
  if post_peak_phase then item percentiles "dQ_p10" large_drop
  else Continue rules))).

(** Line 281. *)
Definition late_cycle : bool :=
  Py.str_in flow_phase ["low"; "late_decline"] || (q_level =? "low")%string.

(** Priority 5, lines 282-295: recession. *)
Definition recession (rules : list string) : step :=
  item percentiles "dQ_p25" (fun dQ_p25 =>
  let both (dC_p25 : float) : bool :=
    (flow_diff_ <? dQ_p25) && (conc_diff_ <? dC_p25) in
  let rest (both_declining : bool) : step :=
    and_then
      (if negb (is_nan cvc_cvq) && (cvc_cvq <? 0.8) then
         let rules := rules ++ ["low_cvc_cvq"] in
         if flow_diff_ <? dQ_p25 then
           let rules := rules ++ ["q_declining"] in
           if late_cycle then Return "R" 0.85 (rules ++ ["late_cycle"])
           else Return "R" 0.75 rules
         else Continue rules
       else Continue rules)
    (fun rules =>
    if both_declining && late_cycle then
      Return "R" 0.70 (rules ++ ["both_declining"; "late_cycle"])
    else Continue rules) in
  if flow_diff_ <? dQ_p25 then
    item percentiles "dC_p25" (fun dC_p25 => rest (both dC_p25))
  else rest false).

(** Lines 301-308: the fallback. *)
Definition fallback (rules : list string) : string * float * list string :=
  let rules := rules ++ ["fallback_variable"] in
  let conf :=
    if (abs conc_diff_ <? 30) && (abs flow_diff_ <? 30) then 0.60 else 0.40 in
  ("V", conf, rules).

(** The cascade as the source orders it. *)
Definition cascade : step :=
  and_then (and_then (and_then (and_then
    (flushing []) loading) chemostatic) dilution) recession.

(** [classify_segment_phase(row, percentiles)]: the returned triple, or
    the key of the [KeyError] raised. *)
Definition classify_segment_phase
    : string + (string * float * list string) :=
  match cascade with
  | KeyError key => inl key
  | Return phase confidence rules => inr (phase, confidence, rules)
  | Continue rules => inr (fallback rules)
  end.

End classify_segment_phase.

(** [classify_cq_behavior_simple], lines 659-664: a change is tested
    against the span of its range only when the span exceeds 1e-10. *)
Definition is_changing (diff delta threshold_factor : float) : bool :=
  if 1e-10 <? delta then threshold_factor * delta <? abs diff else false.

(** [classify_cq_behavior_simple], lines 620-681. *)
Definition classify_cq_behavior_simple (flow_diff conc_diff : float)
    (flow_range conc_range : float * float) (threshold_factor : float)
    : string :=
  let flow_delta := snd flow_range - fst flow_range in
  let conc_delta := snd conc_range - fst conc_range in
  let is_flow_changing := is_changing flow_diff flow_delta threshold_factor in
  let is_conc_changing := is_changing conc_diff conc_delta threshold_factor in
  if negb is_flow_changing && negb is_conc_changing then "static"
  else if is_flow_changing && negb is_conc_changing then "quasi-chemostatic"
  else if negb is_flow_changing && is_conc_changing then "source variation"
  else if (0 <? flow_diff) && (0 <? conc_diff) then "connectivity"
  else if (flow_diff <? 0) && (conc_diff <? 0) then "recovery"
  else if (0 <? flow_diff) && (conc_diff <? 0) then "dispersion"
  else "accumulation".

(** The keys of the threshold mapping that the cascade reads; they are
    among those [compute_change_percentiles] always produces. *)
Definition threshold_keys : list string :=
  ["dC_p01"; "dC_p08"; "dC_p25"; "dC_p90";
   "dQ_p10"; "dQ_p25"; "dQ_p75"; "abs_dC_p75"].

(** A percentile-threshold mapping: every key of [threshold_keys] is set. *)
Definition has_thresholds (percentiles : gmap string float) : bool :=
  forallb
    (fun key => match percentiles !! key with Some _ => true | None => false end)
    threshold_keys.

(** The six phase letters. *)
Definition phases : list string := ["F"; "L"; "C"; "D"; "R"; "V"].

(** [0.0 <= c <= 1.0] as Python evaluates it (false for NaN). *)
Definition unit_interval (c : float) : Prop :=
  (0 <=? c) = true /\ (c <=? 1) = true.

(** What a block of the cascade guarantees about its outcome. *)
Definition sound (percentiles : gmap string float) (s : step) : Prop :=
  match s with
  | KeyError key => In key threshold_keys /\ percentiles !! key = None
  | Return phase confidence rules =>
      In phase phases /\ unit_interval confidence /\ rules <> []
  | Continue _ => True
  end.

(** The table of the coarse behaviour tag as the specification words it:
    a change counts as significant as soon as its magnitude exceeds
    [threshold_factor] times the span, whatever the span. *)
Definition exceeds (diff delta threshold_factor : float) : bool :=
  threshold_factor * delta <? abs diff.

Definition behavior_table (flow_changing conc_changing : bool)
    (flow_diff conc_diff : float) : string :=
  match flow_changing, conc_changing with
  | false, false => "static"
  | true, false => "quasi-chemostatic"
  | false, true => "source variation"
  | true, true =>
      if (0 <? flow_diff) && (0 <? conc_diff) then "connectivity"
      else if (flow_diff <? 0) && (conc_diff <? 0) then "recovery"
      else if (0 <? flow_diff) && (conc_diff <? 0) then "dispersion"
      else "accumulation"
  end.

Definition behavior_as_specified (flow_diff conc_diff : float)
    (flow_range conc_range : float * float) (threshold_factor : float)
    : string :=
  behavior_table
    (exceeds flow_diff (snd flow_range - fst flow_range) threshold_factor)
    (exceeds conc_diff (snd conc_range - fst conc_range) threshold_factor)
    flow_diff conc_diff.

(** A row with no column at all, and a threshold mapping, for examples. *)
Definition empty_row : Row :=
  {| window_HI_zuecco := None; window_HI_lloyd := None;
     window_HI_harp := None; Q_position := None; C_position := None;
     flow_diff := None; conc_diff := None; CVc_CVq := None;
     cq_slope_loglog := None; highres_flow_phase := None;
     highres_days_since_peak := None; highres_q_level := None;
     HI_transition := None; prev_C_position := None;
     prev_conc_diff := None; prev2_conc_diff := None;
     C_trajectory := None; WAI := None |}.

Definition example_thresholds : gmap string float :=
  list_to_map
    [("dC_p01", -10); ("dC_p08", -5); ("dC_p25", -1); ("dC_p90", 5);
     ("dQ_p10", -4); ("dQ_p25", -2); ("dQ_p75", 3); ("abs_dC_p75", 2)].

(** A steep decline at high flow after a high concentration, in wet
    conditions: the flushing branch with every boost. *)
Definition flushing_row : Row :=
  {| window_HI_zuecco := Some 0.3; window_HI_lloyd := Some nan;
     window_HI_harp := Some nan; Q_position := Some "high";
     C_position := Some "medium"; flow_diff := Some 4;
     conc_diff := Some (-7); CVc_CVq := Some 1.5;
     cq_slope_loglog := Some 0.4; highres_flow_phase := Some "at_peak";
     highres_days_since_peak := Some 0.5; highres_q_level := Some "high";
     HI_transition := Some "stable"; prev_C_position := Some "high";
     prev_conc_diff := Some 1; prev2_conc_diff := Some 0;
     C_trajectory := Some "steep_decline_from_high"; WAI := Some 2 |}.

End Classification.

(* ===================================================================== *)
(** ** Numbers of the metric engines *)
(* ===================================================================== *)

(** The engines work on min-max scaled series: every value is a finite
    number or NaN.  A value is an exact rational or [None] for NaN; the
    rounding of binary64 arithmetic is not modelled here. *)
Module Num.

#[local] Open Scope Q_scope.

Definition num : Type := option Q.

Definition NaN : num := None.

Definition Qltb (x y : Q) : bool :=
  match x ?= y with Lt => true | _ => false end.

Definition lift2 (f : Q -> Q -> Q) (a b : num) : num :=
  match a, b with
  | Some x, Some y => Some (f x y)
  | _, _ => None
  end.

Definition add : num -> num -> num := lift2 Qplus.
Definition sub : num -> num -> num := lift2 Qminus.
Definition mul : num -> num -> num := lift2 Qmult.

(** Division of numpy floats.  A zero divisor gives an infinity or NaN in
    numpy; the engines guard their divisions, and on scaled values no
    unguarded divisor is zero, so the model records that case as [None]. *)
Definition div (a b : num) : num :=
  match a, b with
  | Some x, Some y => if Qeq_bool y 0 then None else Some (x / y)
  | _, _ => None
  end.

(** [a < b], [a == b]: false as soon as an argument is NaN. *)
Definition ltb (a b : num) : bool :=
  match a, b with
  | Some x, Some y => Qltb x y
  | _, _ => false
  end.

Definition eqb (a b : num) : bool :=
  match a, b with
  | Some x, Some y => Qeq_bool x y
  | _, _ => false
  end.

Definition isnan (a : num) : bool :=
  match a with
  | None => true
  | Some _ => false
  end.

(** The same number: both NaN, or equal rationals. *)
Definition equiv (a b : num) : Prop :=
  match a, b with
  | Some x, Some y => x == y
  | None, None => True
  | _, _ => False
  end.

(** [Series.sum()]: NaN entries are skipped. *)
Fixpoint sum_skipna (l : list num) : Q :=
  match l with
  | [] => 0
  | Some v :: rest => v + sum_skipna rest
  | None :: rest => sum_skipna rest
  end.

(** [max(a, b)] of Python: [b] when [b > a], else [a]. *)
Definition py_max (a b : num) : num := if ltb a b then b else a.

End Num.

(* ===================================================================== *)
(** ** The preprocessing shared by harp.py, zuecco.py and lloyd.py *)
(* ===================================================================== *)

Module Frames.

Import Num.
#[local] Open Scope Q_scope.

Inductive phase : Type := rising | falling.

Definition phase_eqb (a b : phase) : bool :=
  match a, b with
  | rising, rising | falling, falling => true
  | _, _ => false
  end.

(** A row of [df_all]: the scaled discharge, the scaled concentration and
    the discharge phase. *)
Record sample : Type := { QS : Q; CS : Q; Qphase : phase }.

(** A row of [limbs]: the index label and the two columns 0 and 1. *)
Record limb_row : Type := { x : Q; rise : num; fall : num }.

(** *** MinMaxScaler *)

Definition col_min (v : Q) (rest : list Q) : Q := fold_left Qmin rest v.
Definition col_max (v : Q) (rest : list Q) : Q := fold_left Qmax rest v.

(** Ten machine epsilons: below it sklearn treats a range as zero. *)
Definition ten_eps : Q := 10 * (1 # (2 ^ 52)).

(** [MinMaxScaler().fit_transform]: [X * scale_ + min_] on a column.  The
    smallest value of the column maps to 0.  In exact arithmetic the
    largest one maps to 1; in binary64 the product and the sum are rounded
    and it can come out in the last place above 1. *)
Definition minmax_scale (col : list Q) : list Q :=
  match col with
  | [] => []
  | v :: rest =>
      let data_min := col_min v rest in
      let data_range := col_max v rest - data_min in
      let scale := 1 / (if Qltb data_range ten_eps then 1 else data_range) in
      let min_ := 0 - data_min * scale in
      map (fun value => value * scale + min_) col
  end.

(** *** argmax and the phases *)

Fixpoint argmax_from (best : Q) (best_i i : nat) (l : list Q) : nat :=
  match l with
  | [] => best_i
  | v :: rest =>
      if Qltb best v then argmax_from v i (S i) rest
      else argmax_from best best_i (S i) rest
  end.

(** The first position of the maximum. *)
Definition argmax (l : list Q) : nat :=
  match l with
  | [] => O
  | v :: rest => argmax_from v 0 1 rest
  end.

(** Lines 83-98 of harp.py on an hourly series of (Q, C): scaling, then
    [rising] before the discharge peak and [falling] from it on. *)
Definition prepare (hourly : list (Q * Q)) : list sample :=
  let q := map fst hourly in
  let peak := argmax q in
  let scaled := combine (minmax_scale q) (minmax_scale (map snd hourly)) in
  map (fun '(i, (qs, cs)) =>
         {| QS := qs; CS := cs;
            Qphase := if (i <? peak)%nat then rising else falling |})
      (combine (seq 0 (length scaled)) scaled).

(** *** groupby('QS').mean() *)

Fixpoint group_insert (key value : Q) (groups : list (Q * (Q * positive)))
    : list (Q * (Q * positive)) :=
  match groups with
  | [] => [(key, (value, 1%positive))]
  | (k, (total, count)) :: rest =>
      match key ?= k with
      | Lt => (key, (value, 1%positive)) :: groups
      | Eq => (k, (total + value, Pos.succ count)) :: rest
      | Gt => (k, (total, count)) :: group_insert key value rest
      end
  end.

(** The mean of [CS] for each distinct [QS], by increasing [QS]. *)
Definition groupby_mean (rows : list (Q * Q)) : list (Q * Q) :=
  map (fun '(k, (total, count)) => (k, total / inject_Z (Zpos count)))
      (fold_left (fun groups '(k, v) => group_insert k v groups) rows []).

Definition limb_of (p : phase) (rows : list sample) : list (Q * Q) :=
  groupby_mean
    (map (fun r => (r.(QS), r.(CS)))
         (filter (fun r => phase_eqb r.(Qphase) p) rows)).

(** *** pd.concat([rising, falling], axis=1, sort=True) *)

Fixpoint concat_columns (a b : list (Q * Q)) : list limb_row :=
  let fix against (b : list (Q * Q)) : list limb_row :=
    match a, b with
    | [], _ => map (fun '(k, v) => {| x := k; rise := None; fall := Some v |}) b
    | _, [] => map (fun '(k, v) => {| x := k; rise := Some v; fall := None |}) a
    | (ka, va) :: a', (kb, vb) :: b' =>
        match ka ?= kb with
        | Lt => {| x := ka; rise := Some va; fall := None |}
                :: concat_columns a' b
        | Eq => {| x := ka; rise := Some va; fall := Some vb |}
                :: concat_columns a' b'
        | Gt => {| x := kb; rise := None; fall := Some vb |} :: against b'
        end
    end in
  against b.

(** *** interpolate(method='linear') on one column

    The index is ignored, the rows count as equally spaced; NaNs before
    the first value stay, NaNs after the last value take it. *)

Fixpoint next_valid (col : list num) : option (nat * Q) :=
  match col with
  | [] => None
  | Some v :: _ => Some (O, v)
  | None :: rest =>
      match next_valid rest with
      | Some (d, v) => Some (S d, v)
      | None => None
      end
  end.

Definition Qnat (n : nat) : Q := inject_Z (Z.of_nat n).

(** [prev] is the last value seen and the number of rows since it. *)
Fixpoint interpolate_from (prev : option (Q * nat)) (col : list num)
    : list num :=
  match col with
  | [] => []
  | Some v :: rest => Some v :: interpolate_from (Some (v, 1%nat)) rest
  | None :: rest =>
      match prev with
      | None => None :: interpolate_from None rest
      | Some (v0, k) =>
          Some (match next_valid rest with
                | Some (d, v1) => v0 + (v1 - v0) * Qnat k / Qnat (k + d + 1)
                | None => v0
                end)
          :: interpolate_from (Some (v0, S k)) rest
      end
  end.

Definition interpolate_column (col : list num) : list num :=
  interpolate_from None col.

(** Both columns of a frame interpolated. *)
Definition interpolate (frame : list limb_row) : list limb_row :=
  map (fun '(k, (r, f)) => {| x := k; rise := r; fall := f |})
      (combine (map x frame)
               (combine (interpolate_column (map rise frame))
                        (interpolate_column (map fall frame)))).

(** Lines 101-105 of harp.py: the limbs of a set of rows. *)
Definition make_limbs (rows : list sample) : list limb_row :=
  interpolate (concat_columns (limb_of rising rows) (limb_of falling rows)).

(** *** np.interp(x, xp, fp)

    Flat outside the sample points, the sample itself at a sample point,
    and between two sample points the line through them, which is NaN as
    soon as one of the two values is.  (On an empty [xp] numpy raises; the
    limbs of a frame with a row are not empty.) *)

Fixpoint interp_after (target : Q) (x0 : Q) (f0 : num)
    (rest : list (Q * num)) : num :=
  match rest with
  | [] => f0
  | (x1, f1) :: rest' =>
      if Qltb target x1 then
        if Qeq_bool target x0 then f0
        else
          let slope := div (sub f1 f0) (Some (x1 - x0)) in
          add (mul slope (Some (target - x0))) f0
      else interp_after target x1 f1 rest'
  end.

Definition np_interp (target : Q) (points : list (Q * num)) : num :=
  match points with
  | [] => NaN
  | (x0, f0) :: rest =>
      if Qltb target x0 then f0 else interp_after target x0 f0 rest
  end.

(** *** (limbs[0] - limbs[1]) * limbs.index.diff() *)

(** [Index.diff()]: NaN first, then the steps. *)
Fixpoint index_diff_from (prev : Q) (xs : list Q) : list num :=
  match xs with
  | [] => []
  | v :: rest => Some (v - prev) :: index_diff_from v rest
  end.

Definition index_diff (xs : list Q) : list num :=
  match xs with
  | [] => []
  | v :: rest => None :: index_diff_from v rest
  end.

Fixpoint elementwise (f : num -> num -> num) (a b : list num) : list num :=
  match a, b with
  | u :: a', v :: b' => f u v :: elementwise f a' b'
  | _, _ => []
  end.

(** [((limbs[0] - limbs[1]) * limbs.index.diff()).sum()]. *)
Definition signed_area (limbs : list limb_row) : Q :=
  sum_skipna
    (elementwise mul
       (elementwise sub (map rise limbs) (map fall limbs))
       (index_diff (map x limbs))).

End Frames.

(* ===================================================================== *)
(** ** harp.py *)
(* ===================================================================== *)

Module Harp.

Import Num Frames.
#[local] Open Scope Q_scope.

(** [np.sign]. *)
Definition sign (v : Q) : Q :=
  if Qltb 0 v then 1 else if Qltb v 0 then -1 else 0.

(** [limbs.dropna()] with [limbs[0] - limbs[1]]: the label and the
    difference of each row where both limbs are defined. *)
Fixpoint clean_diff (limbs : list limb_row) : list (Q * Q) :=
  match limbs with
  | [] => []
  | r :: rest =>
      match r.(rise), r.(fall) with
      | Some a, Some b => (r.(x), a - b) :: clean_diff rest
      | _, _ => clean_diff rest
      end
  end.

(** [np.where(np.diff(np.sign(diff)))[0]], first entry: the label of the
    first row whose successor has another sign. *)
Fixpoint first_sign_change (rows : list (Q * Q)) : option Q :=
  match rows with
  | (x0, d0) :: rest =>
      match rest with
      | (_, d1) :: _ =>
          if Qeq_bool (sign d1 - sign d0) 0 then first_sign_change rest
          else Some x0
      | [] => None
      end
  | [] => None
  end.

(** [_find_intersection(limbs, method='simple')], lines 178-180 and
    213-220. *)
Definition find_intersection_simple (limbs : list limb_row) : option Q :=
  let limbs_clean := clean_diff limbs in
  if (length limbs_clean <? 2)%nat then None
  else first_sign_change limbs_clean.

(** Lines 110-138 of [calculate_harp_metrics]: [area], [area_lower] and
    [area_upper] from [df_all] and the intersection [xQS]. *)
Definition hysteresis_area (df_all : list sample) (xQS : option Q)
    : Q * num * num :=
  match xQS with
  | Some xQS =>
      let limbs1 :=
        make_limbs (filter (fun r => Qle_bool r.(QS) xQS) df_all) in
      let limbs2 :=
        make_limbs (filter (fun r => Qltb xQS r.(QS)) df_all) in
      let area1 := signed_area limbs1 in
      let area2 := signed_area limbs2 in
      let total_area := Qabs area1 + Qabs area2 in
      let area_sign :=
        if Qltb (Qabs area2) (Qabs area1) then sign area1 else sign area2 in
      (area_sign * total_area, Some area1, Some area2)
  | None => (signed_area (make_limbs df_all), NaN, NaN)
  end.

(** Lines 83-138 of [calculate_harp_metrics] on an hourly series, for an
    intersection method given as a function of the limbs: the three areas
    as they stand after line 138.  Whether the call returns them is decided
    further down, see [calculate_harp_metrics] below. *)
Definition calculate_harp_area (find_intersection : list limb_row -> option Q)
    (hourly : list (Q * Q)) : Q * num * num :=
  let df_all := prepare hourly in
  hysteresis_area df_all (find_intersection (make_limbs df_all)).

(** *** The integration rules the statements refer to *)





(** An event whose concentration peaks before the discharge: the rising
    limb lies above the falling limb throughout. *)
Definition early_peak_event : list (Q * Q) :=
  [(0, 1); (2, 4); (4, 2); (2, 1); (0, 0)].

(** An event whose limbs cross. *)
Definition crossing_event : list (Q * Q) :=
  [(0, 0); (1, 2); (2, 3); (4, 4); (3, 3); (2, 1); (1, 1)].

(** An event whose limbs coincide at low flow and whose falling limb lies
    above the rising limb at high flow. *)
Definition late_rise_event : list (Q * Q) :=
  [(0, 2); (1, 3); (2, 1); (4, 2); (3, 4); (2, 4); (1, 3); (0, 2)].

(** *** The call as a whole *)

(** [Series.argmin()]: the first position of the minimum. *)
Fixpoint argmin_from (best : Q) (best_i i : nat) (l : list Q) : nat :=
  match l with
  | [] => best_i
  | v :: rest =>
      if Qltb v best then argmin_from v i (S i) rest
      else argmin_from best best_i (S i) rest
  end.

Definition argmin (l : list Q) : nat :=
  match l with
  | [] => O
  | v :: rest => argmin_from v 0 1 rest
  end.

(** Line 112: the position of the row nearest to the intersection, which
    lines 113-114 mark with 'X' in both switch point columns. *)
Definition intersection_row (df_all : list sample) (xQS : Q) : nat :=
  argmin (map (fun r => Qabs (r.(QS) - xQS)) df_all).

(** What a call does: it raises, or it returns metrics, of which the
    entries area, area_lower and area_upper are kept here. *)
Inductive harp_outcome : Type :=
| Fails (exception : string)
| Metrics (area : Q) (area_lower area_upper : num).

(** [calculate_harp_metrics], lines 83-165, on an hourly series.  Lines
    89 and 91 mark the rows of the global peaks with 'gQ' and 'gC'; when
    the mark 'X' of the intersection falls on one of them the peak is no
    longer found at line 147 or 148 and [index[0]] raises [IndexError].
    A series without rows does not get that far: the scaler at line 82
    rejects it with [ValueError] (and line 73 fails on it before, when the
    time column holds dates). *)
Definition calculate_harp_metrics
    (find_intersection : list limb_row -> option Q)
    (hourly : list (Q * Q)) : harp_outcome :=
  match hourly with
  | [] => Fails "ValueError"
  | _ :: _ =>
      let df_all := prepare hourly in
      let gQ := argmax (map fst hourly) in
      let gC := argmax (map snd hourly) in
      let xQS := find_intersection (make_limbs df_all) in
      let marked (peak : nat) : bool :=
        match xQS with
        | Some v => (intersection_row df_all v =? peak)%nat
        | None => false
        end in
      let '(area, area1, area2) := hysteresis_area df_all xQS in
      if marked gQ then Fails "IndexError"
      else if marked gC then Fails "IndexError"
      else Metrics area area1 area2
  end.

(** *** The two halves as the specification names them *)





(** An event whose limbs cross at the row of the concentration peak. *)
Definition peak_crossing_event : list (Q * Q) :=
  [(1, 1); (5, 5); (7, 5); (4, 0)].

End Harp.

(* ===================================================================== *)
(** ** zuecco.py *)
(* ===================================================================== *)

Module Zuecco.

Import Num Frames.
#[local] Open Scope Q_scope.

(** Line 106: [np.linspace(0.15, 1.0, 18)]. *)
Definition x_fixed : list Q :=
  let start := 15 # 100 in
  let step := (1 - start) / Qnat 17 in
  map (fun j => Qnat j * step + start) (seq 0 18).

(** *** limbs.reindex(x_fixed, method='nearest', tolerance=0.01, limit=1)

    The labels of [limbs] increase.  [pad] is the last row at or before the
    target and [backfill] the first row at or after it; the nearer one is
    taken, the later one on a tie, and it counts only within the
    tolerance.  The targets are 0.05 apart, so [limit=1] never drops a row
    that lies within the tolerance of a target. *)

Fixpoint pad (limbs : list limb_row) (target : Q) : option limb_row :=
  match limbs with
  | [] => None
  | r :: rest =>
      if Qle_bool r.(x) target then
        match pad rest target with
        | Some later => Some later
        | None => Some r
        end
      else None
  end.

Fixpoint backfill (limbs : list limb_row) (target : Q) : option limb_row :=
  match limbs with
  | [] => None
  | r :: rest =>
      if Qle_bool target r.(x) then Some r else backfill rest target
  end.

Definition nearest (limbs : list limb_row) (target : Q) : option limb_row :=
  match pad limbs target, backfill limbs target with
  | Some l, Some r =>
      if Qltb (Qabs (target - l.(x))) (Qabs (target - r.(x))) then Some l
      else Some r
  | Some l, None => Some l
  | None, Some r => Some r
  | None, None => None
  end.

Definition reindex_nearest (limbs : list limb_row) (targets : list Q)
    (tolerance : Q) : list limb_row :=
  map (fun target =>
         match nearest limbs target with
         | Some r =>
             if Qle_bool (Qabs (target - r.(x))) tolerance then
               {| x := target; rise := r.(rise); fall := r.(fall) |}
             else {| x := target; rise := NaN; fall := NaN |}
         | None => {| x := target; rise := NaN; fall := NaN |}
         end)
      targets.

(** [column.isna().all()]. *)
Definition all_nan (col : list num) : bool := forallb isnan col.

(** Lines 109-120: the limbs at the fixed points. *)
Definition sample_limbs (limbs : list limb_row) : list limb_row :=
  let limbs_fixed := interpolate (reindex_nearest limbs x_fixed (1 # 100)) in
  if all_nan (map rise limbs_fixed) || all_nan (map fall limbs_fixed) then
    map (fun target =>
           {| x := target;
              rise := np_interp target (map (fun r => (r.(x), r.(rise))) limbs);
              fall := np_interp target (map (fun r => (r.(x), r.(fall))) limbs)
           |})
        x_fixed
  else limbs_fixed.

(** Lines 125-129: one differential area, from the rows [j] and [j + 1]. *)
Definition differential_area (a b : limb_row) : num :=
  let dx := Some (b.(x) - a.(x)) in
  let rise_trap := div (mul (add b.(rise) a.(rise)) dx) (Some 2) in
  let fall_trap := div (mul (add b.(fall) a.(fall)) dx) (Some 2) in
  sub rise_trap fall_trap.

Fixpoint diff_areas_from (a : limb_row) (rest : list limb_row) : list num :=
  match rest with
  | [] => []
  | b :: rest' => differential_area a b :: diff_areas_from b rest'
  end.

Definition diff_areas (limbs_fixed : list limb_row) : list num :=
  match limbs_fixed with
  | [] => []
  | a :: rest => diff_areas_from a rest
  end.

(** Lines 132-133: [diff_area.sum()], which skips NaN, then the guard
    against a sum that is not finite. *)
Definition h_index_of (diff_area : list num) : Q :=
  let h_index : num := Some (sum_skipna diff_area) in
  match h_index with
  | Some h => h
  | None => 0
  end.

(** Lines 105-133 of [calculate_zuecco_metrics], from the limbs. *)
Definition h_index (limbs : list limb_row) : Q :=
  h_index_of (diff_areas (sample_limbs limbs)).

(** [calculate_zuecco_metrics] up to line 133 on an hourly series. *)
Definition calculate_h_index (hourly : list (Q * Q)) : Q :=
  h_index (make_limbs (prepare hourly)).

(** *** The index as the specification words it *)

(** The sum of all the differential areas, NaN as soon as one of them
    is. *)
Fixpoint sum_all (l : list num) : num :=
  match l with
  | [] => Some 0
  | v :: rest => add v (sum_all rest)
  end.

(** The sum over the 17 pairs, replaced by 0 when it is not finite. *)
Definition h_index_as_specified (limbs : list limb_row) : Q :=
  match sum_all (diff_areas (sample_limbs limbs)) with
  | Some h => h
  | None => 0
  end.

(** Every sample of both limbs is a number. *)
Definition fully_sampled (limbs_fixed : list limb_row) : bool :=
  forallb (fun r => negb (isnan r.(rise)) && negb (isnan r.(fall)))
          limbs_fixed.

(** A short event that rises from no flow to its peak in one step: the
    limbs have no point near the low fixed points. *)
Definition flashy_event : list (Q * Q) := [(0, 0); (10, 1); (6, 2)].

(** An event sampled at every twentieth of its range on both limbs. *)
Definition dense_event : list (Q * Q) :=
  map (fun j => (Qnat j, Qnat j * Qnat j)) (seq 0 21)
  ++ map (fun j => (Qnat (20 - j), 400 - 12 * Qnat j)) (seq 1 20).

End Zuecco.

(* ===================================================================== *)
(** ** lloyd.py *)
(* ===================================================================== *)

Module Lloyd.

Import Num Frames.
#[local] Open Scope Q_scope.

(** Line 115: [np.arange(0.1, 1.0, 0.1)], nine percentiles. *)
Definition percentiles : list Q :=
  map (fun j => (1 # 10) + Qnat j * (1 # 10)) (seq 0 9).

(** Lines 120-126: the limbs at the discharge value [i], the row itself
    when [i] is a label and the interpolation otherwise. *)
Definition sample_at (limbs : list limb_row) (i : Q) : num * num :=
  match find (fun r => Qeq_bool r.(x) i) limbs with
  | Some r => (r.(rise), r.(fall))
  | None =>
      (np_interp i (map (fun r => (r.(x), r.(rise))) limbs),
       np_interp i (map (fun r => (r.(x), r.(fall))) limbs))
  end.

(** Lines 133-142: the ratio index of Lawler et al. *)
Definition HIL (C_rise C_fall : num) : num :=
  if ltb C_fall C_rise then
    (* clockwise *)
    if eqb C_fall (Some 0) then NaN
    else sub (div C_rise C_fall) (Some 1)
  else
    (* anticlockwise *)
    if eqb C_rise (Some 0) then NaN
    else add (div (Some (-1)) (div C_rise C_fall)) (Some 1).

(** Lines 145-149: the difference index of Lloyd et al. *)
Definition HInew (C_rise C_fall : num) : num :=
  let C_mid := py_max C_rise C_fall in
  if eqb C_mid (Some 0) then Some 0
  else div (sub C_rise C_fall) C_mid.

(** A row of [HI_data]. *)
Record hi_row : Type := {
  percentile : Q;
  HIL_ : num;
  HInew_ : num;
  RLi : num;
  FLi : num
}.

(** Lines 118-149: [HI_data] from the limbs. *)
Definition HI_data (limbs : list limb_row) : list hi_row :=
  map (fun i =>
         let '(C_rise, C_fall) := sample_at limbs i in
         {| percentile := i;
            HIL_ := HIL C_rise C_fall;
            HInew_ := HInew C_rise C_fall;
            RLi := C_rise;
            FLi := C_fall |})
      percentiles.

(** [calculate_lawlerlloyd_metrics] up to line 149 on an hourly series. *)
Definition calculate_HI_data (hourly : list (Q * Q)) : list hi_row :=
  HI_data (make_limbs (prepare hourly)).

(** The row of [HI_data] at position [n], a row of NaNs past the end. *)
Definition HI_row (rows : list hi_row) (n : nat) : hi_row :=
  nth n rows
      {| percentile := 0; HIL_ := NaN; HInew_ := NaN; RLi := NaN; FLi := NaN |}.

(** An event whose two limbs coincide at low flow (the late-rise event of
    the HARP examples). *)
Definition coinciding_event : list (Q * Q) :=
  [(0, 2); (1, 3); (2, 1); (4, 2); (3, 4); (2, 4); (1, 3); (0, 2)].

End Lloyd.

(* ===================================================================== *)
(** ** gcs_core.py *)
(* ===================================================================== *)

Module Core.

Import Num Frames.
#[local] Open Scope string_scope.
#[local] Open Scope list_scope.
#[local] Open Scope Q_scope.

(** *** calculate_all_hysteresis_metrics (lines 27-144) *)

(** A raised exception of a class below [Exception], with the text that
    [str(e)] gives.  Interrupts, which [except Exception] lets through, are
    not raised by the code below. *)
Inductive exception : Type :=
| Exception (class message : string).

Definition str (e : exception) : string :=
  match e with
  | Exception _ message => message
  end.

(** What running a piece of Python gives: a value, or a raised exception. *)
Inductive outcome (A : Type) : Type :=
| Returns (a : A)
| Raises (e : exception).

Arguments Returns {A} a.
Arguments Raises {A} e.

(** Sequencing: an exception of the first part skips the rest. *)
Definition bind {A B : Type} (m : outcome A) (k : A -> outcome B)
  : outcome B :=
  match m with
  | Returns a => k a
  | Raises e => Raises e
  end.

(** [try: body / except Exception as e: handler]. *)
Definition try_except {A : Type} (body : outcome A)
  (handler : exception -> outcome A) : outcome A :=
  match body with
  | Returns a => Returns a
  | Raises e => handler e
  end.

(** A data frame of metrics: its column labels and its rows. *)
Record frame : Type := {
  columns : list string;
  records : list (gmap string num)
}.

(** [metrics[column].values[0]] for a column that the frame has. *)
Definition first_value (metrics : frame) (column : string) : outcome num :=
  match metrics.(records) with
  | [] =>
      Raises (Exception "IndexError"
                "index 0 is out of bounds for axis 0 with size 0")
  | r :: _ => Returns (default NaN (r !! column))
  end.

(** [int(x)]: truncation towards zero, a [ValueError] on NaN. *)
Definition int (x : num) : outcome Z :=
  match x with
  | Some v => Returns (Z.quot (Qnum v) (Zpos (Qden v)))
  | None =>
      Raises (Exception "ValueError" "cannot convert float NaN to integer")
  end.

(** [metrics.to_dict('records')[0] if len(metrics) > 0 else {}]. *)
Definition first_record (metrics : frame) : gmap string num :=
  match metrics.(records) with
  | r :: _ => r
  | [] => ∅
  end.

(** A value of the dictionary [classifications]. *)
Inductive label : Type :=
| Number (x : num)
| Integer (z : Z)
| Text (s : string).

(** Lines 100-109, and again lines 112-121: the direction that a mean
    index names. *)
Definition direction (mean : num) : string :=
  if negb (isnan mean) then
    if ltb (Some (1 # 10)) mean then "clockwise"
    else if ltb mean (Some (- (1 # 10))) then "counter-clockwise"
    else "weak"
  else "unknown".

Section calculate_all_hysteresis_metrics.

(** The rows of the input frame and the processed frames that the engines
    hand back are passed through untouched. *)
Variables row processed : Type.

(** The three engines: each returns its metrics and a processed frame, or
    raises. *)
Variable calculate_harp_metrics : list row -> outcome (frame * processed).
Variable calculate_zuecco_metrics : list row -> outcome (frame * processed).
Variable calculate_lawlerlloyd_metrics :
  list row -> outcome (frame * processed).

(** The returned dictionary; [error] is [None] when the key is absent. *)
Record result : Type := {
  harp_metrics : gmap string num;
  zuecco_metrics : gmap string num;
  lloyd_metrics : gmap string num;
  classifications : gmap string label;
  processed_data : gmap string processed;
  error : option string
}.

(** The dictionary of lines 62-69 and 137-144. *)
Definition error_result (text : string) : result :=
  {| harp_metrics := ∅;
     zuecco_metrics := ∅;
     lloyd_metrics := ∅;
     classifications := ∅;
     processed_data := ∅;
     error := Some text |}.

(** The body of the [try] statement, lines 72-134. *)
Definition try_body (df : list row) : outcome result :=
  bind (calculate_harp_metrics df) (fun '(harp, harp_df) =>
  bind (calculate_zuecco_metrics df) (fun '(zuecco, zuecco_df) =>
  bind (calculate_lawlerlloyd_metrics df) (fun '(lloyd, lloyd_df) =>
  let labels : gmap string label := ∅ in
  bind (if Py.str_in "hyst_class" harp.(columns) then
          bind (first_value harp "hyst_class") (fun v =>
          Returns (<["harp_class" := Number v]> labels))
        else Returns labels) (fun labels =>
  bind (if Py.str_in "hyst_class" zuecco.(columns) then
          bind (first_value zuecco "hyst_class") (fun v =>
          bind (int v) (fun z =>
          Returns (<["zuecco_class" := Integer z]> labels)))
        else Returns labels) (fun labels =>
  bind (if Py.str_in "mean_HInew" lloyd.(columns) then
          bind (first_value lloyd "mean_HInew") (fun mean_hinew =>
          Returns (<["lloyd_direction" := Text (direction mean_hinew)]>
                     labels))
        else Returns labels) (fun labels =>
  bind (if Py.str_in "mean_HIL" lloyd.(columns) then
          bind (first_value lloyd "mean_HIL") (fun mean_hil =>
          Returns (<["lawler_direction" := Text (direction mean_hil)]>
                     labels))
        else Returns labels) (fun labels =>
  Returns
    {| harp_metrics := first_record harp;
       zuecco_metrics := first_record zuecco;
       lloyd_metrics := first_record lloyd;
       classifications := labels;
       processed_data :=
         list_to_map [("harp", harp_df); ("zuecco", zuecco_df);
                      ("lloyd", lloyd_df)];
       error := None |}))))))).

Definition calculate_all_hysteresis_metrics (df : list row)
  : outcome result :=
  if (length df <? 3)%nat then
    Returns (error_result "Insufficient data points (need >= 3)")
  else
    try_except (try_body df) (fun e =>
      Returns (error_result ("Calculation failed: " ++ str e))).

End calculate_all_hysteresis_metrics.

Arguments harp_metrics {processed} _.
Arguments zuecco_metrics {processed} _.
Arguments lloyd_metrics {processed} _.
Arguments classifications {processed} _.
Arguments processed_data {processed} _.
Arguments error {processed} _.
Arguments error_result {processed} text.
Arguments try_body {row processed} _ _ _ df.
Arguments calculate_all_hysteresis_metrics {row processed} _ _ _ df.

(** Engines for the examples: one that returns a single row with a single
    metric, and one that rejects its input as zuecco.py and lloyd.py do at
    their first lines. *)
Definition engine_returning (column : string) (v : num)
  : list (Q * Q) -> outcome (frame * string) :=
  fun _ =>
    Returns ({| columns := [column]; records := [{[ column := v ]}] |},
             "processed").

Definition engine_rejecting : list (Q * Q) -> outcome (frame * string) :=
  fun _ =>
    Raises (Exception "ValueError"
              "Columns 'Q' and/or 'C' and/or 'date' not found in dataframe").

(** *** compute_change_percentiles (lines 451-520) *)

(** A row of [data]: its site, its date, and the two columns that [ccol]
    and [qcol] name.  A missing measurement is NaN. *)
Record observation : Type := {
  site_id : string;
  date : Z;
  conc : num;
  flow : num
}.

(** [sort_values('date')].  Rows with the same date keep their order here;
    pandas does not promise that for its default sort, and nothing below
    depends on it. *)
Fixpoint insert_by_date (r : observation) (l : list observation)
  : list observation :=
  match l with
  | [] => [r]
  | r' :: t =>
      if (r.(date) <=? r'.(date))%Z then r :: l
      else r' :: insert_by_date r t
  end.

Fixpoint sort_values (l : list observation) : list observation :=
  match l with
  | [] => []
  | r :: t => insert_by_date r (sort_values t)
  end.

(** [Series.diff()]: NaN in the first row, then each value minus the one
    before it. *)
Fixpoint diff_from (prev : num) (col : list num) : list num :=
  match col with
  | [] => []
  | v :: t => sub v prev :: diff_from v t
  end.

Definition diff (col : list num) : list num :=
  match col with
  | [] => []
  | v :: t => NaN :: diff_from v t
  end.

Fixpoint dropna (col : list num) : list Q :=
  match col with
  | [] => []
  | Some v :: t => v :: dropna t
  | None :: t => dropna t
  end.

(** One entry of the list [changes]. *)
Record change : Type := {
  conc_diff : Q;
  flow_diff : Q
}.

(** The body of the loop at lines 483-491 for one site. *)
Definition site_changes (data : list observation) (site : string)
  : list change :=
  let site_data :=
    sort_values (List.filter (fun r => String.eqb r.(site_id) site) data) in
  if (1 <? length site_data)%nat then
    let conc_diffs := dropna (diff (map conc site_data)) in
    let flow_diffs := dropna (diff (map flow site_data)) in
    map (fun '(cd, fd) => {| conc_diff := cd; flow_diff := fd |})
        (combine conc_diffs flow_diffs)
  else [].

Definition changes (data : list observation) (sites : list string)
  : list change :=
  flat_map (site_changes data) sites.

(** Sorting of the values, as [quantile] does before it interpolates. *)
Fixpoint insort (v : Q) (l : list Q) : list Q :=
  match l with
  | [] => [v]
  | w :: t => if Qle_bool v w then v :: l else w :: insort v t
  end.

Fixpoint np_sort (l : list Q) : list Q :=
  match l with
  | [] => []
  | v :: t => insort v (np_sort t)
  end.

(** The value at a fractional [position] of the sorted values: the entry
    below it plus the fraction [gamma] of the step to the next entry (the
    last entry is its own successor).  From [gamma = 0.5] on numpy forms
    the same value from the upper entry, as the upper entry less
    [1 - gamma] of the step; in binary64 the two forms can differ in the
    last place. *)
Definition linear_interpolation (sorted : list Q) (position : Q) : Q :=
  let previous := Z.to_nat (Qfloor position) in
  let next := Nat.min (previous + 1) (length sorted - 1) in
  let gamma := position - inject_Z (Qfloor position) in
  nth previous sorted 0 + gamma * (nth next sorted 0 - nth previous sorted 0).

(** [Series.quantile(q)] with the default linear interpolation, for
    [0 <= q <= 1]: the value at the position [(n - 1) * q] of the sorted
    values.  NaN for an empty series. *)
Definition quantile (values : list Q) (q : Q) : num :=
  match values with
  | [] => NaN
  | _ :: _ =>
      let sorted := np_sort values in
      Some (linear_interpolation sorted (Qnat (length sorted - 1) * q))
  end.

(** [Series.abs()]. *)
Definition abs (values : list Q) : list Q := map Qabs values.

(** The mapping returned at line 520, or the key of the [KeyError] that
    line 496 raises when [changes] is empty (the data frame then has no
    column). *)
Definition compute_change_percentiles
  (data : list observation) (sites : list string)
  : string + gmap string num :=
  let changes_df := changes data sites in
  match changes_df with
  | [] => inl "conc_diff"
  | _ :: _ =>
      let conc_diff := map conc_diff changes_df in
      let flow_diff := map flow_diff changes_df in
      inr (list_to_map [
        ("dC_p01", quantile conc_diff (1 # 100));
        ("dC_p05", quantile conc_diff (5 # 100));
        ("dC_p08", quantile conc_diff (8 # 100));
        ("dC_p10", quantile conc_diff (10 # 100));
        ("dC_p25", quantile conc_diff (25 # 100));
        ("dC_p50", quantile conc_diff (50 # 100));
        ("dC_p75", quantile conc_diff (75 # 100));
        ("dC_p90", quantile conc_diff (90 # 100));
        ("dC_p95", quantile conc_diff (95 # 100));
        ("dQ_p05", quantile flow_diff (5 # 100));
        ("dQ_p10", quantile flow_diff (10 # 100));
        ("dQ_p25", quantile flow_diff (25 # 100));
        ("dQ_p50", quantile flow_diff (50 # 100));
        ("dQ_p75", quantile flow_diff (75 # 100));
        ("dQ_p90", quantile flow_diff (90 # 100));
        ("abs_dC_p50", quantile (abs conc_diff) (50 # 100));
        ("abs_dC_p75", quantile (abs conc_diff) (75 # 100));
        ("abs_dQ_p50", quantile (abs flow_diff) (50 # 100));
        ("abs_dQ_p75", quantile (abs flow_diff) (75 # 100))
      ])
  end.

(** The column conc_diff of [changes]: the concentration differences that
    the function pools. *)
Definition pooled_conc_diff (data : list observation) (sites : list string)
  : list Q :=
  map conc_diff (changes data sites).


(** *** The differences as the specification names them *)







(** Daily samples of two sites, and a third site with a single sample. *)
Definition two_sites : list observation := [
  {| site_id := "A"; date := 3; conc := Some 4; flow := Some 9 |};
  {| site_id := "B"; date := 1; conc := Some 10; flow := Some 1 |};
  {| site_id := "A"; date := 1; conc := Some 1; flow := Some 2 |};
  {| site_id := "A"; date := 2; conc := Some 3; flow := Some 5 |};
  {| site_id := "B"; date := 2; conc := Some 7; flow := Some 2 |};
  {| site_id := "A"; date := 4; conc := Some 2; flow := Some 4 |};
  {| site_id := "C"; date := 1; conc := Some 5; flow := Some 5 |}
].

End Core.

(* ===================================================================== *)
(** ** gcs_classification.py: what the returns of the cascade carry *)
(* ===================================================================== *)

Module Grades.

Import Classification.
#[local] Open Scope string_scope.
#[local] Open Scope list_scope.
#[local] Open Scope bool_scope.
#[local] Open Scope float_scope.

(** The confidences that the source attaches to each phase letter: the
    literals of its [return] statements, and for F and L the interval that
    the boost [min(0.98, confidence + 0.03)] keeps them in. *)
Definition confidence_range (phase : string) (c : float) : bool :=
  if (phase =? "F")%string then (0.70 <=? c) && (c <=? 0.98)
  else if (phase =? "L")%string then (0.80 <=? c) && (c <=? 0.98)
  else if (phase =? "C")%string then (c =? 0.85) || (c =? 0.90)
  else if (phase =? "D")%string then (c =? 0.75) || (c =? 0.80) || (c =? 0.85)
  else if (phase =? "R")%string then (c =? 0.70) || (c =? 0.75) || (c =? 0.85)
  else if (phase =? "V")%string then (c =? 0.40) || (c =? 0.60)
  else false.

(** A rule trail that does not name the fallback. *)
Definition free_of_fallback (rules : list string) : bool :=
  forallb (fun r => negb (r =? "fallback_variable")%string) rules.

(** What a block of the cascade hands on: a return of one of the five
    named phases with a confidence of its range, or a fall-through; the
    trail names no fallback in either case. *)
Definition graded (s : step) : Prop :=
  match s with
  | KeyError _ => True
  | Return phase confidence rules =>
      confidence_range phase confidence = true
      /\ (phase =? "V")%string = false
      /\ free_of_fallback rules = true
  | Continue rules => free_of_fallback rules = true
  end.

End Grades.

(* ===================================================================== *)
(** ** Ranges of the scaled frames *)
(* ===================================================================== *)

Module Ranges.

Import Num Frames.
#[local] Open Scope Q_scope.

(** A scaled value: between 0 and 1. *)
Definition scaled (v : Q) : Prop := 0 <= v /\ v <= 1.

(** A cell of a limb frame: NaN or a scaled value. *)
Definition scaled_or_nan (a : num) : Prop :=
  match a with
  | Some v => scaled v
  | None => True
  end.

(** A limb frame whose labels satisfy [P] and whose cells are NaN or
    scaled values. *)
Definition limb_frame (P : Q -> Prop) (limbs : list limb_row) : Prop :=
  Forall (fun r => P r.(x) /\ scaled_or_nan r.(rise) /\ scaled_or_nan r.(fall))
         limbs.

(** Labels in increasing order, as a sorted index has them. *)
Definition increasing (labels : list Q) : Prop := StronglySorted Qlt labels.

(** A cell that is not negative: NaN or a number from 0 on. *)
Definition not_negative (a : num) : Prop :=
  match a with
  | Some v => 0 <= v
  | None => True
  end.

End Ranges.

(* ===================================================================== *)
(** ** zuecco.py: the hysteresis class *)
(* ===================================================================== *)

Module ZueccoClass.

Import Num Frames Zuecco.
#[local] Open Scope Q_scope.

(** [a <= b], false as soon as an argument is NaN. *)
Definition leb (a b : num) : bool :=
  match a, b with
  | Some u, Some v => Qle_bool u v
  | _, _ => false
  end.

(** [Series.min()] and [Series.max()]: NaN entries are skipped, and the
    result is NaN when nothing is left. *)
Fixpoint min_skipna (l : list num) : num :=
  match l with
  | [] => NaN
  | None :: rest => min_skipna rest
  | Some v :: rest =>
      match min_skipna rest with
      | Some m => Some (Qmin v m)
      | None => Some v
      end
  end.

Fixpoint max_skipna (l : list num) : num :=
  match l with
  | [] => NaN
  | None :: rest => max_skipna rest
  | Some v :: rest =>
      match max_skipna rest with
      | Some m => Some (Qmax v m)
      | None => Some v
      end
  end.

(** [_determine_class], lines 212-248. *)
Definition _determine_class (min_diff_area max_diff_area : num)
    (h_index change_max_y change_min_y : Q) : Z :=
  let zero : num := Some 0 in
  if Qltb change_min_y change_max_y then
    if ltb zero min_diff_area && ltb zero max_diff_area then 1
    else if ltb min_diff_area zero && ltb max_diff_area zero then 4
    else if leb min_diff_area zero && ltb zero max_diff_area
            && Qle_bool 0 h_index then 2
    else if ltb min_diff_area zero && leb zero max_diff_area
            && Qltb h_index 0 then 3
    else 0
  else
    if ltb zero min_diff_area && ltb zero max_diff_area then 5
    else if ltb min_diff_area zero && ltb max_diff_area zero then 8
    else if leb min_diff_area zero && ltb zero max_diff_area
            && Qle_bool 0 h_index then 6
    else if ltb min_diff_area zero && leb zero max_diff_area
            && Qltb h_index 0 then 7
    else 0.

(** The smallest and the largest value of a slice that is not empty. *)
Definition slice_min (l : list Q) : Q :=
  match l with
  | v :: rest => col_min v rest
  | [] => 0
  end.

Definition slice_max (l : list Q) : Q :=
  match l with
  | v :: rest => col_max v rest
  | [] => 0
  end.

(** [_find_hysteresis_class], lines 161-209, on the two columns [x] and
    [y] of a frame; [None] stands for the [ValueError] that [idxmax]
    raises on an empty column. *)
Definition _find_hysteresis_class (x y : list Q)
    (min_diff_area max_diff_area : num) (h_index : Q) : option Z :=
  match x, y with
  | _ :: _, y0 :: _ =>
      let pos_max_x := argmax x in
      (* rising limb *)
      let min_y_rise := slice_min (firstn (pos_max_x + 1) y) in
      let max_y_rise := slice_max (firstn (pos_max_x + 1) y) in
      let change_max_y_rise := Qabs (max_y_rise - y0) in
      let change_min_y_rise := Qabs (min_y_rise - y0) in
      if negb (Qeq_bool change_max_y_rise change_min_y_rise) then
        Some (_determine_class min_diff_area max_diff_area h_index
                change_max_y_rise change_min_y_rise)
      else
        (* falling limb *)
        let min_y_fall := slice_min (skipn pos_max_x y) in
        let max_y_fall := slice_max (skipn pos_max_x y) in
        let change_max_y_fall := Qabs (max_y_fall - y0) in
        let change_min_y_fall := Qabs (min_y_fall - y0) in
        if negb (Qeq_bool change_min_y_fall change_max_y_fall) then
          Some (_determine_class min_diff_area max_diff_area h_index
                  change_max_y_fall change_min_y_fall)
        else Some 0%Z
  | _, _ => None
  end.

(** The row of [metric_df], lines 146-151. *)
Record zuecco_metrics : Type := {
  h_index_ : Q;
  hyst_class : Z;
  min_diff_area_ : num;
  max_diff_area_ : num
}.

(** [calculate_zuecco_metrics], lines 83-151, on an hourly series of
    (Q, C); [None] on an empty series, where the source raises. *)
Definition calculate_zuecco_metrics (hourly : list (Q * Q))
    : option zuecco_metrics :=
  let limbs := make_limbs (prepare hourly) in
  let limbs_fixed := sample_limbs limbs in
  let diff_area := diff_areas limbs_fixed in
  let h_index := h_index_of diff_area in
  let min_diff_area :=
    if (0 <? length diff_area)%nat then min_skipna diff_area else NaN in
  let max_diff_area :=
    if (0 <? length diff_area)%nat then max_skipna diff_area else NaN in
  match _find_hysteresis_class (map fst hourly) (map snd hourly)
          min_diff_area max_diff_area h_index with
  | Some class =>
      Some {| h_index_ := h_index;
              hyst_class := class;
              min_diff_area_ := min_diff_area;
              max_diff_area_ := max_diff_area |}
  | None => None
  end.

End ZueccoClass.

(* ===================================================================== *)
(** ** gcs_core.py: compute_cq_slope *)
(* ===================================================================== *)

Module Slope.

Import Num.
#[local] Open Scope string_scope.
#[local] Open Scope Q_scope.

(** [abs(a)], NaN for NaN. *)
Definition abs (a : num) : num := option_map Qabs a.

(** [a <= b], false as soon as an argument is NaN. *)
Definition leb (a b : num) : bool :=
  match a, b with
  | Some u, Some v => Qle_bool u v
  | _, _ => false
  end.

(** The guard [1e-12] of lines 242 and 253. *)
Definition tiny : num := Some (1 # 10 ^ 12).

Section compute_cq_slope.

(** [np.log10] on the positive numbers.  The logarithm of a rational is
    not a rational in general; what follows holds for any function in
    its place. *)
Variable log10 : Q -> Q.

(** [compute_cq_slope], lines 219-256; every [kind] other than 'linear'
    takes the default log-log branch. *)
Definition compute_cq_slope (q1 q2 c1 c2 : num) (kind : string) : num :=
  if (kind =? "linear")%string then
    let dq := sub q2 q1 in
    if ltb (abs dq) tiny then NaN
    else div (sub c2 c1) dq
  else
    let zero : num := Some 0 in
    if leb q1 zero || leb q2 zero || leb c1 zero || leb c2 zero then NaN
    else
      let dlog10q := sub (option_map log10 q2) (option_map log10 q1) in
      if ltb (abs dlog10q) tiny then NaN
      else
        let dlog10c := sub (option_map log10 c2) (option_map log10 c1) in
        div dlog10c dlog10q.

End compute_cq_slope.

End Slope.

(* ===================================================================== *)
(** ** gcs_core.py: analyze_segment_flow_dynamics *)
(* ===================================================================== *)

Module FlowDynamics.

Import Num Frames Core.
#[local] Open Scope string_scope.
#[local] Open Scope list_scope.
#[local] Open Scope Q_scope.

(** A row of [segment_data]: its index, a time in days, and the two
    columns that [qcol] and [ccol] name.  Times are exact rationals here;
    the source divides each difference of times in seconds by 86400 in
    binary64, so that its durations are rounded one by one. *)
Record reading : Type := {
  time : Q;
  q : num;
  c : num
}.

(** [segment_data.dropna()]: the rows with a number in both columns. *)
Fixpoint dropna (rows : list reading) : list (Q * Q * Q) :=
  match rows with
  | [] => []
  | r :: rest =>
      match r.(q), r.(c) with
      | Some qv, Some cv => (r.(time), qv, cv) :: dropna rest
      | _, _ => dropna rest
      end
  end.

(** [percentiles[key]]: the value, or [KeyError]. *)
Definition item {A : Type} (percentiles : gmap string num) (key : string)
    (k : num -> outcome A) : outcome A :=
  match percentiles !! key with
  | Some v => k v
  | None => Raises (Exception "KeyError" key)
  end.

(** [max(1, d)] of Python. *)
Definition at_least_one (d : Q) : Q := if Qltb 1 d then d else 1.

Fixpoint total (l : list Q) : Q :=
  match l with
  | [] => 0
  | v :: rest => v + total rest
  end.

(** [np.polyfit(x, y, 1)[0]]: the slope of the least-squares line, from
    the normal equations. *)
Definition polyfit_slope (x y : list Q) : Q :=
  let n := Qnat (length x) in
  let sx := total x in
  let sy := total y in
  let sxy := total (map (fun '(a, b) => a * b) (combine x y)) in
  let sxx := total (map (fun a => a * a) x) in
  (n * sxy - sx * sy) / (n * sxx - sx * sx).

(** [np.arange(n)]. *)
Definition arange (n : nat) : list Q := map Qnat (seq 0 n).

(** The four entries that the window hysteresis adds, lines 422-427. *)
Record window_metrics : Type := {
  window_HI_harp : num;
  window_HI_zuecco : num;
  window_HI_lloyd : num;
  window_direction : label
}.

(** The returned dictionary; [window] is [None] when the four window
    entries are absent. *)
Record dynamics : Type := {
  peak_q : Q;
  peak_time : Q;
  days_since_peak : Q;
  days_to_peak : Q;
  flow_phase : string;
  peak_position : string;
  q_trend : Q;
  q_acceleration : Q;
  q_level : string;
  q_range : Q;
  start_q : Q;
  end_q : Q;
  window : option window_metrics
}.

Section analyze_segment_flow_dynamics.

Variable processed : Type.

(** The three hysteresis engines behind [calculate_all_hysteresis_metrics]. *)
Variable calculate_harp_metrics :
  list (Q * Q * Q) -> outcome (frame * processed).
Variable calculate_zuecco_metrics :
  list (Q * Q * Q) -> outcome (frame * processed).
Variable calculate_lawlerlloyd_metrics :
  list (Q * Q * Q) -> outcome (frame * processed).

(** Lines 324-333: the position of the peak in the segment. *)
Definition position_of_peak (segment_duration days_to_peak : Q) : string :=
  if Qltb 0 segment_duration then
    let peak_position_frac := days_to_peak / segment_duration in
    if Qltb peak_position_frac (33 # 100) then "early"
    else if Qltb (67 # 100) peak_position_frac then "late"
    else "middle"
  else "middle".

(** Lines 340-345: the level of the last discharge. *)
Definition level_of (percentiles : gmap string num) (end_q : Q)
    (k : string -> outcome (option dynamics)) : outcome (option dynamics) :=
  item percentiles "Q_p75" (fun Q_p75 =>
  if ltb Q_p75 (Some end_q) then k "high"
  else
    item percentiles "Q_p25" (fun Q_p25 =>
    if ltb (Some end_q) Q_p25 then k "low" else k "medium")).

(** Lines 348-371: the flow phase. *)
Definition phase_of (percentiles : gmap string num)
    (segment_duration days_to_peak days_since_peak start_q end_q : Q)
    (peak_position q_level : string)
    (k : string -> outcome (option dynamics)) : outcome (option dynamics) :=
  if Qltb days_since_peak 1 then k "at_peak"
  else if Qltb days_since_peak (segment_duration * (3 # 10)) then
    item percentiles "Q_p50" (fun Q_p50 =>
    if ltb Q_p50 (Some end_q) then k "early_decline" else k "late_decline")
  else if Qltb days_to_peak (segment_duration * (3 # 10)) then k "post_peak"
  else if (peak_position =? "late") && Qltb start_q end_q then k "rising"
  else if (q_level =? "low") then k "low"
  else if Qltb (start_q * (11 # 10)) end_q then k "rising"
  else if Qltb end_q (start_q * (9 # 10)) then
    if (q_level =? "high") then k "early_decline" else k "late_decline"
  else k "stable".

(** Lines 374-386: the trend per day and its change. *)
Definition trend_of (q_values : list Q) (segment_duration start_q end_q : Q)
    : Q * Q :=
  if (2 <? length q_values)%nat then
    let x := arange (length q_values) in
    let q_trend := polyfit_slope x q_values in
    let mid := (length q_values / 2)%nat in
    let trend1 :=
      if (1 <? mid)%nat
      then polyfit_slope (firstn mid x) (firstn mid q_values) else 0 in
    let trend2 :=
      if (1 <? length x - mid)%nat
      then polyfit_slope (skipn mid x) (skipn mid q_values) else 0 in
    (q_trend * 24, (trend2 - trend1) * 24)
  else
    ((end_q - start_q) / at_least_one segment_duration, 0).

(** Lines 406-433: the window hysteresis; an exception inside is passed
    over and leaves the entries out. *)
Definition window_of (has_ccol : bool) (segment_data : list (Q * Q * Q))
    : option window_metrics :=
  if has_ccol then
    if (5 <=? length segment_data)%nat then
      match calculate_all_hysteresis_metrics calculate_harp_metrics
              calculate_zuecco_metrics calculate_lawlerlloyd_metrics
              segment_data with
      | Returns window_hyst =>
          Some {| window_HI_harp :=
                    default NaN (window_hyst.(harp_metrics) !! "area");
                  window_HI_zuecco :=
                    default NaN (window_hyst.(zuecco_metrics) !! "h_index");
                  window_HI_lloyd :=
                    default NaN (window_hyst.(lloyd_metrics) !! "mean_HInew");
                  window_direction :=
                    default (Text "unknown")
                      (window_hyst.(classifications) !! "lloyd_direction") |}
      | Raises _ => None
      end
    else None
  else None.

(** [analyze_segment_flow_dynamics], lines 262-443.  [has_ccol] says
    whether a concentration column is named once line 306 is passed.
    The result is [None] where the source returns [None], and a
    [KeyError] where a percentile is missing. *)
Definition analyze_segment_flow_dynamics (segment_data : list reading)
    (percentiles : gmap string num) (has_ccol : bool)
    : outcome (option dynamics) :=
  if (length segment_data =? 0)%nat
     || forallb (fun r => isnan r.(q)) segment_data
  then Returns None
  else
    let segment_data := dropna segment_data in
    if (length segment_data <? 2)%nat then Returns None
    else
      let q_values := map (fun r => snd (fst r)) segment_data in
      let times := map (fun r => fst (fst r)) segment_data in
      let peak_idx := argmax q_values in
      let peak_q := nth peak_idx q_values 0 in
      let peak_time := nth peak_idx times 0 in
      let segment_duration := List.last times 0 - hd 0 times in
      let days_to_peak := peak_time - hd 0 times in
      let days_since_peak := List.last times 0 - peak_time in
      let peak_position := position_of_peak segment_duration days_to_peak in
      let end_q := List.last q_values 0 in
      let start_q := hd 0 q_values in
      level_of percentiles end_q (fun q_level =>
      phase_of percentiles segment_duration days_to_peak days_since_peak
               start_q end_q peak_position q_level (fun flow_phase =>
      let '(q_trend_daily, q_acceleration) :=
        trend_of q_values segment_duration start_q end_q in
      Returns (Some
        {| peak_q := peak_q;
           peak_time := peak_time;
           days_since_peak := days_since_peak;
           days_to_peak := days_to_peak;
           flow_phase := flow_phase;
           peak_position := peak_position;
           q_trend := q_trend_daily;
           q_acceleration := q_acceleration;
           q_level := q_level;
           q_range := match q_values with
                      | v :: rest => col_max v rest - col_min v rest
                      | [] => 0
                      end;
           start_q := start_q;
           end_q := end_q;
           window := window_of has_ccol segment_data |}))).

End analyze_segment_flow_dynamics.

Arguments analyze_segment_flow_dynamics {processed} _ _ _ segment_data
  percentiles has_ccol.
Arguments window_of {processed} _ _ _ has_ccol segment_data.

(** Hourly readings of a flood wave over two days, and thresholds. *)
Definition flood_wave : list reading :=
  map (fun '(t, qv, cv) =>
         {| time := t / 24; q := Some qv; c := Some cv |})
      [(0, 2, 5); (6, 4, 7); (12, 9, 6); (18, 7, 4); (24, 5, 3);
       (30, 4, 3); (36, 3, 4); (48, 3, 5)].

Definition flow_thresholds : gmap string num :=
  list_to_map [("Q_p25", Some 2); ("Q_p50", Some 4); ("Q_p75", Some 6)].

(** Engines on a window, for the examples: one that returns a single row
    with a single metric, and one that fails. *)
Definition window_engine (column : string) (v : num)
  : list (Q * Q * Q) -> outcome (frame * string) :=
  fun _ =>
    Returns ({| columns := [column]; records := [{[ column := v ]}] |},
             "processed").

Definition failing_engine : list (Q * Q * Q) -> outcome (frame * string) :=
  fun _ => Raises (Exception "ValueError" "no peak found").

End FlowDynamics.

(* ===================================================================== *)
(** ** gcs_classification.py: the context columns of a segment *)
(* ===================================================================== *)

Module Context.

#[local] Open Scope string_scope.
#[local] Open Scope list_scope.
#[local] Open Scope bool_scope.
#[local] Open Scope float_scope.

(** [percentiles[key]] inside a block that ends in a label: the value, or
    the key of the [KeyError] on the left. *)
Definition lookup (percentiles : gmap string float) (key : string)
    (k : float -> string + string) : string + string :=
  match percentiles !! key with
  | Some v => k v
  | None => inl key
  end.

(** [classify_geochemical_phase], lines 535-554: the column C_trajectory,
    from the concentration change of the segment, its C_position and the
    C_position of the segment before it. *)
Definition C_trajectory_label (percentiles : gmap string float)
    (conc_diff : float) (c_pos prev_c_pos : string) : string + string :=
  lookup percentiles "dC_p08" (fun dC_p08 =>
  if conc_diff <? dC_p08 then
    if (prev_c_pos =? "high")%string then inr "steep_decline_from_high"
    else inr "steep_decline"
  else
  lookup percentiles "dC_p25" (fun dC_p25 =>
  if conc_diff <? dC_p25 then inr "gradual_decline"
  else
  lookup percentiles "dC_p90" (fun dC_p90 =>
  if dC_p90 <? conc_diff then
    if (c_pos =? "high")%string then inr "rising_to_max"
    else inr "large_increase"
  else
  lookup percentiles "dC_p75" (fun dC_p75 =>
  if dC_p75 <? conc_diff then inr "moderate_increase"
  else if (c_pos =? "high")%string then
    lookup percentiles "abs_dC_p50" (fun abs_dC_p50 =>
    if abs conc_diff <? abs_dC_p50 then inr "at_maximum" else inr "stable")
  else inr "stable")))).

(** The labels of the column C_trajectory. *)
Definition trajectories : list string :=
  ["steep_decline_from_high"; "steep_decline"; "gradual_decline";
   "rising_to_max"; "large_increase"; "moderate_increase"; "at_maximum";
   "stable"].

(** The keys of the threshold mapping that the trajectory reads. *)
Definition trajectory_keys : list string :=
  ["dC_p08"; "dC_p25"; "dC_p90"; "dC_p75"; "abs_dC_p50"].

Definition has_trajectory_keys (percentiles : gmap string float) : bool :=
  forallb
    (fun key => match percentiles !! key with Some _ => true | None => false end)
    trajectory_keys.

(** A block outcome that is no return of the phase C. *)
Definition other_than_C (s : Classification.step) : Prop :=
  match s with
  | Classification.Return phase _ _ => In phase ["F"; "L"; "D"; "R"]
  | _ => True
  end.

(** Thresholds for the examples, with the keys of the trajectory. *)
Definition trajectory_thresholds : gmap string float :=
  <["dC_p75" := 2]> (<["abs_dC_p50" := 1]> Classification.example_thresholds).

(** The first segment of a site: a quiet row that only its HI_transition
    keeps from the chemostatic block. *)
Definition first_segment_row : Classification.Row :=
  {| Classification.window_HI_zuecco := Some 0.05;
     Classification.window_HI_lloyd := Some Classification.nan;
     Classification.window_HI_harp := Some Classification.nan;
     Classification.Q_position := Some "medium";
     Classification.C_position := Some "medium";
     Classification.flow_diff := Some 1;
     Classification.conc_diff := Some 0.5;
     Classification.CVc_CVq := Some 1.5;
     Classification.cq_slope_loglog := Some 0.05;
     Classification.highres_flow_phase := Some "stable";
     Classification.highres_days_since_peak := Some 40;
     Classification.highres_q_level := Some "medium";
     Classification.HI_transition := Some "first";
     Classification.prev_C_position := Some "none";
     Classification.prev_conc_diff := Some 0;
     Classification.prev2_conc_diff := Some 0;
     Classification.C_trajectory := Some "stable";
     Classification.WAI := Some 0.2 |}.

End Context.

(* ===================================================================== *)
(** * Properties *)
(* ===================================================================== *)

(** ** Comparisons of binary64 floats *)

Module FloatFacts.

#[local] Open Scope float_scope.

(** Swapping the arguments of the specification's comparison flips it. *)
Lemma SFcompare_swap (x y : spec_float) :
  SFcompare y x = option_map CompOpp (SFcompare x y).
Proof.
  destruct x as [sx|sx| |sx mx ex], y as [sy|sy| |sy my ey]; cbn;
    try reflexivity;
    try (destruct sx; reflexivity);
    try (destruct sy; reflexivity);
    try (destruct sx, sy; reflexivity).
  destruct sx, sy; try reflexivity;
    rewrite (Z.compare_antisym ex ey);
    destruct (ex ?= ey)%Z; cbn; try reflexivity;
    rewrite (Pos.compare_cont_antisym mx my Eq); reflexivity.
Qed.

(** [x < y] excludes [y < x]. *)
Lemma ltb_asym (x y : float) : (x <? y) = true -> (y <? x) = false.
Proof.
  rewrite !ltb_spec. unfold SFltb.
  rewrite (SFcompare_swap (Prim2SF x) (Prim2SF y)).
  destruct (SFcompare (Prim2SF x) (Prim2SF y)) as [[]|]; cbn; congruence.
Qed.

(** [x <= y] excludes [y < x]. *)
Lemma leb_not_gt (x y : float) : (x <=? y) = true -> (y <? x) = false.
Proof.
  rewrite leb_spec, ltb_spec. unfold SFleb, SFltb.
  rewrite (SFcompare_swap (Prim2SF x) (Prim2SF y)).
  destruct (SFcompare (Prim2SF x) (Prim2SF y)) as [[]|]; cbn; congruence.
Qed.

End FloatFacts.

(** ** gcs_classification.py: the phase cascade *)

Module ClassificationFacts.

Import Classification.
#[local] Open Scope string_scope.
#[local] Open Scope list_scope.

Lemma app_cons_not_nil {A : Type} (l : list A) (x : A) (m : list A) :
  l ++ x :: m <> [].
Proof. destruct l; discriminate. Qed.

(** Case analysis on every threshold lookup and every test of a block. *)
Ltac split_ifs :=
  repeat match goal with
  | |- context [match ?m !! ?k with _ => _ end] => destruct (m !! k) eqn:?
  | |- context [if ?b then _ else _] => destruct b
  end.

(** Once a block is split, each leaf is a fall-through, a [KeyError] on a
    key that was looked up and found missing, or a return whose phase and
    confidence are literals and whose trail ends in an appended rule. *)
Ltac close_sound :=
  cbn [sound and_then];
  first
    [ exact I
    | split; [ cbv; tauto | assumption ]
    | split; [ cbv; tauto
             | split; [ split; vm_compute; reflexivity
                      | rewrite <- ?app_assoc; apply app_cons_not_nil ] ] ].

Lemma flushing_sound row percentiles rules :
  sound percentiles (flushing row percentiles rules).
Proof. unfold flushing, item, and_then. split_ifs; close_sound. Qed.

Lemma loading_sound row percentiles rules :
  sound percentiles (loading row percentiles rules).
Proof. unfold loading, item. split_ifs; close_sound. Qed.

Lemma chemostatic_sound row percentiles rules :
  sound percentiles (chemostatic row percentiles rules).
Proof. unfold chemostatic, item. split_ifs; close_sound. Qed.

Lemma dilution_sound row percentiles rules :
  sound percentiles (dilution row percentiles rules).
Proof. unfold dilution, item. split_ifs; close_sound. Qed.

Lemma recession_sound row percentiles rules :
  sound percentiles (recession row percentiles rules).
Proof. unfold recession, item, and_then. split_ifs; close_sound. Qed.

Lemma and_then_sound percentiles s next :
  sound percentiles s ->
  (forall rules, sound percentiles (next rules)) ->
  sound percentiles (and_then s next).
Proof. destruct s; cbn; auto. Qed.

Lemma cascade_sound row percentiles : sound percentiles (cascade row percentiles).
Proof.
  unfold cascade.
  repeat apply and_then_sound; intros;
    auto using flushing_sound, loading_sound, chemostatic_sound,
               dilution_sound, recession_sound.
Qed.

Lemma fallback_sound row rules :
  exists confidence,
    fallback row rules = ("V", confidence, rules ++ ["fallback_variable"])
    /\ unit_interval confidence.
Proof.
  unfold fallback.
  destruct (_ && _); eexists; (split; [reflexivity | split; vm_compute; reflexivity]).
Qed.

Lemma has_thresholds_lookup percentiles key :
  has_thresholds percentiles = true ->
  In key threshold_keys -> percentiles !! key <> None.
Proof.
  unfold has_thresholds. rewrite forallb_forall. intros Hall Hin Hnone.
  specialize (Hall key Hin). rewrite Hnone in Hall. discriminate.
Qed.

(** With every threshold present the call returns, and the triple is in
    range with a trail that is not empty. *)
Lemma classify_segment_phase_returns row percentiles :
  has_thresholds percentiles = true ->
  exists phase confidence rules,
    classify_segment_phase row percentiles = inr (phase, confidence, rules)
    /\ In phase phases /\ unit_interval confidence /\ rules <> [].
Proof.
  intros Hkeys. unfold classify_segment_phase.
  pose proof (cascade_sound row percentiles) as Hs.
  destruct (cascade row percentiles) as [key|phase confidence rules|rules];
    cbn in Hs.
  - destruct Hs as [Hin Hnone].
    now destruct (has_thresholds_lookup percentiles key Hkeys Hin).
  - exists phase, confidence, rules. split; [reflexivity | exact Hs].
  - destruct (fallback_sound row rules) as (confidence & -> & Hc).
    exists "V", confidence, (rules ++ ["fallback_variable"]).
    split; [reflexivity|]. split; [cbv; tauto|].
    split; [exact Hc | apply app_cons_not_nil].
Qed.

(** A [KeyError] names a threshold key that the mapping lacks. *)
Lemma classify_segment_phase_key_error row percentiles key :
  classify_segment_phase row percentiles = inl key ->
  In key threshold_keys /\ percentiles !! key = None.
Proof.
  unfold classify_segment_phase.
  pose proof (cascade_sound row percentiles) as Hs.
  destruct (cascade row percentiles) as [k| | ]; cbn in Hs; intros E;
    try discriminate.
  injection E as <-. exact Hs.
Qed.

(** The flushing branch with every boost. *)
Example classify_flushing_row :
  classify_segment_phase flushing_row example_thresholds
  = inr ("F", 0.98%float,
         ["current_steep_decline"; "q_high_or_peak";
          "positive_cq_slope_dilution"; "c_was_high"; "high_wai_wet"]).
Proof. vm_compute. reflexivity. Qed.

(** A row with no column at all is chemostatic by the defaults. *)
Example classify_empty_row :
  classify_segment_phase empty_row example_thresholds
  = inr ("C", 0.90%float,
         ["low_hi"; "stable_hi"; "flat_cq_slope_chemostatic"; "not_dynamic"]).
Proof. vm_compute. reflexivity. Qed.

(** Without thresholds the first lookup raises. *)
Example classify_no_thresholds :
  classify_segment_phase empty_row ∅ = inl "dC_p08".
Proof. vm_compute. reflexivity. Qed.

(** C1: for every row and every percentile-threshold mapping,
    [classify_segment_phase] returns a triple whose phase is one of
    F, L, C, D, R, V and whose confidence lies in [0, 1]. *)
Theorem classify_segment_phase_in_range row percentiles :
  has_thresholds percentiles = true ->
  exists phase confidence rules,
    classify_segment_phase row percentiles = inr (phase, confidence, rules)
    /\ In phase ["F"; "L"; "C"; "D"; "R"; "V"]
    /\ (0 <=? confidence)%float = true /\ (confidence <=? 1)%float = true.
Proof.
  intros Hkeys.
  destruct (classify_segment_phase_returns row percentiles Hkeys)
    as (phase & confidence & rules & E & Hphase & [Hlo Hhi] & _).
  exists phase, confidence, rules.
  repeat split; assumption.
Qed.

Lemma classify_segment_phase_in_range_witness :
  has_thresholds example_thresholds = true
  /\ exists phase confidence rules,
       classify_segment_phase flushing_row example_thresholds
       = inr (phase, confidence, rules)
       /\ In phase ["F"; "L"; "C"; "D"; "R"; "V"]
       /\ (0 <=? confidence)%float = true /\ (confidence <=? 1)%float = true.
Proof.
  split; [vm_compute; reflexivity|].
  apply (classify_segment_phase_in_range flushing_row example_thresholds).
  vm_compute; reflexivity.
Defined.

(** C9: every call that returns hands back a rule trail that is not
    empty; each returning branch, the fallback included, appends a rule
    name first. *)
Theorem classify_segment_phase_rules_nonempty row percentiles :
  has_thresholds percentiles = true ->
  exists phase confidence rules,
    classify_segment_phase row percentiles = inr (phase, confidence, rules)
    /\ rules <> [].
Proof.
  intros Hkeys.
  destruct (classify_segment_phase_returns row percentiles Hkeys)
    as (phase & confidence & rules & E & _ & _ & Hrules).
  exists phase, confidence, rules. split; assumption.
Qed.

Lemma classify_segment_phase_rules_nonempty_witness :
  has_thresholds example_thresholds = true
  /\ exists phase confidence rules,
       classify_segment_phase empty_row example_thresholds
       = inr (phase, confidence, rules)
       /\ rules <> [].
Proof.
  split; [vm_compute; reflexivity|].
  apply (classify_segment_phase_rules_nonempty empty_row example_thresholds).
  vm_compute; reflexivity.
Defined.

End ClassificationFacts.

(** ** gcs_classification.py: the coarse behaviour tag *)

Module BehaviorFacts.

Import Classification.
Import FloatFacts.
#[local] Open Scope string_scope.
#[local] Open Scope float_scope.

(** The significance test of the source: the span must exceed 1e-10 and
    the change must exceed [threshold_factor] times the span. *)
Lemma is_changing_true diff delta threshold_factor :
  is_changing diff delta threshold_factor = true
  <-> (1e-10 <? delta) = true /\ (threshold_factor * delta <? abs diff) = true.
Proof.
  unfold is_changing. destruct (1e-10 <? delta).
  - tauto.
  - split; [discriminate | intros [H _]; discriminate].
Qed.

(** The source and the table agree once significance is the guarded test. *)
Lemma classify_cq_behavior_simple_eq flow_diff conc_diff flow_range conc_range
    threshold_factor :
  classify_cq_behavior_simple flow_diff conc_diff flow_range conc_range
    threshold_factor
  = behavior_table
      (is_changing flow_diff (snd flow_range - fst flow_range) threshold_factor)
      (is_changing conc_diff (snd conc_range - fst conc_range) threshold_factor)
      flow_diff conc_diff.
Proof.
  unfold classify_cq_behavior_simple, behavior_table.
  destruct (is_changing flow_diff _ _), (is_changing conc_diff _ _); reflexivity.
Qed.

(** When both changes are significant the four sign patterns give the four
    tags. *)
Lemma behavior_table_signs flow_diff conc_diff :
  ((0 <? flow_diff) = true -> (0 <? conc_diff) = true ->
   behavior_table true true flow_diff conc_diff = "connectivity")
  /\ ((flow_diff <? 0) = true -> (conc_diff <? 0) = true ->
      behavior_table true true flow_diff conc_diff = "recovery")
  /\ ((0 <? flow_diff) = true -> (conc_diff <? 0) = true ->
      behavior_table true true flow_diff conc_diff = "dispersion")
  /\ ((flow_diff <? 0) = true -> (0 <? conc_diff) = true ->
      behavior_table true true flow_diff conc_diff = "accumulation").
Proof.
  unfold behavior_table. repeat split; intros Hq Hc.
  - now rewrite Hq, Hc.
  - now rewrite (ltb_asym _ _ Hq), Hq, Hc.
  - now rewrite Hq, (ltb_asym _ _ Hc), (ltb_asym _ _ Hq), Hc.
  - now rewrite (ltb_asym _ _ Hq), Hq, (ltb_asym _ _ Hc).
Qed.

(** C6, as stated, fails on a degenerate flow range: a change of 1 exceeds
    0.01 times the span 0, so the table as worded answers connectivity,
    while the source does not test a span of at most 1e-10 and answers
    source variation. *)
Lemma classify_cq_behavior_simple_degenerate_counterexample :
  exceeds 1 (5 - 5) 0.01 = true
  /\ exceeds 1 (10 - 0) 0.01 = true
  /\ behavior_as_specified 1 1 (5, 5) (0, 10) 0.01 = "connectivity"
  /\ classify_cq_behavior_simple 1 1 (5, 5) (0, 10) 0.01 = "source variation".
Proof. repeat split; vm_compute; reflexivity. Qed.

(** C6 (amended): a change is significant iff the span of its range
    exceeds 1e-10 and its magnitude exceeds [threshold_factor] times the
    span; with that test the source realises the table, and the two
    concrete cases hold. *)
Theorem classify_cq_behavior_simple_table flow_diff conc_diff flow_range
    conc_range threshold_factor :
  let flow_delta := snd flow_range - fst flow_range in
  let conc_delta := snd conc_range - fst conc_range in
  let flow_changing := is_changing flow_diff flow_delta threshold_factor in
  let conc_changing := is_changing conc_diff conc_delta threshold_factor in
  let behavior :=
    classify_cq_behavior_simple flow_diff conc_diff flow_range conc_range
      threshold_factor in
  (flow_changing = true
   <-> (1e-10 <? flow_delta) = true
       /\ (threshold_factor * flow_delta <? abs flow_diff) = true)
  /\ (conc_changing = true
      <-> (1e-10 <? conc_delta) = true
          /\ (threshold_factor * conc_delta <? abs conc_diff) = true)
  /\ (flow_changing = false -> conc_changing = false -> behavior = "static")
  /\ (flow_changing = true -> conc_changing = false ->
      behavior = "quasi-chemostatic")
  /\ (flow_changing = false -> conc_changing = true ->
      behavior = "source variation")
  /\ (flow_changing = true -> conc_changing = true ->
      (0 <? flow_diff) = true -> (0 <? conc_diff) = true ->
      behavior = "connectivity")
  /\ (flow_changing = true -> conc_changing = true ->
      (flow_diff <? 0) = true -> (conc_diff <? 0) = true ->
      behavior = "recovery")
  /\ (flow_changing = true -> conc_changing = true ->
      (0 <? flow_diff) = true -> (conc_diff <? 0) = true ->
      behavior = "dispersion")
  /\ (flow_changing = true -> conc_changing = true ->
      (flow_diff <? 0) = true -> (0 <? conc_diff) = true ->
      behavior = "accumulation")
  /\ classify_cq_behavior_simple 20 5 (0, 100) (0, 10) 0.01 = "connectivity"
  /\ classify_cq_behavior_simple 0.001 0.001 (0, 100) (0, 10) 0.01 = "static".
Proof.
  intros flow_delta conc_delta flow_changing conc_changing behavior.
  destruct (behavior_table_signs flow_diff conc_diff) as (Hpp & Hnn & Hpn & Hnp).
  assert (Hb : behavior = behavior_table flow_changing conc_changing
                            flow_diff conc_diff)
    by apply classify_cq_behavior_simple_eq.
  split; [apply is_changing_true|].
  split; [apply is_changing_true|].
  split; [intros Hq Hc; now rewrite Hb, Hq, Hc|].
  split; [intros Hq Hc; now rewrite Hb, Hq, Hc|].
  split; [intros Hq Hc; now rewrite Hb, Hq, Hc|].
  split; [intros Hq Hc; rewrite Hb, Hq, Hc; exact Hpp|].
  split; [intros Hq Hc; rewrite Hb, Hq, Hc; exact Hnn|].
  split; [intros Hq Hc; rewrite Hb, Hq, Hc; exact Hpn|].
  split; [intros Hq Hc; rewrite Hb, Hq, Hc; exact Hnp|].
  split; vm_compute; reflexivity.
Qed.

(** C10: a flow span of at most 1e-10 makes the flow change insignificant
    whatever its size, likewise for the concentration, and with both spans
    degenerate the tag is static. *)
Theorem classify_cq_behavior_simple_degenerate flow_diff conc_diff flow_range
    conc_range threshold_factor :
  let flow_delta := snd flow_range - fst flow_range in
  let conc_delta := snd conc_range - fst conc_range in
  let behavior :=
    classify_cq_behavior_simple flow_diff conc_diff flow_range conc_range
      threshold_factor in
  ((flow_delta <=? 1e-10) = true ->
   is_changing flow_diff flow_delta threshold_factor = false
   /\ (behavior = "static" \/ behavior = "source variation"))
  /\ ((conc_delta <=? 1e-10) = true ->
      is_changing conc_diff conc_delta threshold_factor = false
      /\ (behavior = "static" \/ behavior = "quasi-chemostatic"))
  /\ ((flow_delta <=? 1e-10) = true -> (conc_delta <=? 1e-10) = true ->
      behavior = "static")
  /\ classify_cq_behavior_simple 1e300 (-1e300) (5, 5) (7, 7) 0.01 = "static".
Proof.
  intros flow_delta conc_delta behavior.
  assert (Hb : behavior
               = behavior_table
                   (is_changing flow_diff flow_delta threshold_factor)
                   (is_changing conc_diff conc_delta threshold_factor)
                   flow_diff conc_diff)
    by apply classify_cq_behavior_simple_eq.
  assert (Hguard : forall diff delta,
             (delta <=? 1e-10) = true ->
             is_changing diff delta threshold_factor = false).
  { intros diff delta Hle. unfold is_changing.
    now rewrite (leb_not_gt _ _ Hle). }
  split; [|split; [|split]].
  - intros Hq. split; [now apply Hguard|].
    rewrite Hb, (Hguard _ _ Hq).
    destruct (is_changing conc_diff _ _); cbn; auto.
  - intros Hc. split; [now apply Hguard|].
    rewrite Hb, (Hguard _ _ Hc).
    destruct (is_changing flow_diff _ _); cbn; auto.
  - intros Hq Hc. now rewrite Hb, (Hguard _ _ Hq), (Hguard _ _ Hc).
  - vm_compute. reflexivity.
Qed.

End BehaviorFacts.

(** ** Rationals and NaN *)

Module NumFacts.

Import Num.
#[local] Open Scope Q_scope.


Lemma Qltb_lt x y : Qltb x y = true <-> x < y.
Proof. unfold Qltb. rewrite Qlt_alt. destruct (x ?= y); split; congruence. Qed.

Lemma Qltb_ge x y : Qltb x y = false <-> y <= x.
Proof.
  unfold Qltb. rewrite Qle_alt, <- (Qcompare_antisym x y).
  destruct (x ?= y); cbn; split; congruence.
Qed.


End NumFacts.

(** ** harp.py: the hysteresis area *)

Module HarpFacts.

Import Num Frames Harp NumFacts.
#[local] Open Scope Q_scope.










(** The crossing event: the limbs first change sign at QS = 1/2, the lower
    portion has area 3/16 and the upper portion 0. *)
Example harp_crossing_event :
  equiv (find_intersection_simple (make_limbs (prepare crossing_event)))
        (Some (1 # 2))
  /\ let '(area, lower, upper) :=
       calculate_harp_area find_intersection_simple crossing_event in
     area == 3 # 16 /\ equiv lower (Some (3 # 16)) /\ equiv upper (Some 0).
Proof. vm_compute. repeat split; reflexivity. Qed.




(** The late-rise event: the upper portion dominates and is negative, and
    the reported area is negative. *)
Example harp_late_rise_event :
  equiv (find_intersection_simple (make_limbs (prepare late_rise_event)))
        (Some (1 # 4))
  /\ let '(area, lower, upper) :=
       calculate_harp_area find_intersection_simple late_rise_event in
     area == - (1 # 3) /\ equiv lower (Some 0) /\ equiv upper (Some (- (1 # 3))).
Proof. vm_compute. repeat split; reflexivity. Qed.

(** The event whose limbs cross at the row of the concentration peak: the
    areas are computed, and then the peak is not found. *)
Example harp_peak_crossing_event :
  equiv (find_intersection_simple (make_limbs (prepare peak_crossing_event)))
        (Some (2 # 3))
  /\ intersection_row (prepare peak_crossing_event) (2 # 3)
     = argmax (map snd peak_crossing_event)
  /\ calculate_harp_metrics find_intersection_simple peak_crossing_event
     = Fails "IndexError".
Proof. vm_compute. repeat split; reflexivity. Qed.



End HarpFacts.

(** ** zuecco.py: the hysteresis index *)

Module ZueccoFacts.

Import Num Frames Zuecco NumFacts.
#[local] Open Scope Q_scope.

Lemma interpolate_from_length prev col :
  length (interpolate_from prev col) = length col.
Proof.
  revert prev. induction col as [|[v|] rest IH]; intros prev; cbn.
  - reflexivity.
  - now rewrite IH.
  - destruct prev as [[v0 k]|]; cbn; now rewrite IH.
Qed.

Lemma interpolate_length frame : length (interpolate frame) = length frame.
Proof.
  unfold interpolate, interpolate_column.
  rewrite length_map, !length_combine, !interpolate_from_length, !length_map.
  lia.
Qed.

(** The limbs are sampled at the 18 fixed points, whichever path is
    taken. *)
Lemma sample_limbs_length limbs : length (sample_limbs limbs) = 18%nat.
Proof.
  unfold sample_limbs.
  destruct (_ || _).
  - now rewrite length_map.
  - rewrite interpolate_length. unfold reindex_nearest.
    now rewrite length_map.
Qed.

Lemma diff_areas_from_length a rest :
  length (diff_areas_from a rest) = length rest.
Proof.
  revert a. induction rest as [|b rest IH]; intros a; cbn; [reflexivity|].
  now rewrite IH.
Qed.

(** There is one differential area for each of the 17 adjacent pairs. *)
Lemma diff_areas_length limbs :
  length (diff_areas (sample_limbs limbs)) = 17%nat.
Proof.
  pose proof (sample_limbs_length limbs) as Hlen.
  destruct (sample_limbs limbs) as [|a rest]; [discriminate|].
  cbn [diff_areas]. rewrite diff_areas_from_length.
  cbn in Hlen. lia.
Qed.

(** Between two rows that hold numbers the differential area is the
    trapezoid under the rising limb minus the trapezoid under the falling
    limb. *)
Lemma differential_area_defined xa ra fa xb rb fb :
  differential_area {| x := xa; rise := Some ra; fall := Some fa |}
                    {| x := xb; rise := Some rb; fall := Some fb |}
  = Some ((rb + ra) * (xb - xa) / 2 - (fb + fa) * (xb - xa) / 2).
Proof. reflexivity. Qed.

Lemma diff_areas_from_defined a rest :
  fully_sampled (a :: rest) = true ->
  sum_all (diff_areas_from a rest) = Some (sum_skipna (diff_areas_from a rest)).
Proof.
  revert a. induction rest as [|b rest IH]; intros a Hfull; [reflexivity|].
  cbn [fully_sampled forallb] in Hfull.
  apply andb_prop in Hfull as [Ha Hrest].
  specialize (IH b Hrest).
  cbn [fully_sampled forallb] in Hrest.
  apply andb_prop in Hrest as [Hb _].
  cbn [diff_areas_from sum_all sum_skipna]. rewrite IH.
  destruct a as [xa [ra|] [fa|]], b as [xb [rb|] [fb|]];
    cbn in Ha, Hb; try discriminate.
  reflexivity.
Qed.

(** When every sample is a number no area is skipped. *)
Lemma sum_all_fully_sampled limbs_fixed :
  fully_sampled limbs_fixed = true ->
  sum_all (diff_areas limbs_fixed) = Some (sum_skipna (diff_areas limbs_fixed)).
Proof.
  destruct limbs_fixed as [|a rest]; [reflexivity|].
  apply diff_areas_from_defined.
Qed.

(** The dense event is sampled on both limbs at every fixed point. *)
Example zuecco_dense_event :
  fully_sampled (sample_limbs (make_limbs (prepare dense_event))) = true
  /\ calculate_h_index dense_event == - (97 # 320).
Proof. vm_compute. split; reflexivity. Qed.

(** C4, as stated, fails: on the flashy event the limbs have no point
    within the tolerance of the nine lowest fixed points, nine of the 17
    differential areas are NaN and so is their sum, which the statement
    replaces by 0; the source skips the NaN areas and reports the sum of
    the other eight, -3/10. *)
Lemma h_index_skips_nan_counterexample :
  let limbs := make_limbs (prepare flashy_event) in
  sum_all (diff_areas (sample_limbs limbs)) = NaN
  /\ h_index_as_specified limbs == 0
  /\ calculate_h_index flashy_event == - (3 # 10).
Proof. vm_compute. repeat split; reflexivity. Qed.

(** C4 (amended): h_index is the sum of those of the 17 differential areas
    (trapezoid under the rising limb minus trapezoid under the falling
    limb between adjacent fixed points) that are not NaN; when both limbs
    hold a number at all 18 fixed points it is the sum of all 17. *)
Theorem h_index_sum_of_defined_areas limbs :
  let limbs_fixed := sample_limbs limbs in
  length limbs_fixed = 18%nat
  /\ length (diff_areas limbs_fixed) = 17%nat
  /\ h_index limbs == sum_skipna (diff_areas limbs_fixed)
  /\ (fully_sampled limbs_fixed = true ->
      sum_all (diff_areas limbs_fixed) = Some (h_index limbs)
      /\ h_index limbs == h_index_as_specified limbs)
  /\ (forall xa ra fa xb rb fb,
        differential_area {| x := xa; rise := Some ra; fall := Some fa |}
                          {| x := xb; rise := Some rb; fall := Some fb |}
        = Some ((rb + ra) * (xb - xa) / 2 - (fb + fa) * (xb - xa) / 2))
  /\ fully_sampled (sample_limbs (make_limbs (prepare dense_event))) = true.
Proof.
  intros limbs_fixed.
  split; [apply sample_limbs_length|].
  split; [apply diff_areas_length|].
  split; [reflexivity|].
  split; [|split; [intros; apply differential_area_defined|]].
  - intros Hfull. unfold h_index_as_specified, h_index, h_index_of.
    fold limbs_fixed.
    rewrite (sum_all_fully_sampled limbs_fixed Hfull).
    split; reflexivity.
  - vm_compute. reflexivity.
Qed.

End ZueccoFacts.

(** ** lloyd.py: the two indices where the limbs meet *)

Module LloydFacts.

Import Num Frames Lloyd NumFacts.
#[local] Open Scope Q_scope.

Lemma eqb_true a b :
  eqb a b = true -> exists u v, a = Some u /\ b = Some v /\ u == v.
Proof.
  destruct a as [u|], b as [v|]; cbn; try discriminate.
  intros E. exists u, v. repeat split. now apply Qeq_bool_iff.
Qed.

Lemma Qltb_irrefl u v : u == v -> Qltb u v = false.
Proof. intros E. apply Qltb_ge. lra. Qed.

(** Lines 145-149 with equal limbs: the difference index is 0. *)
Lemma HInew_equal C_rise C_fall :
  eqb C_rise C_fall = true -> equiv (HInew C_rise C_fall) (Some 0).
Proof.
  intros E. destruct (eqb_true _ _ E) as (u & v & -> & -> & Huv).
  unfold HInew, py_max. cbn [ltb]. rewrite (Qltb_irrefl u v Huv).
  cbn [eqb]. destruct (Qeq_bool u 0) eqn:Hzero; cbn.
  - reflexivity.
  - rewrite Hzero. unfold equiv.
    assert (Hdiff : u - v == 0) by lra.
    rewrite Hdiff. unfold Qdiv. ring.
Qed.

(** Lines 133-142 with equal limbs: undefined at 0, and 0 elsewhere. *)
Lemma HIL_equal C_rise C_fall :
  eqb C_rise C_fall = true ->
  (eqb C_rise (Some 0) = true -> HIL C_rise C_fall = NaN)
  /\ (eqb C_rise (Some 0) = false -> equiv (HIL C_rise C_fall) (Some 0)).
Proof.
  intros E. destruct (eqb_true _ _ E) as (u & v & -> & -> & Huv).
  unfold HIL. cbn [ltb]. rewrite (Qltb_irrefl v u (Qeq_sym _ _ Huv)).
  split; intros Hzero; rewrite Hzero; [reflexivity|].
  cbn [eqb] in Hzero. apply Qeq_bool_neq in Hzero.
  assert (Hv : ~ v == 0) by (intros Hv; apply Hzero; lra).
  assert (Hquot : u / v == 1) by (rewrite Huv; field; exact Hv).
  cbn [div].
  destruct (Qeq_bool v 0) eqn:Ev; [apply Qeq_bool_iff in Ev; contradiction|].
  destruct (Qeq_bool (u / v) 0) eqn:Eq.
  - apply Qeq_bool_iff in Eq. rewrite Hquot in Eq. discriminate.
  - cbn. rewrite Hquot. reflexivity.
Qed.

(** Each row of [HI_data] holds the two indices of its own samples. *)
Lemma HI_data_rows limbs row :
  In row (HI_data limbs) ->
  row.(HIL_) = HIL row.(RLi) row.(FLi)
  /\ row.(HInew_) = HInew row.(RLi) row.(FLi).
Proof.
  unfold HI_data. rewrite in_map_iff. intros (i & <- & _).
  destruct (sample_at limbs i) as [C_rise C_fall]. split; reflexivity.
Qed.

(** On the coinciding event the limbs agree at the percentiles 0.1 and
    0.2, at 7/15 and 3/5. *)
Example lloyd_coinciding_event :
  let rows := calculate_HI_data coinciding_event in
  equiv (HI_row rows 0).(RLi) (Some (7 # 15))
  /\ equiv (HI_row rows 0).(FLi) (Some (7 # 15))
  /\ equiv (HI_row rows 1).(RLi) (Some (3 # 5))
  /\ equiv (HI_row rows 1).(FLi) (Some (3 # 5))
  /\ equiv (HI_row rows 3).(HIL_) (Some (- (9 # 4)))
  /\ equiv (HI_row rows 3).(HInew_) (Some (- (9 # 13))).
Proof. vm_compute. repeat split; reflexivity. Qed.

(** C5, as stated, fails: at the percentile 0.1 of the coinciding event
    the two limbs are equal (7/15) and the ratio index is 0, not NaN; so it
    is for the bare samples 1/2 and 1/2. *)
Lemma HIL_equal_limbs_counterexample :
  let row := HI_row (calculate_HI_data coinciding_event) 0 in
  eqb row.(RLi) row.(FLi) = true
  /\ equiv row.(HIL_) (Some 0)
  /\ isnan row.(HIL_) = false
  /\ equiv (HIL (Some (1 # 2)) (Some (1 # 2))) (Some 0).
Proof. vm_compute. repeat split; reflexivity. Qed.

(** C5 (amended): at a percentile sample where the rising limb equals the
    falling limb the difference index HInew is 0, and the ratio index HIL
    is NaN when the common value is 0 and 0 otherwise. *)
Theorem equal_limbs_indices limbs row :
  In row (HI_data limbs) ->
  eqb row.(RLi) row.(FLi) = true ->
  equiv row.(HInew_) (Some 0)
  /\ (eqb row.(RLi) (Some 0) = true -> row.(HIL_) = NaN)
  /\ (eqb row.(RLi) (Some 0) = false -> equiv row.(HIL_) (Some 0)).
Proof.
  intros Hrow Hequal.
  destruct (HI_data_rows limbs row Hrow) as [-> ->].
  split; [now apply HInew_equal | now apply HIL_equal].
Qed.

Lemma equal_limbs_indices_witness :
  let limbs := make_limbs (prepare coinciding_event) in
  let row := HI_row (HI_data limbs) 0 in
  In row (HI_data limbs)
  /\ eqb row.(RLi) row.(FLi) = true
  /\ equiv row.(HInew_) (Some 0)
  /\ (eqb row.(RLi) (Some 0) = true -> row.(HIL_) = NaN)
  /\ (eqb row.(RLi) (Some 0) = false -> equiv row.(HIL_) (Some 0)).
Proof.
  split; [left; reflexivity|].
  split; [vm_compute; reflexivity|].
  apply (equal_limbs_indices (make_limbs (prepare coinciding_event))).
  - left; reflexivity.
  - vm_compute; reflexivity.
Defined.

End LloydFacts.

(** ** gcs_core.py: the change percentiles *)

Module PercentileFacts.

Import Num Frames Core NumFacts.
#[local] Open Scope string_scope.
#[local] Open Scope list_scope.
#[local] Open Scope Q_scope.

(** *** Sorting *)

Lemma insort_length v l : length (insort v l) = S (length l).
Proof.
  induction l as [|w t IH]; cbn; [reflexivity|].
  destruct (Qle_bool v w); cbn; [reflexivity | now rewrite IH].
Qed.

Lemma np_sort_length l : length (np_sort l) = length l.
Proof.
  induction l as [|v t IH]; cbn; [reflexivity|].
  now rewrite insort_length, IH.
Qed.

Lemma insort_Forall (P : Q -> Prop) v l :
  P v -> Forall P l -> Forall P (insort v l).
Proof.
  intros Hv. induction 1 as [|w t Hw Ht IH]; cbn.
  - constructor; [exact Hv | constructor].
  - destruct (Qle_bool v w); repeat constructor; assumption.
Qed.

Lemma insort_sorted v l :
  StronglySorted Qle l -> StronglySorted Qle (insort v l).
Proof.
  induction 1 as [|w t Ht IH Hw]; cbn.
  - repeat constructor.
  - destruct (Qle_bool v w) eqn:E.
    + apply Qle_bool_iff in E. constructor.
      * constructor; assumption.
      * constructor; [exact E|].
        apply (List.Forall_impl (P := Qle w)); [|exact Hw].
        intros x Hx. lra.
    + constructor; [exact IH|].
      apply insort_Forall; [|exact Hw].
      destruct (Qlt_le_dec w v) as [Hlt|Hle]; [lra|].
      apply Qle_bool_iff in Hle. congruence.
Qed.

Lemma np_sort_sorted l : StronglySorted Qle (np_sort l).
Proof.
  induction l as [|v t IH]; cbn; [constructor | now apply insort_sorted].
Qed.

Lemma sorted_nth l :
  StronglySorted Qle l ->
  forall i j, (i <= j < length l)%nat -> nth i l 0 <= nth j l 0.
Proof.
  induction 1 as [|w t Ht IH Hw]; intros i j [Hij Hj]; cbn in Hj; [lia|].
  destruct j as [|j].
  - assert (i = 0%nat) as -> by lia. cbn. lra.
  - destruct i as [|i]; cbn.
    + rewrite List.Forall_forall in Hw. apply Hw, nth_In. lia.
    + apply IH. lia.
Qed.


(** *** Positions *)


Lemma Qnat_nonneg a : 0 <= Qnat a.
Proof. unfold Qnat. change 0 with (inject_Z 0). rewrite <- Zle_Qle. lia. Qed.

Lemma product_bounds g d : 0 <= g -> 0 <= d -> 0 <= g * d.
Proof. apply Qmult_le_0_compat. Qed.

(** *** Interpolation between sorted values *)

(** The interpolated value lies between the entry below the position and
    the entry after it. *)
Lemma linear_interpolation_bounds sorted h :
  StronglySorted Qle sorted ->
  0 <= h <= Qnat (length sorted - 1) ->
  (0 < length sorted)%nat ->
  let i := Z.to_nat (Qfloor h) in
  (i <= length sorted - 1)%nat
  /\ Qnat i <= h < Qnat i + 1
  /\ nth i sorted 0 <= linear_interpolation sorted h
  /\ linear_interpolation sorted h
     <= nth (Nat.min (i + 1) (length sorted - 1)) sorted 0.
Proof.
  intros Hsorted [H0 Hn] Hlen i.
  pose proof (Qfloor_le h) as Hle. pose proof (Qlt_floor h) as Hlt.
  rewrite inject_Z_plus in Hlt. change (inject_Z 1) with 1 in Hlt.
  assert (Hz0 : (0 <= Qfloor h)%Z).
  { change 0%Z with (Qfloor 0). now apply Qfloor_resp_le. }
  assert (Hzn : (Qfloor h <= Z.of_nat (length sorted - 1))%Z).
  { rewrite <- (Qfloor_Z (Z.of_nat (length sorted - 1))).
    now apply Qfloor_resp_le. }
  assert (Hi : Qnat i = inject_Z (Qfloor h)).
  { unfold Qnat, i. now rewrite Z2Nat.id. }
  assert (Hbound : (i <= length sorted - 1)%nat) by (unfold i; lia).
  split; [exact Hbound|]. split; [rewrite Hi; split; lra|].
  unfold linear_interpolation. fold i.
  set (a := nth i sorted 0).
  set (b := nth (Nat.min (i + 1) (length sorted - 1)) sorted 0).
  set (g := h - inject_Z (Qfloor h)).
  assert (Hab : a <= b) by (apply sorted_nth; [exact Hsorted | lia]).
  assert (Hg : 0 <= g <= 1) by (unfold g; split; lra).
  pose proof (product_bounds g (b - a)) as P1.
  pose proof (product_bounds (1 - g) (b - a)) as P2.
  split.
  - assert (0 <= g * (b - a)) by (apply P1; lra). lra.
  - assert (0 <= (1 - g) * (b - a)) by (apply P2; lra). lra.
Qed.

Lemma linear_interpolation_monotone sorted h1 h2 :
  StronglySorted Qle sorted ->
  (0 < length sorted)%nat ->
  0 <= h1 -> h1 <= h2 -> h2 <= Qnat (length sorted - 1) ->
  linear_interpolation sorted h1 <= linear_interpolation sorted h2.
Proof.
  intros Hsorted Hlen H0 H12 Hn.
  destruct (linear_interpolation_bounds sorted h1 Hsorted) as (Hi & Hh1 & L1 & U1);
    [split; lra | exact Hlen |].
  destruct (linear_interpolation_bounds sorted h2 Hsorted) as (Hj & Hh2 & L2 & U2);
    [split; lra | exact Hlen |].
  assert (Hfloor : (Qfloor h1 <= Qfloor h2)%Z) by now apply Qfloor_resp_le.
  assert (Hz0 : (0 <= Qfloor h1)%Z).
  { change 0%Z with (Qfloor 0). now apply Qfloor_resp_le. }
  destruct (Z.eq_dec (Qfloor h1) (Qfloor h2)) as [E|NE].
  - unfold linear_interpolation. rewrite <- E.
    set (i := Z.to_nat (Qfloor h1)) in *.
    set (a := nth i sorted 0).
    set (b := nth (Nat.min (i + 1) (length sorted - 1)) sorted 0).
    assert (Hab : a <= b) by (apply sorted_nth; [exact Hsorted | lia]).
    pose proof (product_bounds (h2 - h1) (b - a)) as P.
    assert (0 <= (h2 - h1) * (b - a)) by (apply P; lra). lra.
  - set (i := Z.to_nat (Qfloor h1)) in *.
    set (j := Z.to_nat (Qfloor h2)) in *.
    assert (Hij : (i + 1 <= j)%nat) by (unfold i, j; lia).
    assert (nth (Nat.min (i + 1) (length sorted - 1)) sorted 0 <= nth j sorted 0)
      by (apply sorted_nth; [exact Hsorted | lia]).
    lra.
Qed.

(** *** Quantiles *)

(** A larger level gives a larger quantile. *)
Lemma quantile_monotone values q1 q2 :
  values <> [] -> 0 <= q1 -> q1 <= q2 -> q2 <= 1 ->
  exists a b,
    quantile values q1 = Some a /\ quantile values q2 = Some b /\ a <= b.
Proof.
  intros Hne H0 H12 H1.
  destruct values as [|v t]; [contradiction|].
  unfold quantile. do 2 eexists. split; [reflexivity|]. split; [reflexivity|].
  set (sorted := np_sort (v :: t)).
  assert (Hlen : (0 < length sorted)%nat).
  { unfold sorted. rewrite np_sort_length. cbn. lia. }
  pose proof (Qnat_nonneg (length sorted - 1)) as Hn.
  pose proof (product_bounds (Qnat (length sorted - 1)) q1 Hn H0) as P1.
  assert (P2 : 0 <= Qnat (length sorted - 1) * (q2 - q1))
    by (apply product_bounds; lra).
  assert (P3 : 0 <= Qnat (length sorted - 1) * (1 - q2))
    by (apply product_bounds; lra).
  apply linear_interpolation_monotone;
    [apply np_sort_sorted | exact Hlen | lra | lra | lra].
Qed.



(** With no change at all the lookup of the column fails. *)
Lemma compute_change_percentiles_key_error data sites :
  changes data sites = [] ->
  compute_change_percentiles data sites = inl "conc_diff".
Proof. intros E. unfold compute_change_percentiles. now rewrite E. Qed.

(** The two sites pool the differences 2, 1, -2 and -3; the third site has
    a single sample and adds nothing. *)
Example two_sites_percentiles :
  pooled_conc_diff two_sites ["A"; "B"; "C"] = [2; 1; -2; -3]
  /\ exists percentiles,
       compute_change_percentiles two_sites ["A"; "B"; "C"] = inr percentiles
       /\ option_Forall2 equiv (percentiles !! "dC_p08") (Some (Some (-(276 # 100))))
       /\ option_Forall2 equiv (percentiles !! "dC_p50") (Some (Some (-(1 # 2))))
       /\ option_Forall2 equiv (percentiles !! "dC_p90") (Some (Some (17 # 10)))
       /\ option_Forall2 equiv (percentiles !! "abs_dC_p50") (Some (Some 2)).
Proof.
  split; [reflexivity|]. eexists. split; [reflexivity|].
  repeat split; vm_compute; constructor; reflexivity.
Qed.

(** *** The pooled differences *)



















End PercentileFacts.

(** ** gcs_core.py: the three engines behind one boundary *)

Module OrchestratorFacts.

Import Num Core.
#[local] Open Scope string_scope.
#[local] Open Scope list_scope.
#[local] Open Scope Q_scope.

Section engines.

Variables row processed : Type.
Variables harp zuecco lloyd : list row -> outcome (frame * processed).

Let run := calculate_all_hysteresis_metrics harp zuecco lloyd.
Let body := try_body harp zuecco lloyd.

(** Lines 61-69: the guard answers before any engine is called. *)
Lemma insufficient_data df :
  (length df < 3)%nat ->
  run df = Returns (error_result "Insufficient data points (need >= 3)").
Proof.
  intros Hlen. unfold run, calculate_all_hysteresis_metrics.
  apply Nat.ltb_lt in Hlen. now rewrite Hlen.
Qed.

(** Lines 136-144: an exception of the body becomes the error text. *)
Lemma failure_is_caught df e :
  (3 <= length df)%nat ->
  body df = Raises e ->
  run df = Returns (error_result ("Calculation failed: " ++ str e)).
Proof.
  intros Hlen Hbody. unfold run, calculate_all_hysteresis_metrics.
  apply Nat.ltb_ge in Hlen. rewrite Hlen.
  fold body. now rewrite Hbody.
Qed.

(** A result of the body is handed on as it is, and it has no error key. *)
Lemma success_is_returned df r :
  (3 <= length df)%nat ->
  body df = Returns r ->
  run df = Returns r /\ error r = None.
Proof.
  intros Hlen Hbody. split.
  - unfold run, calculate_all_hysteresis_metrics.
    apply Nat.ltb_ge in Hlen. rewrite Hlen.
    fold body. now rewrite Hbody.
  - revert Hbody. unfold body, try_body, bind.
    repeat match goal with
      | |- context [match ?m with _ => _ end] => destruct m
      end; intros Hbody; try discriminate;
      injection Hbody as <-; reflexivity.
Qed.

End engines.

(** Two rows: the guard of line 61. *)
Example two_rows :
  calculate_all_hysteresis_metrics
    (engine_returning "area" (Some (1 # 4)))
    (engine_returning "hyst_class" (Some 3))
    (engine_returning "mean_HInew" (Some (1 # 2)))
    [(0, 0); (1, 1)]
  = Returns (error_result "Insufficient data points (need >= 3)").
Proof. reflexivity. Qed.

(** Three rows and three engines that return: the classifications hold
    the Zuecco class and the Lloyd direction, and there is no error key. *)
Example three_rows :
  exists r,
    calculate_all_hysteresis_metrics
      (engine_returning "area" (Some (1 # 4)))
      (engine_returning "hyst_class" (Some 3))
      (engine_returning "mean_HInew" (Some (1 # 2)))
      [(0, 0); (1, 1); (0, 1)]
    = Returns r
    /\ harp_metrics r !! "area" = Some (Some (1 # 4))
    /\ classifications r !! "zuecco_class" = Some (Integer 3)
    /\ classifications r !! "lloyd_direction" = Some (Text "clockwise")
    /\ classifications r !! "harp_class" = None
    /\ processed_data r !! "lloyd" = Some "processed"
    /\ error r = None.
Proof. eexists. split; [reflexivity|]. repeat split. Qed.

(** An engine that raises: the text of its exception is in the result. *)
Example rejected_input :
  calculate_all_hysteresis_metrics
    (engine_returning "area" (Some (1 # 4)))
    engine_rejecting
    (engine_returning "mean_HInew" (Some (1 # 2)))
    [(0, 0); (1, 1); (0, 1)]
  = Returns (error_result
      "Calculation failed: Columns 'Q' and/or 'C' and/or 'date' not found in dataframe").
Proof. reflexivity. Qed.

(** A failure after the engines, in [int] at line 96, is caught as well. *)
Example class_is_nan :
  calculate_all_hysteresis_metrics
    (engine_returning "area" (Some (1 # 4)))
    (engine_returning "hyst_class" NaN)
    (engine_returning "mean_HInew" (Some (1 # 2)))
    [(0, 0); (1, 1); (0, 1)]
  = Returns (error_result
      "Calculation failed: cannot convert float NaN to integer").
Proof. reflexivity. Qed.

(** C8: [calculate_all_hysteresis_metrics] returns for every input and
    whatever the three engines do.  With fewer than 3 rows the five
    collections of the result are empty and it carries the error text of
    line 68; with 3 rows or more an exception raised inside the [try]
    statement gives the empty collections and an error text that quotes
    the exception. *)
Theorem calculate_all_hysteresis_metrics_never_raises
  (row processed : Type)
  (harp zuecco lloyd : list row -> outcome (frame * processed))
  (df : list row) :
  exists r,
    calculate_all_hysteresis_metrics harp zuecco lloyd df = Returns r
    /\ ((length df < 3)%nat ->
        harp_metrics r = ∅ /\ zuecco_metrics r = ∅ /\ lloyd_metrics r = ∅
        /\ classifications r = ∅ /\ processed_data r = ∅
        /\ error r = Some "Insufficient data points (need >= 3)")
    /\ (forall e,
        (3 <= length df)%nat ->
        try_body harp zuecco lloyd df = Raises e ->
        harp_metrics r = ∅ /\ zuecco_metrics r = ∅ /\ lloyd_metrics r = ∅
        /\ classifications r = ∅ /\ processed_data r = ∅
        /\ error r = Some ("Calculation failed: " ++ str e)%string).
Proof.
  destruct (Nat.ltb_spec (length df) 3) as [Hshort|Hlong].
  - eexists. split; [now apply insufficient_data|]. split.
    + intros _. repeat split.
    + intros e Hlen. lia.
  - destruct (try_body harp zuecco lloyd df) as [r|e] eqn:Hbody.
    + exists r. split; [now apply success_is_returned|]. split.
      * intros Hlen. lia.
      * intros e _ He. discriminate.
    + eexists. split; [now apply (failure_is_caught _ _ _ _ _ df e)|]. split.
      * intros Hlen. lia.
      * intros e' _ He. injection He as <-. repeat split.
Qed.

End OrchestratorFacts.

(** ** gcs_classification.py: phases, confidences and the rule trail *)

Module PhaseFacts.

Import Classification Grades.
#[local] Open Scope string_scope.
#[local] Open Scope list_scope.

(** Case analysis on every threshold lookup and every test of a block. *)
Ltac split_blocks :=
  repeat match goal with
  | |- context [match ?m !! ?k with _ => _ end] => destruct (m !! k) eqn:?
  | |- context [if ?b then _ else _] => destruct b
  end.

Lemma free_of_fallback_app rules more :
  free_of_fallback rules = true ->
  free_of_fallback more = true ->
  free_of_fallback (rules ++ more) = true.
Proof.
  unfold free_of_fallback. intros H1 H2. now rewrite forallb_app, H1, H2.
Qed.

(** A trail extended by literal rule names stays free of the fallback. *)
Ltac close_trail :=
  repeat (apply free_of_fallback_app; [|reflexivity]); assumption.

(** Each leaf of a split block is a [KeyError], a fall-through or a return
    with a literal phase and a literal or boosted confidence. *)
Ltac close_graded :=
  cbn [graded and_then];
  first
    [ exact I
    | close_trail
    | split; [vm_compute; reflexivity | split; [reflexivity | close_trail]] ].

Lemma flushing_graded row percentiles rules :
  free_of_fallback rules = true ->
  graded (flushing row percentiles rules).
Proof. intros H. unfold flushing, item, and_then. split_blocks; close_graded. Qed.

Lemma loading_graded row percentiles rules :
  free_of_fallback rules = true ->
  graded (loading row percentiles rules).
Proof. intros H. unfold loading, item. split_blocks; close_graded. Qed.

Lemma chemostatic_graded row percentiles rules :
  free_of_fallback rules = true ->
  graded (chemostatic row percentiles rules).
Proof. intros H. unfold chemostatic, item. split_blocks; close_graded. Qed.

Lemma dilution_graded row percentiles rules :
  free_of_fallback rules = true ->
  graded (dilution row percentiles rules).
Proof. intros H. unfold dilution, item. split_blocks; close_graded. Qed.

Lemma recession_graded row percentiles rules :
  free_of_fallback rules = true ->
  graded (recession row percentiles rules).
Proof. intros H. unfold recession, item, and_then. split_blocks; close_graded. Qed.

Lemma and_then_graded s next :
  graded s ->
  (forall rules, free_of_fallback rules = true -> graded (next rules)) ->
  graded (and_then s next).
Proof. destruct s; cbn; auto. Qed.

Lemma cascade_graded row percentiles : graded (cascade row percentiles).
Proof.
  unfold cascade.
  repeat apply and_then_graded;
    auto using flushing_graded, loading_graded, chemostatic_graded,
               dilution_graded, recession_graded.
Qed.


Lemma fallback_graded row rules :
  free_of_fallback rules = true ->
  exists confidence,
    fallback row rules = ("V", confidence, rules ++ ["fallback_variable"])
    /\ confidence_range "V" confidence = true.
Proof.
  intros _. unfold fallback.
  destruct (_ && _); eexists; (split; [reflexivity | vm_compute; reflexivity]).
Qed.

Lemma free_of_fallback_not_in rules :
  free_of_fallback rules = true -> ~ In "fallback_variable" rules.
Proof.
  unfold free_of_fallback. rewrite forallb_forall. intros H Hin.
  specialize (H _ Hin). discriminate.
Qed.

(** With every threshold present the call returns one of two ways: from a
    block, graded, or from the fallback. *)
Lemma classify_segment_phase_graded row percentiles :
  has_thresholds percentiles = true ->
  exists phase confidence rules,
    classify_segment_phase row percentiles = inr (phase, confidence, rules)
    /\ confidence_range phase confidence = true
    /\ ((phase =? "V") = false /\ free_of_fallback rules = true
        \/ phase = "V" /\ In "fallback_variable" rules).
Proof.
  intros Hkeys. unfold classify_segment_phase.
  pose proof (cascade_graded row percentiles) as Hg.
  pose proof (ClassificationFacts.cascade_sound row percentiles) as Hs.
  destruct (cascade row percentiles) as [key|phase confidence rules|rules];
    cbn in Hg, Hs.
  - destruct Hs as [Hin Hnone].
    now destruct (ClassificationFacts.has_thresholds_lookup percentiles key Hkeys Hin).
  - destruct Hg as (Hc & Hv & Hf).
    exists phase, confidence, rules.
    split; [reflexivity|]. split; [exact Hc|]. left. split; assumption.
  - destruct (fallback_graded row rules Hg) as (confidence & -> & Hc).
    exists "V", confidence, (rules ++ ["fallback_variable"]).
    split; [reflexivity|]. split; [exact Hc|]. right.
    split; [reflexivity|]. apply in_or_app. right. left. reflexivity.
Qed.

(** X1: with every threshold present, the returned confidence lies in
    the range of the returned phase: F in [0.70, 0.98], L in [0.80, 0.98],
    C 0.85 or 0.90, D 0.75, 0.80 or 0.85, R 0.70, 0.75 or 0.85, and V 0.40
    or 0.60; so only the fallback phase V goes below 0.70. *)
Theorem classify_segment_phase_confidence_table row percentiles :
  has_thresholds percentiles = true ->
  exists phase confidence rules,
    classify_segment_phase row percentiles = inr (phase, confidence, rules)
    /\ confidence_range phase confidence = true.
Proof.
  intros Hkeys.
  destruct (classify_segment_phase_graded row percentiles Hkeys)
    as (phase & confidence & rules & E & Hc & _).
  exists phase, confidence, rules. split; assumption.
Qed.

Lemma classify_segment_phase_confidence_table_witness :
  has_thresholds example_thresholds = true
  /\ exists phase confidence rules,
       classify_segment_phase flushing_row example_thresholds
       = inr (phase, confidence, rules)
       /\ confidence_range phase confidence = true.
Proof.
  split; [vm_compute; reflexivity|].
  apply (classify_segment_phase_confidence_table flushing_row example_thresholds).
  vm_compute; reflexivity.
Defined.

(** X2: with every threshold present, the returned phase is V exactly
    when the rule trail names [fallback_variable]. *)
Theorem fallback_rule_iff_variable row percentiles :
  has_thresholds percentiles = true ->
  exists phase confidence rules,
    classify_segment_phase row percentiles = inr (phase, confidence, rules)
    /\ (phase = "V" <-> In "fallback_variable" rules).
Proof.
  intros Hkeys.
  destruct (classify_segment_phase_graded row percentiles Hkeys)
    as (phase & confidence & rules & E & _ & [ [Hv Hf] | [Hv Hin] ]).
  - exists phase, confidence, rules. split; [exact E|]. split.
    + intros ->. discriminate.
    + intros Hin. now destruct (free_of_fallback_not_in rules Hf).
  - exists phase, confidence, rules. split; [exact E|]. split; auto.
Qed.

Lemma fallback_rule_iff_variable_witness :
  has_thresholds example_thresholds = true
  /\ exists phase confidence rules,
       classify_segment_phase empty_row example_thresholds
       = inr (phase, confidence, rules)
       /\ (phase = "V" <-> In "fallback_variable" rules).
Proof.
  split; [vm_compute; reflexivity|].
  apply (fallback_rule_iff_variable empty_row example_thresholds).
  vm_compute; reflexivity.
Defined.

(** X3: flushing has priority.  A row whose concentration change is
    below the threshold dC_p08 and whose Q_position is high is classified F
    with a confidence between 0.85 and 0.98, whatever its other columns and
    whatever other thresholds the mapping holds or lacks; the trail starts
    with [current_steep_decline]. *)
Theorem steep_decline_at_high_flow_is_flushing row percentiles dC_p08 d :
  percentiles !! "dC_p08" = Some dC_p08 ->
  row.(conc_diff) = Some d ->
  (d <? dC_p08)%float = true ->
  row.(Q_position) = Some "high" ->
  exists confidence rules,
    classify_segment_phase row percentiles = inr ("F", confidence, rules)
    /\ (0.85 <=? confidence)%float = true
    /\ (confidence <=? 0.98)%float = true
    /\ hd_error rules = Some "current_steep_decline".
Proof.
  intros Hkey Hd Hlt Hq.
  unfold classify_segment_phase, cascade, flushing, item.
  rewrite Hkey. unfold conc_diff_, q_high, q_pos. rewrite Hd, Hq. cbn [Py.get].
  rewrite Hlt.
  replace (Py.str_in (q_level row) ["high"; "medium"] || ("high" =? "high"))%bool
    with true by (now rewrite orb_true_r).
  rewrite orb_true_r. cbn [andb].
  split_blocks; cbn [and_then]; do 2 eexists;
    (split; [reflexivity|]); repeat split; vm_compute; reflexivity.
Qed.

Lemma steep_decline_at_high_flow_is_flushing_witness :
  exists confidence rules,
    classify_segment_phase flushing_row example_thresholds
    = inr ("F", confidence, rules)
    /\ (0.85 <=? confidence)%float = true
    /\ (confidence <=? 0.98)%float = true
    /\ hd_error rules = Some "current_steep_decline".
Proof.
  apply (steep_decline_at_high_flow_is_flushing
           flushing_row example_thresholds (-5)%float (-7)%float);
    vm_compute; reflexivity.
Defined.

(** X4: a threshold mapping without the key dC_p08 makes every call
    raise [KeyError] on that key, the first one the cascade reads. *)
Theorem missing_first_threshold_raises row percentiles :
  percentiles !! "dC_p08" = None ->
  classify_segment_phase row percentiles = inl "dC_p08".
Proof.
  intros Hkey. unfold classify_segment_phase, cascade, flushing, item.
  now rewrite Hkey.
Qed.

Lemma missing_first_threshold_raises_witness :
  classify_segment_phase flushing_row ∅ = inl "dC_p08".
Proof. apply missing_first_threshold_raises. reflexivity. Defined.

End PhaseFacts.

(** ** gcs_core.py: the thresholds as the cascade uses them *)

Module ThresholdFacts.

Import Num Frames Core NumFacts PercentileFacts.
#[local] Open Scope string_scope.
#[local] Open Scope list_scope.
#[local] Open Scope Q_scope.

(** Sorting keeps what holds for every value. *)
Lemma np_sort_Forall (P : Q -> Prop) l : Forall P l -> Forall P (np_sort l).
Proof.
  induction 1 as [|v t Hv Ht IH]; cbn; [constructor|].
  now apply insort_Forall.
Qed.

(** A quantile is at least any lower bound of the values, and at most any
    upper bound. *)
Lemma quantile_at_least (a : Q) values q :
  values <> [] ->
  Forall (fun v => a <= v) values ->
  0 <= q -> q <= 1 ->
  exists r, quantile values q = Some r /\ a <= r.
Proof.
  intros Hne Hall H0 H1.
  destruct values as [|v t]; [contradiction|].
  unfold quantile. eexists. split; [reflexivity|].
  set (sorted := np_sort (v :: t)).
  assert (Hlen : (0 < length sorted)%nat).
  { unfold sorted. rewrite np_sort_length. cbn. lia. }
  assert (Hsorted : Forall (fun v => a <= v) sorted)
    by (apply np_sort_Forall; exact Hall).
  pose proof (Qnat_nonneg (length sorted - 1)) as Hn.
  pose proof (product_bounds (Qnat (length sorted - 1)) q Hn H0) as P1.
  assert (P2 : 0 <= Qnat (length sorted - 1) * (1 - q))
    by (apply product_bounds; lra).
  destruct (linear_interpolation_bounds sorted
              (Qnat (length sorted - 1) * q) (np_sort_sorted (v :: t)))
    as (Hi & _ & Hlo & _); [split; lra | exact Hlen |].
  rewrite List.Forall_forall in Hsorted.
  eapply Qle_trans; [|exact Hlo].
  apply (Hsorted (nth _ sorted 0)), nth_In. lia.
Qed.

Lemma quantile_at_most (b : Q) values q :
  values <> [] ->
  Forall (fun v => v <= b) values ->
  0 <= q -> q <= 1 ->
  exists r, quantile values q = Some r /\ r <= b.
Proof.
  intros Hne Hall H0 H1.
  destruct values as [|v t]; [contradiction|].
  unfold quantile. eexists. split; [reflexivity|].
  set (sorted := np_sort (v :: t)).
  assert (Hlen : (0 < length sorted)%nat).
  { unfold sorted. rewrite np_sort_length. cbn. lia. }
  assert (Hsorted : Forall (fun v => v <= b) sorted)
    by (apply np_sort_Forall; exact Hall).
  pose proof (Qnat_nonneg (length sorted - 1)) as Hn.
  pose proof (product_bounds (Qnat (length sorted - 1)) q Hn H0) as P1.
  assert (P2 : 0 <= Qnat (length sorted - 1) * (1 - q))
    by (apply product_bounds; lra).
  destruct (linear_interpolation_bounds sorted
              (Qnat (length sorted - 1) * q) (np_sort_sorted (v :: t)))
    as (Hi & _ & _ & Hhi); [split; lra | exact Hlen |].
  rewrite List.Forall_forall in Hsorted.
  eapply Qle_trans; [exact Hhi|].
  apply (Hsorted (nth _ sorted 0)), nth_In. lia.
Qed.

(** A quantile of a series that is not empty is a number. *)
Lemma quantile_defined values q :
  values <> [] -> exists r, quantile values q = Some r.
Proof. destruct values; [contradiction|]. intros _. eexists. reflexivity. Qed.

(** The entries of the returned mapping, by key. *)
Lemma percentile_entries data sites conc flow :
  changes data sites <> [] ->
  conc = map conc_diff (changes data sites) ->
  flow = map flow_diff (changes data sites) ->
  exists percentiles,
    compute_change_percentiles data sites = inr percentiles
    /\ percentiles !! "dC_p01" = Some (quantile conc (1 # 100))
    /\ percentiles !! "dC_p08" = Some (quantile conc (8 # 100))
    /\ percentiles !! "dC_p25" = Some (quantile conc (25 # 100))
    /\ percentiles !! "dC_p90" = Some (quantile conc (90 # 100))
    /\ percentiles !! "dQ_p05" = Some (quantile flow (5 # 100))
    /\ percentiles !! "dQ_p10" = Some (quantile flow (10 # 100))
    /\ percentiles !! "dQ_p25" = Some (quantile flow (25 # 100))
    /\ percentiles !! "dQ_p50" = Some (quantile flow (50 # 100))
    /\ percentiles !! "dQ_p75" = Some (quantile flow (75 # 100))
    /\ percentiles !! "dQ_p90" = Some (quantile flow (90 # 100))
    /\ percentiles !! "abs_dC_p50" = Some (quantile (abs conc) (50 # 100))
    /\ percentiles !! "abs_dC_p75" = Some (quantile (abs conc) (75 # 100))
    /\ percentiles !! "abs_dQ_p50" = Some (quantile (abs flow) (50 # 100))
    /\ percentiles !! "abs_dQ_p75" = Some (quantile (abs flow) (75 # 100)).
Proof.
  intros Hne -> ->. unfold compute_change_percentiles.
  destruct (changes data sites) as [|c t] eqn:E; [contradiction|].
  eexists. split; [reflexivity|].
  generalize (quantile (map conc_diff (c :: t))).
  generalize (quantile (map flow_diff (c :: t))).
  generalize (quantile (abs (map conc_diff (c :: t)))).
  generalize (quantile (abs (map flow_diff (c :: t)))).
  intros qaf qac qf qc.
  repeat split; vm_compute; reflexivity.
Qed.

Lemma map_not_nil {A B : Type} (f : A -> B) l : l <> [] -> map f l <> [].
Proof. destruct l; [contradiction | discriminate]. Qed.

Lemma entry_defined (percentiles : gmap string num) key values q :
  percentiles !! key = Some (quantile values q) ->
  values <> [] ->
  exists v, percentiles !! key = Some (Some v).
Proof.
  intros L Hne. destruct (quantile_defined values q Hne) as [r Hr].
  exists r. rewrite Hr in L. exact L.
Qed.

(** X5: the two functions compose.  When the pooled changes are not
    empty, the mapping that [compute_change_percentiles] returns holds a
    number (not NaN) under each of the eight keys that the cascade of
    [classify_segment_phase] reads, so that the cascade raises no
    [KeyError] on it. *)
Theorem thresholds_cover_cascade data sites :
  changes data sites <> [] ->
  exists percentiles,
    compute_change_percentiles data sites = inr percentiles
    /\ Forall (fun key => exists v, percentiles !! key = Some (Some v))
              Classification.threshold_keys.
Proof.
  intros Hne.
  destruct (percentile_entries data sites _ _ Hne eq_refl eq_refl)
    as (percentiles & E & L01 & L08 & L25 & L90 & _ & Q10 & Q25 & _ & Q75
        & _ & _ & A75 & _).
  exists percentiles. split; [exact E|].
  assert (Hc : map conc_diff (changes data sites) <> [])
    by now apply map_not_nil.
  assert (Hf : map flow_diff (changes data sites) <> [])
    by now apply map_not_nil.
  assert (Ha : abs (map conc_diff (changes data sites)) <> [])
    by now apply map_not_nil.
  unfold Classification.threshold_keys.
  repeat constructor; eauto using entry_defined.
Qed.

Lemma thresholds_cover_cascade_witness :
  exists percentiles,
    compute_change_percentiles two_sites ["A"; "B"; "C"] = inr percentiles
    /\ Forall (fun key => exists v, percentiles !! key = Some (Some v))
              Classification.threshold_keys.
Proof.
  apply (thresholds_cover_cascade two_sites ["A"; "B"; "C"]).
  vm_compute; discriminate.
Defined.

Lemma abs_nonneg values : Forall (fun v => 0 <= v) (abs values).
Proof.
  unfold abs. induction values as [|v t IH]; cbn; constructor; auto.
  apply Qabs_nonneg.
Qed.

(** Two entries that are quantiles of the same series are ordered as their
    levels are. *)
Lemma entry_ordered (percentiles : gmap string num) k1 k2 values q1 q2 :
  percentiles !! k1 = Some (quantile values q1) ->
  percentiles !! k2 = Some (quantile values q2) ->
  values <> [] -> 0 <= q1 -> q1 <= q2 -> q2 <= 1 ->
  exists a b,
    percentiles !! k1 = Some (Some a) /\ percentiles !! k2 = Some (Some b)
    /\ a <= b.
Proof.
  intros L1 L2 Hne H0 H12 H1.
  destruct (quantile_monotone values q1 q2 Hne H0 H12 H1)
    as (a & b & Ea & Eb & Hab).
  exists a, b. rewrite Ea in L1. rewrite Eb in L2. auto.
Qed.

(** X6: when the pooled changes are not empty, the flow-change
    thresholds are ordered:
    dQ_p05 <= dQ_p10 <= dQ_p25 <= dQ_p50 <= dQ_p75 <= dQ_p90. *)
Theorem flow_thresholds_ordered data sites :
  changes data sites <> [] ->
  exists percentiles p05 p10 p25 p50 p75 p90,
    compute_change_percentiles data sites = inr percentiles
    /\ percentiles !! "dQ_p05" = Some (Some p05)
    /\ percentiles !! "dQ_p10" = Some (Some p10)
    /\ percentiles !! "dQ_p25" = Some (Some p25)
    /\ percentiles !! "dQ_p50" = Some (Some p50)
    /\ percentiles !! "dQ_p75" = Some (Some p75)
    /\ percentiles !! "dQ_p90" = Some (Some p90)
    /\ p05 <= p10 /\ p10 <= p25 /\ p25 <= p50 /\ p50 <= p75 /\ p75 <= p90.
Proof.
  intros Hne.
  destruct (percentile_entries data sites _ _ Hne eq_refl eq_refl)
    as (percentiles & E & _ & _ & _ & _ & Q05 & Q10 & Q25 & Q50 & Q75 & Q90 & _).
  assert (Hf : map flow_diff (changes data sites) <> [])
    by now apply map_not_nil.
  destruct (entry_ordered percentiles _ _ _ _ _ Q05 Q10 Hf)
    as (p05 & p10 & E05 & E10 & H1); [lra | lra | lra |].
  destruct (entry_ordered percentiles _ _ _ _ _ Q10 Q25 Hf)
    as (p10' & p25 & E10' & E25 & H2); [lra | lra | lra |].
  destruct (entry_ordered percentiles _ _ _ _ _ Q25 Q50 Hf)
    as (p25' & p50 & E25' & E50 & H3); [lra | lra | lra |].
  destruct (entry_ordered percentiles _ _ _ _ _ Q50 Q75 Hf)
    as (p50' & p75 & E50' & E75 & H4); [lra | lra | lra |].
  destruct (entry_ordered percentiles _ _ _ _ _ Q75 Q90 Hf)
    as (p75' & p90 & E75' & E90 & H5); [lra | lra | lra |].
  assert (p10' = p10) as -> by congruence.
  assert (p25' = p25) as -> by congruence.
  assert (p50' = p50) as -> by congruence.
  assert (p75' = p75) as -> by congruence.
  exists percentiles, p05, p10, p25, p50, p75, p90.
  repeat (split; [assumption|]). assumption.
Qed.

Lemma flow_thresholds_ordered_witness :
  exists percentiles p05 p10 p25 p50 p75 p90,
    compute_change_percentiles two_sites ["A"; "B"; "C"] = inr percentiles
    /\ percentiles !! "dQ_p05" = Some (Some p05)
    /\ percentiles !! "dQ_p10" = Some (Some p10)
    /\ percentiles !! "dQ_p25" = Some (Some p25)
    /\ percentiles !! "dQ_p50" = Some (Some p50)
    /\ percentiles !! "dQ_p75" = Some (Some p75)
    /\ percentiles !! "dQ_p90" = Some (Some p90)
    /\ p05 <= p10 /\ p10 <= p25 /\ p25 <= p50 /\ p50 <= p75 /\ p75 <= p90.
Proof.
  apply (flow_thresholds_ordered two_sites ["A"; "B"; "C"]).
  vm_compute; discriminate.
Defined.

(** X7: when the pooled changes are not empty, the thresholds on the
    absolute changes are not negative and are ordered:
    0 <= abs_dC_p50 <= abs_dC_p75 and 0 <= abs_dQ_p50 <= abs_dQ_p75. *)
Theorem absolute_thresholds_nonnegative data sites :
  changes data sites <> [] ->
  exists percentiles c50 c75 q50 q75,
    compute_change_percentiles data sites = inr percentiles
    /\ percentiles !! "abs_dC_p50" = Some (Some c50)
    /\ percentiles !! "abs_dC_p75" = Some (Some c75)
    /\ percentiles !! "abs_dQ_p50" = Some (Some q50)
    /\ percentiles !! "abs_dQ_p75" = Some (Some q75)
    /\ 0 <= c50 /\ c50 <= c75 /\ 0 <= q50 /\ q50 <= q75.
Proof.
  intros Hne.
  destruct (percentile_entries data sites _ _ Hne eq_refl eq_refl)
    as (percentiles & E & _ & _ & _ & _ & _ & _ & _ & _ & _ & _
        & C50 & C75 & Q50 & Q75).
  set (conc := map conc_diff (changes data sites)) in *.
  set (flow := map flow_diff (changes data sites)) in *.
  assert (Hc : abs conc <> []) by (apply map_not_nil; now apply map_not_nil).
  assert (Hf : abs flow <> []) by (apply map_not_nil; now apply map_not_nil).
  destruct (entry_ordered percentiles _ _ _ _ _ C50 C75 Hc)
    as (c50 & c75 & Ec50 & Ec75 & H1); [lra | lra | lra |].
  destruct (entry_ordered percentiles _ _ _ _ _ Q50 Q75 Hf)
    as (q50 & q75 & Eq50 & Eq75 & H2); [lra | lra | lra |].
  assert (Hc0 : 0 <= c50).
  { destruct (quantile_at_least 0 (abs conc) (50 # 100) Hc (abs_nonneg conc))
      as (r & Er & Hr); [lra | lra |].
    rewrite Er in C50. pose proof (eq_trans (eq_sym C50) Ec50) as Heq.
    injection Heq as <-. exact Hr. }
  assert (Hq0 : 0 <= q50).
  { destruct (quantile_at_least 0 (abs flow) (50 # 100) Hf (abs_nonneg flow))
      as (r & Er & Hr); [lra | lra |].
    rewrite Er in Q50. pose proof (eq_trans (eq_sym Q50) Eq50) as Heq.
    injection Heq as <-. exact Hr. }
  exists percentiles, c50, c75, q50, q75.
  repeat (split; [assumption|]). assumption.
Qed.

Lemma absolute_thresholds_nonnegative_witness :
  exists percentiles c50 c75 q50 q75,
    compute_change_percentiles two_sites ["A"; "B"; "C"] = inr percentiles
    /\ percentiles !! "abs_dC_p50" = Some (Some c50)
    /\ percentiles !! "abs_dC_p75" = Some (Some c75)
    /\ percentiles !! "abs_dQ_p50" = Some (Some q50)
    /\ percentiles !! "abs_dQ_p75" = Some (Some q75)
    /\ 0 <= c50 /\ c50 <= c75 /\ 0 <= q50 /\ q50 <= q75.
Proof.
  apply (absolute_thresholds_nonnegative two_sites ["A"; "B"; "C"]).
  vm_compute; discriminate.
Defined.

(** Sorting by date keeps the number of rows. *)
Lemma insert_by_date_length r l :
  length (insert_by_date r l) = S (length l).
Proof.
  induction l as [|r' t IH]; cbn; [reflexivity|].
  destruct (_ <=? _)%Z; cbn; [reflexivity | now rewrite IH].
Qed.

Lemma sort_values_length l : length (sort_values l) = length l.
Proof.
  induction l as [|r t IH]; cbn; [reflexivity|].
  now rewrite insert_by_date_length, IH.
Qed.

(** X8: when none of the listed sites has two rows or more in the data
    (an empty site list included), [compute_change_percentiles] raises
    [KeyError] on the column conc_diff instead of returning thresholds. *)
Theorem single_samples_raise data sites :
  Forall (fun site =>
            (length (List.filter (fun r => String.eqb r.(site_id) site) data)
             <= 1)%nat) sites ->
  compute_change_percentiles data sites = inl "conc_diff".
Proof.
  intros Hall. apply compute_change_percentiles_key_error.
  unfold changes. induction Hall as [|site rest Hsite _ IH]; cbn; [reflexivity|].
  rewrite IH, app_nil_r. unfold site_changes.
  rewrite sort_values_length.
  apply Nat.ltb_ge in Hsite. now rewrite Hsite.
Qed.

Lemma single_samples_raise_witness :
  compute_change_percentiles two_sites ["C"; "D"] = inl "conc_diff".
Proof.
  apply (single_samples_raise two_sites ["C"; "D"]).
  repeat constructor.
Defined.

End ThresholdFacts.

(** ** lloyd.py: the difference index as a function of the limbs *)

Module IndexFacts.

Import Num Frames Lloyd NumFacts.
#[local] Open Scope Q_scope.

Lemma Qeq_bool_false x y : ~ x == y -> Qeq_bool x y = false.
Proof.
  intros H. destruct (Qeq_bool x y) eqn:E; [|reflexivity].
  apply Qeq_bool_iff in E. contradiction.
Qed.

Lemma Qeq_bool_true x y : x == y -> Qeq_bool x y = true.
Proof. apply Qeq_bool_iff. Qed.

(** The larger of two samples, as [max] picks it. *)
Lemma py_max_cases r f :
  (r < f /\ py_max (Some r) (Some f) = Some f)
  \/ (f <= r /\ py_max (Some r) (Some f) = Some r).
Proof.
  unfold py_max. cbn [ltb]. destruct (Qltb r f) eqn:E.
  - left. split; [now apply Qltb_lt | reflexivity].
  - right. split; [now apply Qltb_ge | reflexivity].
Qed.

Lemma ratio_bounds a m : 0 < m -> - m <= a -> a <= m -> -1 <= a / m /\ a / m <= 1.
Proof.
  intros Hm Hlo Hhi. split.
  - apply Qle_shift_div_l; [exact Hm | lra].
  - apply Qle_shift_div_r; [exact Hm | lra].
Qed.

Lemma ratio_sign a m : 0 < m -> (0 < a -> 0 < a / m) /\ (a < 0 -> a / m < 0).
Proof.
  intros Hm. split; intros Ha.
  - apply Qlt_shift_div_l; [exact Hm | lra].
  - apply Qlt_shift_div_r; [exact Hm | lra].
Qed.

(** X9: for two limb values that are not negative (the scaled
    concentrations are not), the difference index HInew is a number
    between -1 and 1; it is positive when the rising limb is the larger,
    negative when the falling limb is, and 0 when they are equal. *)
Theorem HInew_range r f :
  0 <= r -> 0 <= f ->
  exists v,
    HInew (Some r) (Some f) = Some v
    /\ -1 <= v /\ v <= 1
    /\ (f < r -> 0 < v) /\ (r < f -> v < 0) /\ (r == f -> v == 0).
Proof.
  intros Hr Hf. unfold HInew.
  destruct (py_max_cases r f) as [ [Hlt ->] | [Hge ->] ]; cbn [eqb].
  - rewrite (Qeq_bool_false f 0) by lra.
    unfold sub, div, lift2. rewrite (Qeq_bool_false f 0) by lra.
    eexists. split; [reflexivity|].
    destruct (ratio_bounds (r - f) f) as [B1 B2]; [lra | lra | lra |].
    destruct (ratio_sign (r - f) f) as [S1 S2]; [lra|].
    repeat split; try assumption; intros;
      first [lra | apply S1; lra | apply S2; lra].
  - destruct (Qeq_bool r 0) eqn:E.
    + apply Qeq_bool_iff in E. exists 0. split; [reflexivity|].
      repeat split; intros; lra.
    + apply Qeq_bool_neq in E.
      unfold sub, div, lift2. rewrite (Qeq_bool_false r 0) by exact E.
      eexists. split; [reflexivity|].
      destruct (ratio_bounds (r - f) r) as [B1 B2]; [lra | lra | lra |].
      destruct (ratio_sign (r - f) r) as [S1 S2]; [lra|].
      repeat split; try assumption; intros;
        first [ lra | apply S1; lra | apply S2; lra
              | assert (Hz : r - f == 0) by lra; rewrite Hz; unfold Qdiv; ring ].
Qed.

Lemma HInew_range_witness :
  exists v,
    HInew (Some (3 # 4)) (Some (1 # 4)) = Some v
    /\ -1 <= v /\ v <= 1
    /\ ((1 # 4) < (3 # 4) -> 0 < v) /\ ((3 # 4) < (1 # 4) -> v < 0)
    /\ ((3 # 4) == (1 # 4) -> v == 0).
Proof. apply (HInew_range (3 # 4) (1 # 4)); lra. Defined.



(** X11: exchanging the rising and the falling limb value changes the
    sign of the difference index and nothing else: for any two numbers
    HInew becomes -HInew. *)
Theorem swapped_limbs_flip_sign (r f : Q) :
  equiv (HInew (Some f) (Some r)) (sub (Some 0) (HInew (Some r) (Some f))).
Proof.
  unfold HInew, py_max. cbn [ltb].
  destruct (Qltb f r) eqn:Efr, (Qltb r f) eqn:Erf; cbn [eqb];
    try apply Qltb_lt in Efr; try apply Qltb_lt in Erf;
    try apply Qltb_ge in Efr; try apply Qltb_ge in Erf.
  - exfalso. lra.
  - destruct (Qeq_bool r 0) eqn:Z; cbn [sub div lift2 equiv]; [reflexivity|].
    rewrite Z. cbn [equiv]. apply Qeq_bool_neq in Z. field. exact Z.
  - destruct (Qeq_bool f 0) eqn:Z; cbn [sub div lift2 equiv]; [reflexivity|].
    rewrite Z. cbn [equiv]. apply Qeq_bool_neq in Z. field. exact Z.
  - assert (Hrf : r == f) by lra.
    destruct (Qeq_bool f 0) eqn:Zf, (Qeq_bool r 0) eqn:Zr;
      cbn [sub div lift2 equiv].
    + reflexivity.
    + apply Qeq_bool_iff in Zf. apply Qeq_bool_neq in Zr.
      exfalso. apply Zr. lra.
    + apply Qeq_bool_iff in Zr. apply Qeq_bool_neq in Zf.
      exfalso. apply Zf. lra.
    + rewrite Zf, Zr. cbn [equiv]. apply Qeq_bool_neq in Zf.
      rewrite Hrf. field. exact Zf.
Qed.

End IndexFacts.

(** ** harp.py, zuecco.py, lloyd.py: the ranges of the scaled frames *)

Module RangeFacts.

Import Num Frames Ranges NumFacts.
#[local] Open Scope Q_scope.

(** *** MinMaxScaler *)

Lemma col_min_le rest : forall v,
  col_min v rest <= v /\ Forall (fun y => col_min v rest <= y) rest.
Proof.
  unfold col_min. induction rest as [|y t IH]; intros v; cbn.
  - split; [lra | constructor].
  - destruct (IH (Qmin v y)) as [H1 H2].
    pose proof (Q.le_min_l v y). pose proof (Q.le_min_r v y).
    split; [lra|]. constructor; [lra | exact H2].
Qed.

Lemma col_max_ge rest : forall v,
  v <= col_max v rest /\ Forall (fun y => y <= col_max v rest) rest.
Proof.
  unfold col_max. induction rest as [|y t IH]; intros v; cbn.
  - split; [lra | constructor].
  - destruct (IH (Qmax v y)) as [H1 H2].
    pose proof (Q.le_max_l v y). pose proof (Q.le_max_r v y).
    split; [lra|]. constructor; [lra | exact H2].
Qed.

Lemma ten_eps_small : 0 < ten_eps /\ ten_eps <= 1.
Proof. split; vm_compute; [reflexivity | discriminate]. Qed.

Lemma scale_one (mn mx value : Q) :
  mn <= value -> value <= mx ->
  scaled (value * (1 / (if Qltb (mx - mn) ten_eps then 1 else mx - mn))
          + (0 - mn * (1 / (if Qltb (mx - mn) ten_eps then 1 else mx - mn)))).
Proof.
  intros Hlo Hhi. destruct ten_eps_small as [E0 E1].
  destruct (Qltb (mx - mn) ten_eps) eqn:E.
  - apply Qltb_lt in E.
    assert (Heq : value * (1 / 1) + (0 - mn * (1 / 1)) == value - mn) by field.
    unfold scaled. rewrite Heq. split; lra.
  - apply Qltb_ge in E.
    assert (Hr : 0 < mx - mn) by lra.
    assert (Heq : value * (1 / (mx - mn)) + (0 - mn * (1 / (mx - mn)))
                  == (value - mn) / (mx - mn)) by (field; lra).
    unfold scaled. rewrite Heq. split.
    + apply Qle_shift_div_l; [exact Hr | lra].
    + apply Qle_shift_div_r; [exact Hr | lra].
Qed.

Lemma minmax_scale_scaled col : Forall scaled (minmax_scale col).
Proof.
  destruct col as [|v rest]; [constructor|].
  unfold minmax_scale.
  destruct (col_min_le rest v) as [Hmin Hmins].
  destruct (col_max_ge rest v) as [Hmax Hmaxs].
  set (mn := col_min v rest) in *. set (mx := col_max v rest) in *.
  rewrite List.Forall_forall in Hmins, Hmaxs.
  rewrite List.Forall_forall. intros y Hy.
  apply in_map_iff in Hy. destruct Hy as (value & <- & Hin).
  apply scale_one; destruct Hin as [<- | Hin]; auto.
Qed.

Lemma minmax_scale_length col : length (minmax_scale col) = length col.
Proof. destruct col; [reflexivity|]. unfold minmax_scale. now rewrite length_map. Qed.

(** *** prepare *)

Lemma prepare_scaled hourly :
  Forall (fun s => scaled s.(QS) /\ scaled s.(CS)) (prepare hourly).
Proof.
  unfold prepare. rewrite List.Forall_forall. intros s Hs.
  apply in_map_iff in Hs. destruct Hs as ([i [qs cs]] & <- & Hin).
  apply in_combine_r in Hin.
  pose proof (in_combine_l _ _ _ _ Hin) as Hq.
  pose proof (in_combine_r _ _ _ _ Hin) as Hc.
  pose proof (minmax_scale_scaled (map fst hourly)) as Aq.
  pose proof (minmax_scale_scaled (map snd hourly)) as Ac.
  rewrite List.Forall_forall in Aq, Ac. cbn. split; auto.
Qed.

(** *** groupby('QS').mean() *)

(** What the groups keep: a label of the rows, a total of between 0 and
    the count. *)
Lemma group_insert_kept (P : Q -> Prop) key value groups :
  P key -> scaled value ->
  Forall (fun g => P (fst g) /\ 0 <= fst (snd g)
                   /\ fst (snd g) <= inject_Z (Zpos (snd (snd g)))) groups ->
  Forall (fun g => P (fst g) /\ 0 <= fst (snd g)
                   /\ fst (snd g) <= inject_Z (Zpos (snd (snd g))))
         (group_insert key value groups).
Proof.
  intros Hkey [Hv0 Hv1].
  induction 1 as [|[k [total count]] rest (Hk & Ht0 & Ht1) Hrest IH]; cbn.
  - constructor; [|constructor]. cbn. repeat split; auto.
  - cbn in Hk, Ht0, Ht1. destruct (key ?= k).
    + constructor; [|exact Hrest]. cbn. split; [exact Hk|]. split; [lra|].
      rewrite Pos2Z.inj_succ. unfold Z.succ. rewrite inject_Z_plus.
      change (inject_Z 1) with 1. lra.
    + constructor; [cbn; repeat split; auto|].
      constructor; [cbn; repeat split; auto | exact Hrest].
    + constructor; [cbn; repeat split; auto | exact IH].
Qed.

Lemma group_insert_keys (P : Q -> Prop) key value groups :
  P key -> Forall (fun g => P (fst g)) groups ->
  Forall (fun g => P (fst g)) (group_insert key value groups).
Proof.
  intros Hkey.
  induction 1 as [|[k [total count]] rest Hk Hrest IH]; cbn.
  - repeat constructor. exact Hkey.
  - destruct (key ?= k); repeat constructor; auto.
Qed.

Lemma group_insert_increasing key value groups :
  increasing (map fst groups) ->
  increasing (map fst (group_insert key value groups)).
Proof.
  unfold increasing.
  induction groups as [|[k [total count]] rest IH]; cbn; intros Hs.
  - repeat constructor.
  - inversion Hs as [|? ? Hrest Hall]; subst.
    destruct (key ?= k) eqn:E; cbn.
    + constructor; assumption.
    + apply Qlt_alt in E. constructor; [exact Hs|].
      constructor; [exact E|].
      apply (List.Forall_impl (P := Qlt k)); [|exact Hall].
      intros y Hy. lra.
    + apply Qgt_alt in E. constructor; [now apply IH|].
      rewrite List.Forall_map.
      apply (group_insert_keys (fun y => k < y)); [exact E|].
      now rewrite <- List.Forall_map.
Qed.

Lemma groups_invariant (P : Q -> Prop) rows : forall groups,
  Forall (fun kv => P (fst kv) /\ scaled (snd kv)) rows ->
  Forall (fun g => P (fst g) /\ 0 <= fst (snd g)
                   /\ fst (snd g) <= inject_Z (Zpos (snd (snd g)))) groups ->
  increasing (map fst groups) ->
  let result := fold_left (fun groups '(k, v) => group_insert k v groups)
                          rows groups in
  Forall (fun g => P (fst g) /\ 0 <= fst (snd g)
                   /\ fst (snd g) <= inject_Z (Zpos (snd (snd g)))) result
  /\ increasing (map fst result).
Proof.
  induction rows as [|[k v] rest IH]; intros groups Hrows Hgroups Hinc; cbn.
  - split; assumption.
  - inversion Hrows as [|? ? [Hk Hv] Hrest]; subst. cbn in Hk, Hv.
    apply IH; [exact Hrest | |].
    + now apply group_insert_kept.
    + now apply group_insert_increasing.
Qed.

Lemma groupby_mean_frame (P : Q -> Prop) rows :
  Forall (fun kv => P (fst kv) /\ scaled (snd kv)) rows ->
  Forall (fun kv => P (fst kv) /\ scaled (snd kv)) (groupby_mean rows)
  /\ increasing (map fst (groupby_mean rows)).
Proof.
  intros Hrows. unfold groupby_mean.
  destruct (groups_invariant P rows [] Hrows) as [Hg Hinc];
    [constructor | constructor |].
  split.
  - rewrite List.Forall_map.
    apply (List.Forall_impl (P := fun g => P (fst g) /\ 0 <= fst (snd g)
                   /\ fst (snd g) <= inject_Z (Zpos (snd (snd g)))));
      [|exact Hg].
    intros [k [total count]] (Hk & H0 & H1). cbn in *.
    split; [exact Hk|]. split.
    + apply Qle_shift_div_l; [reflexivity | lra].
    + apply Qle_shift_div_r; [reflexivity | lra].
  - rewrite map_map. erewrite map_ext; [exact Hinc|].
    intros [k [total count]]. reflexivity.
Qed.

Lemma filter_Forall {A : Type} (P : A -> Prop) (f : A -> bool) (l : list A) :
  Forall P l -> Forall P (filter (fun r => f r) l).
Proof.
  induction 1 as [|a t Ha Ht IH]; [constructor|].
  rewrite filter_cons. destruct (decide _); [constructor|]; assumption.
Qed.

Lemma filter_Forall_test {A : Type} (f : A -> bool) (l : list A) :
  Forall (fun r => f r = true) (filter (fun r => f r) l).
Proof.
  induction l as [|a t IH]; [constructor|].
  rewrite filter_cons. destruct (decide _) as [H|H]; [constructor|]; auto.
  now apply Is_true_true.
Qed.

Lemma limb_of_frame (P : Q -> Prop) p rows :
  Forall (fun s => P s.(QS) /\ scaled s.(CS)) rows ->
  Forall (fun kv => P (fst kv) /\ scaled (snd kv)) (limb_of p rows)
  /\ increasing (map fst (limb_of p rows)).
Proof.
  intros Hrows. unfold limb_of. apply groupby_mean_frame.
  rewrite List.Forall_map. apply filter_Forall.
  apply (List.Forall_impl (P := fun s => P (QS s) /\ scaled (CS s)));
    [|exact Hrows].
  intros s H. exact H.
Qed.

(** *** pd.concat(axis=1, sort=True) *)

Lemma concat_columns_nil_l b :
  concat_columns [] b
  = map (fun '(k, v) => {| x := k; rise := None; fall := Some v |}) b.
Proof. destruct b; reflexivity. Qed.

Lemma concat_columns_nil_r a :
  concat_columns a []
  = map (fun '(k, v) => {| x := k; rise := Some v; fall := None |}) a.
Proof. destruct a as [|[ka va] a']; reflexivity. Qed.

Lemma concat_columns_cons ka va a' kb vb b' :
  concat_columns ((ka, va) :: a') ((kb, vb) :: b')
  = match ka ?= kb with
    | Lt => {| x := ka; rise := Some va; fall := None |}
            :: concat_columns a' ((kb, vb) :: b')
    | Eq => {| x := ka; rise := Some va; fall := Some vb |}
            :: concat_columns a' b'
    | Gt => {| x := kb; rise := None; fall := Some vb |}
            :: concat_columns ((ka, va) :: a') b'
    end.
Proof. cbn. destruct (ka ?= kb); reflexivity. Qed.

Lemma concat_columns_frame (P : Q -> Prop) a : forall b,
  Forall (fun kv => P (fst kv) /\ scaled (snd kv)) a ->
  Forall (fun kv => P (fst kv) /\ scaled (snd kv)) b ->
  limb_frame P (concat_columns a b).
Proof.
  unfold limb_frame.
  induction a as [|[ka va] a' IHa]; intros b Ha Hb.
  - rewrite concat_columns_nil_l, List.Forall_map.
    apply (List.Forall_impl (P := fun kv => P (fst kv) /\ scaled (snd kv)));
      [|exact Hb].
    intros [k v] [Hk Hv]. cbn. auto.
  - induction b as [|[kb vb] b' IHb].
    + rewrite concat_columns_nil_r, List.Forall_map.
      apply (List.Forall_impl (P := fun kv => P (fst kv) /\ scaled (snd kv)));
        [|exact Ha].
      intros [k v] [Hk Hv]. cbn. auto.
    + rewrite concat_columns_cons.
      inversion Ha as [|? ? [Hka Hva] Ha']; subst.
      inversion Hb as [|? ? [Hkb Hvb] Hb']; subst.
      cbn in Hka, Hva, Hkb, Hvb.
      destruct (ka ?= kb).
      * constructor; [cbn; auto | now apply IHa].
      * constructor; [cbn; auto | now apply IHa].
      * constructor; [cbn; auto | now apply IHb].
Qed.

Lemma concat_columns_labels (P : Q -> Prop) a : forall b,
  Forall (fun kv => P (fst kv)) a ->
  Forall (fun kv => P (fst kv)) b ->
  Forall (fun r => P r.(x)) (concat_columns a b).
Proof.
  induction a as [|[ka va] a' IHa]; intros b Ha Hb.
  - rewrite concat_columns_nil_l, List.Forall_map.
    apply (List.Forall_impl (P := fun kv => P (fst kv))); [|exact Hb].
    intros [k v] Hk. exact Hk.
  - induction b as [|[kb vb] b' IHb].
    + rewrite concat_columns_nil_r, List.Forall_map.
      apply (List.Forall_impl (P := fun kv => P (fst kv))); [|exact Ha].
      intros [k v] Hk. exact Hk.
    + rewrite concat_columns_cons.
      inversion Ha as [|? ? Hka Ha']; subst.
      inversion Hb as [|? ? Hkb Hb']; subst.
      destruct (ka ?= kb).
      * constructor; [exact Hka | now apply IHa].
      * constructor; [exact Hka | now apply IHa].
      * constructor; [exact Hkb | now apply IHb].
Qed.

Lemma concat_columns_increasing a : forall b,
  increasing (map fst a) -> increasing (map fst b) ->
  increasing (map x (concat_columns a b)).
Proof.
  unfold increasing.
  induction a as [|[ka va] a' IHa]; intros b Ha Hb.
  - rewrite concat_columns_nil_l, map_map.
    erewrite map_ext; [exact Hb|]. intros [k v]. reflexivity.
  - induction b as [|[kb vb] b' IHb].
    + rewrite concat_columns_nil_r, map_map.
      erewrite map_ext; [exact Ha|]. intros [k v]. reflexivity.
    + rewrite concat_columns_cons.
      cbn [map fst] in Ha, Hb.
      inversion Ha as [|? ? Ha' Hka]; subst.
      inversion Hb as [|? ? Hb' Hkb]; subst.
      rewrite List.Forall_map in Hka, Hkb.
      destruct (ka ?= kb) eqn:E.
      * apply Qeq_alt in E. cbn [map x]. constructor; [now apply IHa|].
        rewrite List.Forall_map.
        apply (concat_columns_labels (fun y => ka < y)); [exact Hka|].
        apply (List.Forall_impl (P := fun kv => kb < fst kv)); [|exact Hkb].
        intros kv H. lra.
      * apply Qlt_alt in E. cbn [map x]. constructor; [now apply IHa|].
        rewrite List.Forall_map.
        apply (concat_columns_labels (fun y => ka < y)); [exact Hka|].
        constructor; [exact E|].
        apply (List.Forall_impl (P := fun kv => kb < fst kv)); [|exact Hkb].
        intros kv H. lra.
      * apply Qgt_alt in E. cbn [map x]. constructor; [now apply IHb|].
        rewrite List.Forall_map.
        apply (concat_columns_labels (fun y => kb < y)); [|exact Hkb].
        constructor; [exact E|].
        apply (List.Forall_impl (P := fun kv => ka < fst kv)); [|exact Hka].
        intros kv H. lra.
Qed.

(** *** interpolate(method='linear') *)

Lemma next_valid_scaled col d v :
  Forall scaled_or_nan col -> next_valid col = Some (d, v) -> scaled v.
Proof.
  intros Hcol. revert d v.
  induction Hcol as [|a t Ha Ht IH]; intros d v; cbn; [discriminate|].
  destruct a as [w|].
  - intros E. injection E as <- <-. exact Ha.
  - destruct (next_valid t) as [[d' v']|]; [|discriminate].
    intros E. injection E as <- <-. now apply (IH d').
Qed.

Lemma Qnat_pos_succ n : 0 < Qnat (S n).
Proof.
  unfold Qnat. change 0 with (inject_Z 0). rewrite <- Zlt_Qlt. lia.
Qed.

Lemma Qnat_le a b : (a <= b)%nat -> Qnat a <= Qnat b.
Proof. intros H. unfold Qnat. rewrite <- Zle_Qle. lia. Qed.

(** The value put in a gap lies between its two neighbours. *)
Lemma gap_value_scaled v0 v1 k d :
  scaled v0 -> scaled v1 ->
  scaled (v0 + (v1 - v0) * Qnat k / Qnat (k + d + 1)).
Proof.
  intros [A0 A1] [B0 B1].
  assert (Hn : 0 < Qnat (k + d + 1)).
  { replace (k + d + 1)%nat with (S (k + d)) by lia. apply Qnat_pos_succ. }
  assert (Hk0 : 0 <= Qnat k).
  { unfold Qnat. change 0 with (inject_Z 0). rewrite <- Zle_Qle. lia. }
  assert (Hkn : Qnat k <= Qnat (k + d + 1)) by (apply Qnat_le; lia).
  set (n := Qnat (k + d + 1)) in *. set (t := Qnat k) in *.
  assert (Heq : v0 + (v1 - v0) * t / n == (v0 * (n - t) + v1 * t) / n)
    by (field; lra).
  unfold scaled. rewrite Heq.
  assert (P1 : 0 <= v0 * (n - t)) by (apply Qmult_le_0_compat; lra).
  assert (P2 : 0 <= v1 * t) by (apply Qmult_le_0_compat; lra).
  assert (P3 : 0 <= (1 - v0) * (n - t)) by (apply Qmult_le_0_compat; lra).
  assert (P4 : 0 <= (1 - v1) * t) by (apply Qmult_le_0_compat; lra).
  split.
  - apply Qle_shift_div_l; [exact Hn | lra].
  - apply Qle_shift_div_r; [exact Hn | lra].
Qed.

Lemma interpolate_from_scaled col : forall prev,
  Forall scaled_or_nan col ->
  match prev with Some (v0, _) => scaled v0 | None => True end ->
  Forall scaled_or_nan (interpolate_from prev col).
Proof.
  induction col as [|a t IH]; intros prev Hcol Hprev; cbn; [constructor|].
  inversion Hcol as [|? ? Ha Ht]; subst.
  destruct a as [v|].
  - constructor; [exact Ha|]. apply IH; [exact Ht | exact Ha].
  - destruct prev as [[v0 k]|].
    + constructor.
      * destruct (next_valid t) as [[d v1]|] eqn:E; cbn; [|exact Hprev].
        apply gap_value_scaled; [exact Hprev|].
        now apply (next_valid_scaled t d v1).
      * apply IH; [exact Ht | exact Hprev].
    + constructor; [exact I|]. apply IH; [exact Ht | exact I].
Qed.

Lemma interpolate_column_scaled col :
  Forall scaled_or_nan col -> Forall scaled_or_nan (interpolate_column col).
Proof. intros H. unfold interpolate_column. now apply interpolate_from_scaled. Qed.

Lemma interpolate_column_length col :
  length (interpolate_column col) = length col.
Proof. apply ZueccoFacts.interpolate_from_length. Qed.

Lemma interpolate_labels frame : map x (interpolate frame) = map x frame.
Proof.
  unfold interpolate. rewrite map_map.
  set (rs := interpolate_column (map rise frame)).
  set (fs := interpolate_column (map fall frame)).
  assert (Hr : length rs = length frame)
    by (unfold rs; now rewrite interpolate_column_length, length_map).
  assert (Hf : length fs = length frame)
    by (unfold fs; now rewrite interpolate_column_length, length_map).
  clearbody rs fs. revert rs fs Hr Hf.
  induction frame as [|r t IH]; intros rs fs Hr Hf; [reflexivity|].
  destruct rs as [|a rs]; [discriminate|]. destruct fs as [|b fs]; [discriminate|].
  cbn. f_equal. apply IH; cbn in Hr, Hf; lia.
Qed.

Lemma frame_labels (P : Q -> Prop) frame :
  limb_frame P frame -> Forall P (map x frame).
Proof.
  intros H. rewrite List.Forall_map.
  apply (List.Forall_impl (P := fun r => P (x r) /\ scaled_or_nan (rise r)
                                         /\ scaled_or_nan (fall r)));
    [|exact H]. intros r Hrow. apply Hrow.
Qed.

Lemma frame_rise (P : Q -> Prop) frame :
  limb_frame P frame -> Forall scaled_or_nan (map rise frame).
Proof.
  intros H. rewrite List.Forall_map.
  apply (List.Forall_impl (P := fun r => P (x r) /\ scaled_or_nan (rise r)
                                         /\ scaled_or_nan (fall r)));
    [|exact H]. intros r Hrow. apply Hrow.
Qed.

Lemma frame_fall (P : Q -> Prop) frame :
  limb_frame P frame -> Forall scaled_or_nan (map fall frame).
Proof.
  intros H. rewrite List.Forall_map.
  apply (List.Forall_impl (P := fun r => P (x r) /\ scaled_or_nan (rise r)
                                         /\ scaled_or_nan (fall r)));
    [|exact H]. intros r Hrow. apply Hrow.
Qed.

Lemma zipped_frame (P : Q -> Prop) xs : forall rs fs,
  Forall P xs -> Forall scaled_or_nan rs -> Forall scaled_or_nan fs ->
  limb_frame P
    (map (fun '(k, (r, f)) => {| x := k; rise := r; fall := f |})
         (combine xs (combine rs fs))).
Proof.
  unfold limb_frame.
  induction xs as [|k xs IH]; intros rs fs Hxs Hrs Hfs; [constructor|].
  destruct Hrs as [|a rs Ha Hrs]; [constructor|].
  destruct Hfs as [|b fs Hb Hfs]; [constructor|].
  inversion Hxs as [|? ? Hk Hxs']; subst.
  cbn. constructor; [cbn; auto | now apply IH].
Qed.

Lemma interpolate_frame (P : Q -> Prop) frame :
  limb_frame P frame -> limb_frame P (interpolate frame).
Proof.
  intros H. unfold interpolate. apply zipped_frame.
  - now apply frame_labels.
  - apply interpolate_column_scaled. now apply (frame_rise P).
  - apply interpolate_column_scaled. now apply (frame_fall P).
Qed.

(** *** The limbs *)

(** The limbs of rows whose discharge satisfies [P] and whose concentration
    is scaled: labels that satisfy [P], in increasing order, and cells that
    are NaN or scaled. *)
Lemma make_limbs_frame (P : Q -> Prop) rows :
  Forall (fun s => P s.(QS) /\ scaled s.(CS)) rows ->
  limb_frame P (make_limbs rows) /\ increasing (map x (make_limbs rows)).
Proof.
  intros Hrows. unfold make_limbs.
  destruct (limb_of_frame P rising rows Hrows) as [Hr Ir].
  destruct (limb_of_frame P falling rows Hrows) as [Hf If].
  split.
  - apply interpolate_frame. now apply concat_columns_frame.
  - rewrite interpolate_labels. now apply concat_columns_increasing.
Qed.

(** *** np.interp *)






(** *** lloyd.py: the samples and the difference index *)



Lemma scaled_not_negative a : scaled_or_nan a -> not_negative a.
Proof. destruct a as [v|]; [intros [H _]; exact H | exact id]. Qed.



(** *** The limbs *)

(** X15: for every hourly series, the limbs frame that the three engines
    build (group means per rising and falling limb, outer join, linear
    interpolation) has labels that are not negative and stand in strictly
    increasing order, and cells that are NaN or not negative. *)
Theorem limbs_of_event hourly :
  Forall (fun r => 0 <= r.(x) /\ not_negative r.(rise)
                   /\ not_negative r.(fall))
         (make_limbs (prepare hourly))
  /\ increasing (map x (make_limbs (prepare hourly))).
Proof.
  destruct (make_limbs_frame scaled (prepare hourly)) as [Hframe Hinc].
  { apply (List.Forall_impl (P := fun s => scaled (QS s) /\ scaled (CS s)));
      [|apply prepare_scaled]. intros s H. exact H. }
  split; [|exact Hinc].
  unfold limb_frame in Hframe.
  apply (List.Forall_impl
           (P := fun r => scaled (x r) /\ scaled_or_nan (rise r)
                          /\ scaled_or_nan (fall r)));
    [|exact Hframe].
  intros r ([H _] & Hr & Hf).
  split; [exact H|]. split; now apply scaled_not_negative.
Qed.

End RangeFacts.

(** ** zuecco.py: the hysteresis class *)

Module ClassFacts.

Import Num Frames Zuecco ZueccoClass NumFacts.
#[local] Open Scope Q_scope.

(** *** The smallest and the largest differential area *)

Lemma min_skipna_none l : min_skipna l = None -> sum_skipna l = 0.
Proof.
  induction l as [|[v|] rest IH]; cbn; [reflexivity | | exact IH].
  destruct (min_skipna rest); discriminate.
Qed.

Lemma max_skipna_none l : max_skipna l = None -> sum_skipna l = 0.
Proof.
  induction l as [|[v|] rest IH]; cbn; [reflexivity | | exact IH].
  destruct (max_skipna rest); discriminate.
Qed.

(** When the smallest area is positive, so is the sum. *)
Lemma min_positive_sum l : forall m,
  min_skipna l = Some m -> 0 < m -> 0 < sum_skipna l.
Proof.
  induction l as [|[v|] rest IH]; intros m; cbn; [discriminate | | apply IH].
  destruct (min_skipna rest) as [m'|] eqn:E; intros H Hm; injection H as <-.
  - pose proof (Q.le_min_l v m'). pose proof (Q.le_min_r v m').
    assert (0 < sum_skipna rest) by (apply (IH m'); [reflexivity | lra]).
    lra.
  - rewrite (min_skipna_none rest E). lra.
Qed.

(** When the largest area is negative, so is the sum. *)
Lemma max_negative_sum l : forall m,
  max_skipna l = Some m -> m < 0 -> sum_skipna l < 0.
Proof.
  induction l as [|[v|] rest IH]; intros m; cbn; [discriminate | | apply IH].
  destruct (max_skipna rest) as [m'|] eqn:E; intros H Hm; injection H as <-.
  - pose proof (Q.le_max_l v m'). pose proof (Q.le_max_r v m').
    assert (sum_skipna rest < 0) by (apply (IH m'); [reflexivity | lra]).
    lra.
  - rewrite (max_skipna_none rest E). lra.
Qed.

(** The smallest area is at most the largest. *)
Lemma min_le_max l :
  match min_skipna l, max_skipna l with
  | Some a, Some b => a <= b
  | None, None => True
  | _, _ => False
  end.
Proof.
  induction l as [|[v|] rest IH]; cbn; [exact I | | exact IH].
  destruct (min_skipna rest) as [a|], (max_skipna rest) as [b|];
    try contradiction.
  - pose proof (Q.le_min_l v a). pose proof (Q.le_max_l v b). lra.
  - lra.
Qed.

(** *** The class *)

(** What a class says about the areas and the index. *)
Lemma determine_class_cases mn mx h cmax cmin :
  let class := _determine_class mn mx h cmax cmin in
  (0 <= class <= 8)%Z
  /\ ((class = 1 \/ class = 5)%Z -> ltb (Some 0) mn = true)
  /\ ((class = 4 \/ class = 8)%Z -> ltb mx (Some 0) = true)
  /\ ((class = 2 \/ class = 6)%Z -> 0 <= h)
  /\ ((class = 3 \/ class = 7)%Z -> h < 0)
  /\ ((1 <= class <= 4)%Z -> cmin < cmax)
  /\ ((5 <= class <= 8)%Z -> cmax <= cmin).
Proof.
  unfold _determine_class.
  destruct (Qltb cmin cmax) eqn:Ec;
    [apply Qltb_lt in Ec | apply Qltb_ge in Ec];
    repeat match goal with
      | |- context [if ?b then _ else _] => destruct b eqn:?
      end;
    repeat match goal with
      | H : (_ && _)%bool = true |- _ =>
          apply andb_true_iff in H; destruct H
      end;
    repeat match goal with
      | H : Qle_bool _ _ = true |- _ => apply Qle_bool_iff in H
      | H : Qltb _ _ = true |- _ => apply Qltb_lt in H
      end;
    cbv zeta;
    (split; [lia|]);
    repeat split; intros; first [assumption | lia | lra].
Qed.

Lemma find_class_cases xs ys mn mx h class :
  _find_hysteresis_class xs ys mn mx h = Some class ->
  class = 0%Z \/ exists cmax cmin, class = _determine_class mn mx h cmax cmin.
Proof.
  unfold _find_hysteresis_class.
  destruct xs as [|x0 xs']; [discriminate|].
  destruct ys as [|y0 ys']; [discriminate|].
  destruct (negb _).
  - intros H. injection H as <-. right. eauto.
  - destruct (negb _); intros H; injection H as <-; [right; eauto | now left].
Qed.

Lemma find_class_defined xs ys mn mx h :
  xs <> [] -> ys <> [] ->
  exists class, _find_hysteresis_class xs ys mn mx h = Some class.
Proof.
  intros Hx Hy. unfold _find_hysteresis_class.
  destruct xs as [|x0 xs']; [contradiction|].
  destruct ys as [|y0 ys']; [contradiction|].
  destruct (negb _); [eauto|]. destruct (negb _); eauto.
Qed.

Lemma ltb_zero_some mn : ltb (Some 0) mn = true -> exists m, mn = Some m /\ 0 < m.
Proof.
  destruct mn as [m|]; cbn; [|discriminate].
  intros H. apply Qltb_lt in H. eauto.
Qed.

Lemma ltb_some_zero mx : ltb mx (Some 0) = true -> exists m, mx = Some m /\ m < 0.
Proof.
  destruct mx as [m|]; cbn; [|discriminate].
  intros H. apply Qltb_lt in H. eauto.
Qed.

(** X16: for every hourly series that is not empty,
    [calculate_zuecco_metrics] returns a class between 0 and 8 that agrees
    with the sign of the index it returns: classes 1 and 5 come with a
    positive h_index, classes 2 and 6 with one that is not negative, and
    classes 3, 4, 7 and 8 with a negative one. *)
Theorem class_agrees_with_index hourly :
  hourly <> [] ->
  exists m,
    calculate_zuecco_metrics hourly = Some m
    /\ (0 <= m.(hyst_class) <= 8)%Z
    /\ ((m.(hyst_class) = 1 \/ m.(hyst_class) = 5)%Z -> 0 < m.(h_index_))
    /\ ((m.(hyst_class) = 2 \/ m.(hyst_class) = 6)%Z -> 0 <= m.(h_index_))
    /\ ((m.(hyst_class) = 3 \/ m.(hyst_class) = 4
         \/ m.(hyst_class) = 7 \/ m.(hyst_class) = 8)%Z -> m.(h_index_) < 0).
Proof.
  intros Hne. unfold calculate_zuecco_metrics.
  set (diff_area := diff_areas (sample_limbs (make_limbs (prepare hourly)))).
  set (mn := if (0 <? length diff_area)%nat then min_skipna diff_area else NaN).
  set (mx := if (0 <? length diff_area)%nat then max_skipna diff_area else NaN).
  assert (Hmn : forall m, mn = Some m -> min_skipna diff_area = Some m).
  { unfold mn. destruct (0 <? length diff_area)%nat; [auto | discriminate]. }
  assert (Hmx : forall m, mx = Some m -> max_skipna diff_area = Some m).
  { unfold mx. destruct (0 <? length diff_area)%nat; [auto | discriminate]. }
  destruct (_find_hysteresis_class (map fst hourly) (map snd hourly) mn mx
              (h_index_of diff_area)) as [class|] eqn:E.
  - eexists. split; [reflexivity|]. cbn [hyst_class h_index_].
    destruct (find_class_cases _ _ _ _ _ _ E) as [-> | (cmax & cmin & ->)].
    + repeat split; intros; lia.
    + destruct (determine_class_cases mn mx (h_index_of diff_area) cmax cmin)
        as (Hrange & H15 & H48 & H26 & H37 & _).
      set (class := _determine_class mn mx (h_index_of diff_area) cmax cmin) in *.
      split; [exact Hrange|]. split; [|split].
      * intros Hc. destruct (ltb_zero_some mn (H15 Hc)) as (m & Em & Hm).
        unfold h_index_of. now apply (min_positive_sum diff_area m); auto.
      * exact H26.
      * intros [Hc | [Hc | [Hc | Hc] ] ];
          try (apply H37; auto; fail);
          (destruct (ltb_some_zero mx) as (m & Em & Hm); [apply H48; auto|];
           unfold h_index_of; now apply (max_negative_sum diff_area m); auto).
  - exfalso.
    destruct (find_class_defined (map fst hourly) (map snd hourly) mn mx
                (h_index_of diff_area)) as [class Hclass].
    + destruct hourly; [contradiction | discriminate].
    + destruct hourly; [contradiction | discriminate].
    + rewrite Hclass in E. discriminate.
Qed.

Lemma class_agrees_with_index_witness :
  exists m,
    calculate_zuecco_metrics Harp.early_peak_event = Some m
    /\ (0 <= m.(hyst_class) <= 8)%Z
    /\ ((m.(hyst_class) = 1 \/ m.(hyst_class) = 5)%Z -> 0 < m.(h_index_))
    /\ ((m.(hyst_class) = 2 \/ m.(hyst_class) = 6)%Z -> 0 <= m.(h_index_))
    /\ ((m.(hyst_class) = 3 \/ m.(hyst_class) = 4
         \/ m.(hyst_class) = 7 \/ m.(hyst_class) = 8)%Z -> m.(h_index_) < 0).
Proof.
  apply (class_agrees_with_index Harp.early_peak_event). discriminate.
Defined.

(** *** A concentration that does not change *)

Lemma Qmin_same c : Qmin c c = c.
Proof. unfold Qmin, GenericMinMax.gmin. destruct (c ?= c); reflexivity. Qed.

Lemma Qmax_same c : Qmax c c = c.
Proof. unfold Qmax, GenericMinMax.gmax. destruct (c ?= c); reflexivity. Qed.

Lemma fold_min_constant c l :
  Forall (fun v => v = c) l -> fold_left Qmin l c = c.
Proof.
  induction 1 as [|w t -> _ IH]; cbn; [reflexivity|].
  rewrite Qmin_same. exact IH.
Qed.

Lemma fold_max_constant c l :
  Forall (fun v => v = c) l -> fold_left Qmax l c = c.
Proof.
  induction 1 as [|w t -> _ IH]; cbn; [reflexivity|].
  rewrite Qmax_same. exact IH.
Qed.

Lemma slice_min_constant c l :
  l <> [] -> Forall (fun v => v = c) l -> slice_min l = c.
Proof.
  destruct l as [|v rest]; [contradiction|]. intros _ H.
  inversion H as [|? ? -> Hrest]; subst. cbn. now apply fold_min_constant.
Qed.

Lemma slice_max_constant c l :
  l <> [] -> Forall (fun v => v = c) l -> slice_max l = c.
Proof.
  destruct l as [|v rest]; [contradiction|]. intros _ H.
  inversion H as [|? ? -> Hrest]; subst. cbn. now apply fold_max_constant.
Qed.

Lemma firstn_Forall {A : Type} (P : A -> Prop) n l :
  Forall P l -> Forall P (firstn n l).
Proof.
  intros H. revert n. induction H as [|a t Ha Ht IH]; intros [|n]; cbn;
    constructor; auto.
Qed.

Lemma skipn_Forall {A : Type} (P : A -> Prop) n l :
  Forall P l -> Forall P (skipn n l).
Proof.
  intros H. revert n. induction H as [|a t Ha Ht IH]; intros [|n]; cbn;
    try constructor; auto.
Qed.

Lemma argmax_from_bound l : forall best best_i i,
  (best_i < i)%nat -> (argmax_from best best_i i l < i + length l)%nat.
Proof.
  induction l as [|v rest IH]; intros best best_i i Hi; cbn; [lia|].
  destruct (Qltb best v).
  - specialize (IH v i (S i)). lia.
  - specialize (IH best best_i (S i)). lia.
Qed.

Lemma argmax_bound l : l <> [] -> (argmax l < length l)%nat.
Proof.
  destruct l as [|v rest]; [contradiction|]. intros _. cbn.
  pose proof (argmax_from_bound rest v 0%nat 1%nat). lia.
Qed.

(** X17: an event whose concentration never changes is class 0 (no
    hysteresis), whatever the discharge and whatever areas and index are
    passed in. *)
Theorem constant_concentration_is_class_0 hourly c mn mx h :
  hourly <> [] ->
  Forall (fun p => snd p = c) hourly ->
  _find_hysteresis_class (map fst hourly) (map snd hourly) mn mx h = Some 0%Z.
Proof.
  intros Hne Hall.
  assert (Hy : Forall (fun v => v = c) (map snd hourly))
    by (rewrite List.Forall_map; exact Hall).
  pose proof (argmax_bound (map fst hourly)) as Hpos.
  destruct hourly as [|[q0 c0] rest]; [contradiction|].
  unfold _find_hysteresis_class. cbn [map fst snd] in *.
  set (ys := c0 :: map snd rest) in *.
  set (pos := argmax (q0 :: map fst rest)) in *.
  assert (Hlen : (pos < length ys)%nat).
  { unfold ys. cbn [length] in *. rewrite length_map in *. apply Hpos. discriminate. }
  assert (H1 : firstn (pos + 1) ys <> []).
  { replace (pos + 1)%nat with (S pos) by lia. unfold ys. discriminate. }
  assert (H2 : skipn pos ys <> []).
  { intros E. apply (f_equal (@length Q)) in E.
    rewrite length_skipn in E. change (length (@nil Q)) with 0%nat in E. lia. }
  rewrite (slice_min_constant c _ H1 (firstn_Forall _ _ _ Hy)).
  rewrite (slice_max_constant c _ H1 (firstn_Forall _ _ _ Hy)).
  rewrite (slice_min_constant c _ H2 (skipn_Forall _ _ _ Hy)).
  rewrite (slice_max_constant c _ H2 (skipn_Forall _ _ _ Hy)).
  rewrite !Qeq_bool_refl. reflexivity.
Qed.

Lemma constant_concentration_is_class_0_witness :
  _find_hysteresis_class (map fst [(1, 5); (2, 5); (3, 5); (2, 5)])
    (map snd [(1, 5); (2, 5); (3, 5); (2, 5)]) (Some 1) (Some 2) 3
  = Some 0%Z.
Proof.
  apply (constant_concentration_is_class_0 [(1, 5); (2, 5); (3, 5); (2, 5)] 5).
  - discriminate.
  - repeat constructor.
Defined.

End ClassFacts.

(** ** gcs_core.py: the slope of a segment *)

Module SlopeFacts.

Import Num Slope NumFacts.
#[local] Open Scope string_scope.
#[local] Open Scope Q_scope.


Lemma Qltb_comp a a' b : a == a' -> Qltb a b = Qltb a' b.
Proof.
  intros E. destruct (Qltb a b) eqn:H1, (Qltb a' b) eqn:H2; try reflexivity.
  - apply Qltb_lt in H1. apply Qltb_ge in H2. lra.
  - apply Qltb_ge in H1. apply Qltb_lt in H2. lra.
Qed.

Lemma Qabs_swap a b : Qabs (a - b) == Qabs (b - a).
Proof.
  assert (E : a - b == - (b - a)) by ring.
  rewrite E. apply Qabs_opp.
Qed.

(** The quotient of two differences does not change when both are taken
    the other way round. *)
Lemma quotient_swap (n1 n2 d1 d2 : Q) :
  equiv (div (Some (n2 - n1)) (Some (d2 - d1)))
        (div (Some (n1 - n2)) (Some (d1 - d2))).
Proof.
  unfold div.
  destruct (Qeq_bool (d2 - d1) 0) eqn:E1, (Qeq_bool (d1 - d2) 0) eqn:E2; cbn.
  - exact I.
  - apply Qeq_bool_iff in E1. apply Qeq_bool_neq in E2. apply E2. lra.
  - apply Qeq_bool_iff in E2. apply Qeq_bool_neq in E1. apply E1. lra.
  - apply Qeq_bool_neq in E1. apply Qeq_bool_neq in E2. field. split; lra.
Qed.

Lemma guarded_quotient_swap (n1 n2 d1 d2 : Q) :
  equiv (if ltb (abs (Some (d2 - d1))) tiny then NaN
         else div (Some (n2 - n1)) (Some (d2 - d1)))
        (if ltb (abs (Some (d1 - d2))) tiny then NaN
         else div (Some (n1 - n2)) (Some (d1 - d2))).
Proof.
  cbn [abs option_map ltb tiny].
  rewrite (Qltb_comp _ _ _ (Qabs_swap d2 d1)).
  destruct (Qltb _ _); [exact I | apply quotient_swap].
Qed.

(** X18: the slope of a segment does not depend on its direction:
    exchanging the two end points (q1 with q2 and c1 with c2) gives the
    same result, the same number or NaN in both, for the linear and for the
    log-log kind. *)
Theorem slope_of_reversed_segment log10 q1 q2 c1 c2 kind :
  equiv (compute_cq_slope log10 q1 q2 c1 c2 kind)
        (compute_cq_slope log10 q2 q1 c2 c1 kind).
Proof.
  unfold compute_cq_slope. destruct (kind =? "linear").
  - destruct q1 as [q1|], q2 as [q2|], c1 as [c1|], c2 as [c2|];
      try exact I;
      try (cbn; repeat match goal with
                  | |- context [Qltb ?a ?b] => destruct (Qltb a b)
                  end; exact I).
    apply guarded_quotient_swap.
  - destruct q1 as [q1|], q2 as [q2|], c1 as [c1|], c2 as [c2|];
      cbn [leb orb];
      repeat match goal with
        | |- context [Qle_bool ?a ?b] => destruct (Qle_bool a b)
        end;
      cbn [orb]; try exact I;
      try (cbn; repeat match goal with
                  | |- context [Qltb ?a ?b] => destruct (Qltb a b)
                  end; exact I).
    apply (guarded_quotient_swap (log10 c1) (log10 c2) (log10 q1) (log10 q2)).
Qed.



(** X20: a segment whose two discharges are equal has no slope (NaN)
    in either kind, and the log-log slope is NaN as soon as one of the
    four values is zero or negative. *)
Theorem undefined_slopes log10 q1 q2 c1 c2 kind :
  (q1 = q2 -> compute_cq_slope log10 q1 q2 c1 c2 kind = NaN)
  /\ (kind <> "linear" ->
      leb q1 (Some 0) || leb q2 (Some 0) || leb c1 (Some 0) || leb c2 (Some 0)
      = true ->
      compute_cq_slope log10 q1 q2 c1 c2 kind = NaN).
Proof.
  split.
  - intros <-. unfold compute_cq_slope.
    assert (Hflat : forall v : Q, ltb (abs (Some (v - v))) tiny = true).
    { intros v. unfold abs, tiny. cbn [option_map ltb]. apply Qltb_lt.
      assert (E : Qabs (v - v) == 0).
      { assert (E0 : v - v == 0) by ring. rewrite E0. reflexivity. }
      rewrite E. reflexivity. }
    destruct (kind =? "linear").
    + destruct q1 as [q|]; cbn [sub lift2]; [now rewrite Hflat|].
      cbn. now destruct c1, c2.
    + destruct (_ || _); [reflexivity|].
      destruct q1 as [q|]; cbn [option_map sub lift2]; [now rewrite Hflat|].
      cbn. now destruct c1, c2.
  - intros Hkind Hguard. unfold compute_cq_slope.
    apply String.eqb_neq in Hkind. rewrite Hkind. now rewrite Hguard.
Qed.

Lemma undefined_slopes_witness :
  compute_cq_slope (fun v => v) (Some 2) (Some 2) (Some 1) (Some 5) "loglog"
  = NaN
  /\ compute_cq_slope (fun v => v) (Some 0) (Some 2) (Some 1) (Some 5) "loglog"
     = NaN.
Proof.
  split.
  - apply (proj1 (undefined_slopes (fun v => v) (Some 2) (Some 2) (Some 1)
                    (Some 5) "loglog")).
    reflexivity.
  - apply (proj2 (undefined_slopes (fun v => v) (Some 0) (Some 2) (Some 1)
                    (Some 5) "loglog")); [discriminate | reflexivity].
Defined.

End SlopeFacts.

(** ** gcs_core.py: the flow dynamics of a segment *)

Module FlowFacts.

Import Num Frames Core FlowDynamics NumFacts.
#[local] Open Scope string_scope.
#[local] Open Scope list_scope.
#[local] Open Scope Q_scope.

(** *** The first position of the maximum *)

Lemma argmax_from_max l : forall pre best best_i,
  (best_i < length pre)%nat ->
  nth best_i pre 0 = best ->
  Forall (fun v => v <= best) pre ->
  let k := argmax_from best best_i (length pre) l in
  (k < length (pre ++ l))%nat
  /\ Forall (fun v => v <= nth k (pre ++ l) 0) (pre ++ l).
Proof.
  induction l as [|v rest IH]; intros pre best best_i Hi Hbest Hpre; cbn.
  - rewrite app_nil_r. split; [exact Hi|]. now rewrite Hbest.
  - assert (Happ : pre ++ v :: rest = (pre ++ [v]) ++ rest)
      by (now rewrite <- app_assoc).
    assert (Hlen : S (length pre) = length (pre ++ [v]))
      by (rewrite length_app; cbn; lia).
    rewrite Happ, Hlen.
    destruct (Qltb best v) eqn:E.
    + apply Qltb_lt in E. apply IH.
      * rewrite <- Hlen. lia.
      * rewrite app_nth2 by lia. now rewrite Nat.sub_diag.
      * apply Forall_app. split.
        -- apply (List.Forall_impl (P := fun w => w <= best)); [|exact Hpre].
           intros w Hw. lra.
        -- constructor; [lra | constructor].
    + apply Qltb_ge in E. apply IH.
      * rewrite <- Hlen. lia.
      * now rewrite app_nth1 by lia.
      * apply Forall_app. split; [exact Hpre|].
        constructor; [exact E | constructor].
Qed.

Lemma argmax_max l :
  l <> [] ->
  (argmax l < length l)%nat /\ Forall (fun v => v <= nth (argmax l) l 0) l.
Proof.
  destruct l as [|v rest]; [contradiction|]. intros _.
  apply (argmax_from_max rest [v] v 0%nat).
  - cbn. lia.
  - reflexivity.
  - constructor; [lra | constructor].
Qed.

Lemma hd_In (l : list Q) : l <> [] -> In (List.hd 0 l) l.
Proof. destruct l; [contradiction|]. intros _. now left. Qed.

Lemma last_In (l : list Q) : l <> [] -> In (List.last l 0) l.
Proof.
  induction l as [|v rest IH]; [contradiction|]. intros _.
  destruct rest as [|w rest']; [now left|].
  right. apply IH. discriminate.
Qed.

Lemma range_nonneg v rest : 0 <= col_max v rest - col_min v rest.
Proof.
  destruct (RangeFacts.col_min_le rest v) as [H1 _].
  destruct (RangeFacts.col_max_ge rest v) as [H2 _]. lra.
Qed.

Section engines.

Variable processed : Type.
Variables harp zuecco lloyd : list (Q * Q * Q) -> outcome (frame * processed).

Let analyze := analyze_segment_flow_dynamics harp zuecco lloyd.

(** *** Too few rows *)

(** A complete row is a row with a discharge. *)
Lemma dropna_some rows :
  dropna rows <> [] ->
  (length rows =? 0)%nat || forallb (fun r => isnan r.(q)) rows = false.
Proof.
  induction rows as [|r rest IH]; [contradiction|].
  cbn [length Nat.eqb orb forallb dropna].
  destruct (q r) as [qv|]; cbn [isnan andb]; [reflexivity|].
  intros H. specialize (IH H). apply orb_false_iff in IH. apply IH.
Qed.

Lemma two_rows_pass rows :
  (2 <= length (dropna rows))%nat ->
  (length rows =? 0)%nat || forallb (fun r => isnan r.(q)) rows = false
  /\ (length (dropna rows) <? 2)%nat = false.
Proof.
  intros H. split.
  - apply dropna_some. destruct (dropna rows); [cbn in H; lia | discriminate].
  - now apply Nat.ltb_ge.
Qed.

(** *** What a result holds *)

Lemma analyze_returns segment_data percentiles has_ccol p25 p50 p75 :
  (2 <= length (dropna segment_data))%nat ->
  percentiles !! "Q_p25" = Some p25 ->
  percentiles !! "Q_p50" = Some p50 ->
  percentiles !! "Q_p75" = Some p75 ->
  let rows := dropna segment_data in
  let q_values := map (fun r => snd (fst r)) rows in
  let times := map (fun r => fst (fst r)) rows in
  exists d,
    analyze segment_data percentiles has_ccol = Returns (Some d)
    /\ d.(peak_q) = nth (argmax q_values) q_values 0
    /\ d.(days_to_peak) = nth (argmax q_values) times 0 - List.hd 0 times
    /\ d.(days_since_peak)
       = List.last times 0 - nth (argmax q_values) times 0
    /\ d.(start_q) = List.hd 0 q_values
    /\ d.(end_q) = List.last q_values 0
    /\ d.(q_range) = match q_values with
                     | v :: rest => col_max v rest - col_min v rest
                     | [] => 0
                     end
    /\ d.(window) = window_of harp zuecco lloyd has_ccol rows
    /\ In d.(flow_phase)
          ["at_peak"; "early_decline"; "late_decline"; "post_peak";
           "rising"; "low"; "stable"]
    /\ In d.(q_level) ["low"; "medium"; "high"]
    /\ In d.(peak_position) ["early"; "middle"; "late"].
Proof.
  intros Hrows H25 H50 H75 rows q_values times.
  unfold analyze, analyze_segment_flow_dynamics.
  destruct (two_rows_pass _ Hrows) as [-> ->].
  fold rows. fold q_values. fold times.
  unfold level_of, phase_of, item. rewrite H25, H50, H75.
  destruct (trend_of q_values _ _ _) as [trend acceleration].
  assert (Hpos : forall a b, In (position_of_peak a b) ["early"; "middle"; "late"]).
  { intros a b. unfold position_of_peak.
    repeat match goal with
      | |- context [if ?b then _ else _] => destruct b
      end; cbn; tauto. }
  repeat match goal with
    | |- context [if ?b then _ else _] => destruct b
    end;
    eexists; (split; [reflexivity|]); cbn [peak_q days_to_peak days_since_peak
      start_q end_q q_range window flow_phase q_level peak_position];
    repeat (split; [reflexivity|]);
    (split; [cbn; tauto|]); (split; [cbn; tauto|]); apply Hpos.
Qed.

End engines.

(** X21: a window with fewer than two complete rows (rows with a number
    in both columns) gives [None]: no percentile is read, so that no
    [KeyError] can arise, and no engine is called. *)
Theorem too_few_rows_give_nothing (processed : Type)
  (harp zuecco lloyd : list (Q * Q * Q) -> outcome (frame * processed))
  segment_data percentiles has_ccol :
  (length (dropna segment_data) < 2)%nat ->
  analyze_segment_flow_dynamics harp zuecco lloyd segment_data percentiles
    has_ccol
  = Returns None.
Proof.
  intros H. unfold analyze_segment_flow_dynamics.
  destruct (_ || _); [reflexivity|].
  apply Nat.ltb_lt in H. now rewrite H.
Qed.

Lemma too_few_rows_give_nothing_witness :
  analyze_segment_flow_dynamics failing_engine failing_engine failing_engine
    (firstn 1 flood_wave) ∅ true
  = Returns None.
Proof.
  apply (too_few_rows_give_nothing string failing_engine failing_engine
           failing_engine (firstn 1 flood_wave) ∅ true).
  vm_compute. lia.
Defined.

(** X22: with two complete rows or more, a percentile mapping without
    the key Q_p75 makes the call raise [KeyError] on that key. *)
Theorem missing_upper_quartile_raises (processed : Type)
  (harp zuecco lloyd : list (Q * Q * Q) -> outcome (frame * processed))
  segment_data percentiles has_ccol :
  (2 <= length (dropna segment_data))%nat ->
  percentiles !! "Q_p75" = None ->
  analyze_segment_flow_dynamics harp zuecco lloyd segment_data percentiles
    has_ccol
  = Raises (Exception "KeyError" "Q_p75").
Proof.
  intros Hrows Hkey. unfold analyze_segment_flow_dynamics.
  destruct (two_rows_pass _ Hrows) as [-> ->].
  unfold level_of, item. now rewrite Hkey.
Qed.

Lemma missing_upper_quartile_raises_witness :
  analyze_segment_flow_dynamics failing_engine failing_engine failing_engine
    flood_wave ∅ true
  = Raises (Exception "KeyError" "Q_p75").
Proof.
  apply (missing_upper_quartile_raises string failing_engine failing_engine
           failing_engine flood_wave ∅ true).
  - vm_compute. lia.
  - reflexivity.
Defined.

(** X23: with two complete rows or more and the three discharge
    percentiles present, the call returns a dictionary whose flow_phase is
    one of at_peak, early_decline, late_decline, post_peak, rising, low and
    stable, whose q_level is low, medium or high, and whose peak_position
    is early, middle or late. *)
Theorem flow_labels (processed : Type)
  (harp zuecco lloyd : list (Q * Q * Q) -> outcome (frame * processed))
  segment_data percentiles has_ccol p25 p50 p75 :
  (2 <= length (dropna segment_data))%nat ->
  percentiles !! "Q_p25" = Some p25 ->
  percentiles !! "Q_p50" = Some p50 ->
  percentiles !! "Q_p75" = Some p75 ->
  exists d,
    analyze_segment_flow_dynamics harp zuecco lloyd segment_data percentiles
      has_ccol
    = Returns (Some d)
    /\ In d.(flow_phase)
          ["at_peak"; "early_decline"; "late_decline"; "post_peak";
           "rising"; "low"; "stable"]
    /\ In d.(q_level) ["low"; "medium"; "high"]
    /\ In d.(peak_position) ["early"; "middle"; "late"].
Proof.
  intros Hrows H25 H50 H75.
  destruct (analyze_returns processed harp zuecco lloyd segment_data
              percentiles has_ccol p25 p50 p75 Hrows H25 H50 H75)
    as (d & E & _ & _ & _ & _ & _ & _ & _ & Hphase & Hlevel & Hpos).
  exists d. split; [exact E|]. split; [exact Hphase|]. split; assumption.
Qed.

Lemma flow_labels_witness :
  exists d,
    analyze_segment_flow_dynamics (window_engine "area" (Some (1 # 4)))
      (window_engine "h_index" (Some (1 # 5)))
      (window_engine "mean_HInew" (Some (1 # 2)))
      flood_wave flow_thresholds true
    = Returns (Some d)
    /\ In d.(flow_phase)
          ["at_peak"; "early_decline"; "late_decline"; "post_peak";
           "rising"; "low"; "stable"]
    /\ In d.(q_level) ["low"; "medium"; "high"]
    /\ In d.(peak_position) ["early"; "middle"; "late"].
Proof.
  apply (flow_labels string (window_engine "area" (Some (1 # 4)))
           (window_engine "h_index" (Some (1 # 5)))
           (window_engine "mean_HInew" (Some (1 # 2)))
           flood_wave flow_thresholds true (Some 2) (Some 4) (Some 6)).
  - vm_compute. lia.
  - reflexivity.
  - reflexivity.
  - reflexivity.
Defined.

(** X24: in the returned dictionary peak_q is at least every discharge
    of the complete rows, start_q and end_q included, and q_range is not
    negative. *)
Theorem peak_of_segment (processed : Type)
  (harp zuecco lloyd : list (Q * Q * Q) -> outcome (frame * processed))
  segment_data percentiles has_ccol p25 p50 p75 :
  (2 <= length (dropna segment_data))%nat ->
  percentiles !! "Q_p25" = Some p25 ->
  percentiles !! "Q_p50" = Some p50 ->
  percentiles !! "Q_p75" = Some p75 ->
  exists d,
    analyze_segment_flow_dynamics harp zuecco lloyd segment_data percentiles
      has_ccol
    = Returns (Some d)
    /\ Forall (fun r => snd (fst r) <= d.(peak_q)) (dropna segment_data)
    /\ d.(start_q) <= d.(peak_q) /\ d.(end_q) <= d.(peak_q)
    /\ 0 <= d.(q_range).
Proof.
  intros Hrows H25 H50 H75.
  destruct (analyze_returns processed harp zuecco lloyd segment_data
              percentiles has_ccol p25 p50 p75 Hrows H25 H50 H75)
    as (d & E & Hpeak & Hto & Hsince & Hstart & Hend & Hrange & _).
  exists d. split; [exact E|].
  set (rows := dropna segment_data) in *.
  set (q_values := map (fun r => snd (fst r)) rows) in *.
  assert (Hne : q_values <> []).
  { unfold q_values. destruct rows; [cbn in Hrows; lia | discriminate]. }
  destruct (argmax_max q_values Hne) as [_ Hmax].
  rewrite <- Hpeak in Hmax. rewrite List.Forall_forall in Hmax.
  split; [|split; [|split] ].
  - rewrite <- List.Forall_map with (f := fun r => snd (fst r))
                                  (P := fun v => v <= peak_q d).
    rewrite List.Forall_forall. exact Hmax.
  - rewrite Hstart. apply Hmax. now apply hd_In.
  - rewrite Hend. apply Hmax. now apply last_In.
  - rewrite Hrange. destruct q_values as [|v rest]; [lra|]. apply range_nonneg.
Qed.

Lemma peak_of_segment_witness :
  exists d,
    analyze_segment_flow_dynamics (window_engine "area" (Some (1 # 4)))
      (window_engine "h_index" (Some (1 # 5)))
      (window_engine "mean_HInew" (Some (1 # 2)))
      flood_wave flow_thresholds true
    = Returns (Some d)
    /\ Forall (fun r => snd (fst r) <= d.(peak_q)) (dropna flood_wave)
    /\ d.(start_q) <= d.(peak_q) /\ d.(end_q) <= d.(peak_q)
    /\ 0 <= d.(q_range).
Proof.
  apply (peak_of_segment string (window_engine "area" (Some (1 # 4)))
           (window_engine "h_index" (Some (1 # 5)))
           (window_engine "mean_HInew" (Some (1 # 2)))
           flood_wave flow_thresholds true (Some 2) (Some 4) (Some 6)).
  - vm_compute. lia.
  - reflexivity.
  - reflexivity.
  - reflexivity.
Defined.

(** X25: the four window entries are absent when the window has fewer
    than 5 complete rows or no concentration column is named, and present
    otherwise; when an engine raises inside
    [calculate_all_hysteresis_metrics] they are NaN, NaN, NaN and
    'unknown', and nothing is raised. *)
Theorem window_entries (processed : Type)
  (harp zuecco lloyd : list (Q * Q * Q) -> outcome (frame * processed))
  segment_data percentiles has_ccol p25 p50 p75 :
  (2 <= length (dropna segment_data))%nat ->
  percentiles !! "Q_p25" = Some p25 ->
  percentiles !! "Q_p50" = Some p50 ->
  percentiles !! "Q_p75" = Some p75 ->
  exists d,
    analyze_segment_flow_dynamics harp zuecco lloyd segment_data percentiles
      has_ccol
    = Returns (Some d)
    /\ ((length (dropna segment_data) < 5)%nat \/ has_ccol = false ->
        d.(window) = None)
    /\ ((5 <= length (dropna segment_data))%nat -> has_ccol = true ->
        exists w,
          d.(window) = Some w
          /\ (forall e,
                try_body harp zuecco lloyd (dropna segment_data) = Raises e ->
                w = {| window_HI_harp := NaN;
                       window_HI_zuecco := NaN;
                       window_HI_lloyd := NaN;
                       window_direction := Text "unknown" |})).
Proof.
  intros Hrows H25 H50 H75.
  destruct (analyze_returns processed harp zuecco lloyd segment_data
              percentiles has_ccol p25 p50 p75 Hrows H25 H50 H75)
    as (d & E & _ & _ & _ & _ & _ & _ & Hwindow & _).
  exists d. split; [exact E|]. rewrite Hwindow. unfold window_of. split.
  - intros [Hshort | ->]; [|reflexivity].
    apply Nat.leb_gt in Hshort. rewrite Hshort. now destruct has_ccol.
  - intros Hlong ->. pose proof Hlong as Hlong'.
    apply Nat.leb_le in Hlong'. rewrite Hlong'.
    unfold calculate_all_hysteresis_metrics.
    assert (H3 : (length (dropna segment_data) <? 3)%nat = false)
      by (apply Nat.ltb_ge; lia).
    rewrite H3.
    destruct (try_body harp zuecco lloyd (dropna segment_data)) as [r|e0];
      cbn [try_except]; eexists; (split; [reflexivity|]).
    + intros e He. discriminate.
    + intros e _. reflexivity.
Qed.

Lemma window_entries_witness :
  exists d,
    analyze_segment_flow_dynamics (window_engine "area" (Some (1 # 4)))
      failing_engine
      (window_engine "mean_HInew" (Some (1 # 2)))
      flood_wave flow_thresholds true
    = Returns (Some d)
    /\ ((length (dropna flood_wave) < 5)%nat \/ true = false ->
        d.(window) = None)
    /\ ((5 <= length (dropna flood_wave))%nat -> true = true ->
        exists w,
          d.(window) = Some w
          /\ (forall e,
                try_body (window_engine "area" (Some (1 # 4))) failing_engine
                  (window_engine "mean_HInew" (Some (1 # 2)))
                  (dropna flood_wave) = Raises e ->
                w = {| window_HI_harp := NaN;
                       window_HI_zuecco := NaN;
                       window_HI_lloyd := NaN;
                       window_direction := Text "unknown" |})).
Proof.
  apply (window_entries string (window_engine "area" (Some (1 # 4)))
           failing_engine (window_engine "mean_HInew" (Some (1 # 2)))
           flood_wave flow_thresholds true (Some 2) (Some 4) (Some 6)).
  - vm_compute. lia.
  - reflexivity.
  - reflexivity.
  - reflexivity.
Defined.

End FlowFacts.

(** ** gcs_classification.py: the context columns and the cascade *)

Module ContextFacts.

Import Classification Grades Context.
#[local] Open Scope string_scope.
#[local] Open Scope list_scope.

(** *** Comparisons with a NaN *)

Lemma SFcompare_self (s : spec_float) :
  s <> S754_nan -> SFcompare s s = Some Eq.
Proof.
  destruct s as [sx|sx| |sx mx ex]; cbn; try congruence.
  - intros _. destruct sx; reflexivity.
  - intros _. destruct sx; rewrite Z.compare_refl;
      change (Pos.compare_cont Eq mx mx) with (mx ?= mx)%positive;
      now rewrite Pos.compare_refl.
Qed.

Lemma is_nan_spec (x : float) :
  is_nan x = true -> Prim2SF x = S754_nan.
Proof.
  unfold is_nan. rewrite FloatAxioms.eqb_spec. unfold SFeqb. intros H.
  destruct (Prim2SF x) as [sx|sx| |sx mx ex] eqn:E; try reflexivity;
    rewrite SFcompare_self in H; discriminate.
Qed.

Lemma nan_not_less (x y : float) : is_nan x = true -> (x <? y)%float = false.
Proof.
  intros H. rewrite ltb_spec, (is_nan_spec x H). reflexivity.
Qed.

Lemma nan_not_greater (x y : float) : is_nan x = true -> (y <? x)%float = false.
Proof.
  intros H. rewrite ltb_spec, (is_nan_spec x H). unfold SFltb.
  now destruct (Prim2SF y) as [[]|[]| |[] ? ?].
Qed.

Lemma abs_nan (x : float) : is_nan x = true -> is_nan (abs x) = true.
Proof.
  intros H. unfold is_nan. rewrite FloatAxioms.eqb_spec, FloatAxioms.abs_spec, (is_nan_spec x H).
  reflexivity.
Qed.

(** *** The trajectory of the concentration *)

Lemma has_trajectory_keys_lookup percentiles key :
  has_trajectory_keys percentiles = true ->
  In key trajectory_keys ->
  exists v, percentiles !! key = Some v.
Proof.
  unfold has_trajectory_keys. rewrite forallb_forall. intros H Hin.
  specialize (H key Hin). destruct (percentiles !! key) as [v|]; [|discriminate].
  now exists v.
Qed.

(** X26: with its five thresholds present, the trajectory is one of the
    eight labels; [rising_to_max] and [at_maximum] are given only at a high
    C_position, [steep_decline_from_high] only after a high C_position, and
    a NaN concentration change is labelled [stable]. *)
Theorem C_trajectory_label_cases percentiles d c_pos prev_c_pos :
  has_trajectory_keys percentiles = true ->
  exists traj,
    C_trajectory_label percentiles d c_pos prev_c_pos = inr traj
    /\ In traj trajectories
    /\ (In traj ["rising_to_max"; "at_maximum"] -> c_pos = "high")
    /\ (traj = "steep_decline_from_high" -> prev_c_pos = "high")
    /\ (is_nan d = true -> traj = "stable").
Proof.
  intros Hkeys.
  destruct (has_trajectory_keys_lookup percentiles "dC_p08" Hkeys)
    as [p08 E08]; [cbn; tauto|].
  destruct (has_trajectory_keys_lookup percentiles "dC_p25" Hkeys)
    as [p25 E25]; [cbn; tauto|].
  destruct (has_trajectory_keys_lookup percentiles "dC_p90" Hkeys)
    as [p90 E90]; [cbn; tauto|].
  destruct (has_trajectory_keys_lookup percentiles "dC_p75" Hkeys)
    as [p75 E75]; [cbn; tauto|].
  destruct (has_trajectory_keys_lookup percentiles "abs_dC_p50" Hkeys)
    as [a50 E50]; [cbn; tauto|].
  unfold C_trajectory_label, lookup. rewrite E08, E25, E90, E75, E50.
  destruct (d <? p08)%float eqn:L08;
    [destruct (prev_c_pos =? "high") eqn:Eprev|
     destruct (d <? p25)%float eqn:L25;
     [|destruct (p90 <? d)%float eqn:L90;
       [destruct (c_pos =? "high") eqn:Ecur|
        destruct (p75 <? d)%float eqn:L75;
        [|destruct (c_pos =? "high") eqn:Ecur;
          [destruct (abs d <? a50)%float eqn:La|]]]]];
    eexists; (split; [reflexivity|]); (split; [cbn; tauto|]);
    (split; [intros [E|[E|[]]]; try discriminate E;
             now apply String.eqb_eq|]);
    (split; [intros E; try discriminate E; now apply String.eqb_eq|]);
    intros Hn; try reflexivity;
    try (rewrite (nan_not_less d _ Hn) in *; discriminate);
    try (rewrite (nan_not_greater d _ Hn) in *; discriminate).
  rewrite (nan_not_less (abs d) a50 (abs_nan d Hn)) in La. discriminate.
Qed.

Lemma C_trajectory_label_cases_witness :
  has_trajectory_keys trajectory_thresholds = true
  /\ exists traj,
       C_trajectory_label trajectory_thresholds (-7)%float "medium" "high"
       = inr traj
       /\ In traj trajectories
       /\ (In traj ["rising_to_max"; "at_maximum"] -> "medium" = "high")
       /\ (traj = "steep_decline_from_high" -> "high" = "high")
       /\ (is_nan (-7)%float = true -> traj = "stable").
Proof.
  split; [vm_compute; reflexivity|].
  apply (C_trajectory_label_cases trajectory_thresholds (-7)%float
           "medium" "high").
  vm_compute; reflexivity.
Defined.

(** *** The trajectory and the flushing block *)

Ltac split_tests :=
  repeat match goal with
  | |- context [match ?m !! ?k with _ => _ end] => destruct (m !! k) eqn:?
  | |- context [if ?b then _ else _] => destruct b
  end.

(** X27: in the high-resolution pipeline, where C_trajectory is computed
    from the same concentration change and the same thresholds, a row with
    a change below dC_p08 and a high Q_position is classified F with a
    confidence of at least 0.92, and its trail names [c_was_high]: the
    confidences 0.85 and 0.90 of that branch are not given. *)
Theorem steep_decline_with_trajectory row percentiles dC_p08 d
    c_pos prev_c_pos traj :
  percentiles !! "dC_p08" = Some dC_p08 ->
  row.(conc_diff) = Some d ->
  (d <? dC_p08)%float = true ->
  row.(Q_position) = Some "high" ->
  C_trajectory_label percentiles d c_pos prev_c_pos = inr traj ->
  row.(C_trajectory) = Some traj ->
  exists confidence rules,
    classify_segment_phase row percentiles = inr ("F", confidence, rules)
    /\ (0.92 <=? confidence)%float = true
    /\ In "c_was_high" rules.
Proof.
  intros Hkey Hd Hlt Hq Htraj Hrow.
  assert (Hhigh : c_was_high row = true).
  { unfold c_was_high, c_trajectory. rewrite Hrow. cbn [Py.get].
    unfold C_trajectory_label, lookup in Htraj. rewrite Hkey, Hlt in Htraj.
    destruct (prev_c_pos =? "high"); injection Htraj as <-;
      now rewrite orb_true_r. }
  unfold classify_segment_phase, cascade, flushing, item.
  rewrite Hkey. unfold conc_diff_, q_high, q_pos. rewrite Hd, Hq. cbn [Py.get].
  rewrite Hlt, Hhigh.
  replace (Py.str_in (q_level row) ["high"; "medium"] || ("high" =? "high"))%bool
    with true by (now rewrite orb_true_r).
  rewrite orb_true_r. cbn [andb].
  split_tests; cbn [and_then]; do 2 eexists;
    (split; [reflexivity|]); (split; [vm_compute; reflexivity|]);
    repeat (apply in_or_app; first [right; cbn; tauto | left]).
Qed.

Lemma steep_decline_with_trajectory_witness :
  exists confidence rules,
    classify_segment_phase flushing_row trajectory_thresholds
    = inr ("F", confidence, rules)
    /\ (0.92 <=? confidence)%float = true
    /\ In "c_was_high" rules.
Proof.
  apply (steep_decline_with_trajectory flushing_row trajectory_thresholds
           (-5)%float (-7)%float "medium" "high" "steep_decline_from_high");
    vm_compute; reflexivity.
Defined.

(** *** The transition of the index and the chemostatic block *)

Ltac close_other := cbn [other_than_C and_then]; first [exact I | cbn; tauto].

Lemma flushing_other row percentiles rules :
  other_than_C (flushing row percentiles rules).
Proof. unfold flushing, item, and_then. split_tests; close_other. Qed.

Lemma loading_other row percentiles rules :
  other_than_C (loading row percentiles rules).
Proof. unfold loading, item. split_tests; close_other. Qed.

Lemma dilution_other row percentiles rules :
  other_than_C (dilution row percentiles rules).
Proof. unfold dilution, item. split_tests; close_other. Qed.

Lemma recession_other row percentiles rules :
  other_than_C (recession row percentiles rules).
Proof. unfold recession, item, and_then. split_tests; close_other. Qed.

(** The chemostatic block falls through when the transition is not
    [stable]. *)
Lemma chemostatic_other row percentiles rules :
  (hi_transition row =? "stable") = false ->
  other_than_C (chemostatic row percentiles rules).
Proof.
  intros H. unfold chemostatic, item. rewrite H, andb_false_r.
  split_tests; close_other.
Qed.

Lemma and_then_other s next :
  other_than_C s ->
  (forall rules, other_than_C (next rules)) ->
  other_than_C (and_then s next).
Proof. destruct s; cbn; auto. Qed.

Lemma cascade_other row percentiles :
  (hi_transition row =? "stable") = false ->
  other_than_C (cascade row percentiles).
Proof.
  intros H. unfold cascade.
  repeat apply and_then_other;
    auto using flushing_other, loading_other, chemostatic_other,
               dilution_other, recession_other.
Qed.

Lemma unstable_transition_phases row percentiles :
  has_thresholds percentiles = true ->
  (hi_transition row =? "stable") = false ->
  exists phase confidence rules,
    classify_segment_phase row percentiles = inr (phase, confidence, rules)
    /\ In phase ["F"; "L"; "D"; "R"; "V"].
Proof.
  intros Hkeys Ht. unfold classify_segment_phase.
  pose proof (cascade_other row percentiles Ht) as Ho.
  pose proof (ClassificationFacts.cascade_sound row percentiles) as Hs.
  destruct (cascade row percentiles) as [key|phase confidence rules|rules];
    cbn in Ho, Hs.
  - destruct Hs as [Hin Hnone].
    now destruct (ClassificationFacts.has_thresholds_lookup percentiles key Hkeys Hin).
  - exists phase, confidence, rules. split; [reflexivity|]. cbn. tauto.
  - unfold fallback. do 3 eexists. split; [reflexivity|]. cbn. tauto.
Qed.

(** X28: the first segment of a site, which the high-resolution
    pipeline marks with the HI_transition [first], is never classified C:
    with every threshold present its phase is F, L, D, R or V. *)
Theorem first_segment_is_not_chemostatic row percentiles :
  has_thresholds percentiles = true ->
  row.(HI_transition) = Some "first" ->
  exists phase confidence rules,
    classify_segment_phase row percentiles = inr (phase, confidence, rules)
    /\ In phase ["F"; "L"; "D"; "R"; "V"].
Proof.
  intros Hkeys Hrow. apply unstable_transition_phases; [exact Hkeys|].
  unfold hi_transition. now rewrite Hrow.
Qed.

Lemma first_segment_is_not_chemostatic_witness :
  exists phase confidence rules,
    classify_segment_phase first_segment_row example_thresholds
    = inr (phase, confidence, rules)
    /\ In phase ["F"; "L"; "D"; "R"; "V"].
Proof.
  apply (first_segment_is_not_chemostatic first_segment_row example_thresholds);
    vm_compute; reflexivity.
Defined.

End ContextFacts.
